(** * captcha-protect: a shallow embedding of the rate/verification engine

    The development follows the Go sources:
    - [internal/filelock/filelock.go]: the cooperative file lock
      ([New], [Lock], [Unlock], [isStale], [TryLock]);
    - [main.go]: the middleware ([NewCaptchaProtect], [registerRequest],
      [trippedRateLimit], [isGoodBot], [RouteIsProtectedPrefix],
      [verifyChallengePage], [reconcileStates], ...).

    Go's [uint] is modelled as [Z] reduced modulo [2^64], strings as
    [string] (byte sequences), Go maps as [gmap string _], the three TTL
    caches as records threaded explicitly through every operation, and the
    file system and the clock as a [World] passed from call to call. *)

From Stdlib Require Import ZArith String Ascii List Lia.
From stdpp Require Import base gmap strings list fin_maps pretty.

Open Scope string_scope.
Open Scope Z_scope.

(** ** Go primitives *)

Module Go.

(** [uint] on a 64-bit platform. *)
Definition uint_bits : Z := 64.
Definition uint_modulus : Z := 2 ^ uint_bits.
Definition MaxUint : Z := uint_modulus - 1.
Definition uint_wrap (z : Z) : Z := z mod uint_modulus.
Definition is_uint (z : Z) : Prop := 0 <= z < uint_modulus.

(** Durations and instants are counted in nanoseconds. *)
Definition Millisecond : Z := 1000000.
Definition Second : Z := 1000 * Millisecond.
Definition Minute : Z := 60 * Second.

(** [int64] multiplication, as in [time.Duration(x) * time.Second]. *)
Definition int64_wrap (z : Z) : Z := (z + 2 ^ 63) mod 2 ^ 64 - 2 ^ 63.

(** Results of fallible calls: a value or an error message. *)
Inductive result (A : Type) : Type :=
| Ok (a : A)
| Err (msg : string).
Arguments Ok {A} a.
Arguments Err {A} msg.

Definition is_err {A} (r : result A) : bool :=
  match r with Ok _ => false | Err _ => true end.

(** HTTP status codes used by the middleware. *)
Definition StatusOK : Z := 200.
Definition StatusFound : Z := 302.
Definition StatusBadRequest : Z := 400.
Definition StatusForbidden : Z := 403.
Definition StatusTooManyRequests : Z := 429.
Definition StatusInternalServerError : Z := 500.
Definition StatusMethodNotAllowed : Z := 405.

End Go.

(** ** The [strings], [path/filepath] and [net/url] functions the code calls *)

Module strings.

(** [strings.HasPrefix(s, prefix)]. *)
Definition HasPrefix (s pre : string) : bool := String.prefix pre s.

(** [strings.TrimPrefix(s, prefix)]. *)
Definition TrimPrefix (s pre : string) : string :=
  if HasPrefix s pre
  then String.substring (String.length pre)
         (String.length s - String.length pre) s
  else s.

(** Lower-casing of one byte; bytes outside [A-Z] are unchanged (the
    routes, extensions and agents of the configuration are ASCII). *)
Definition lower (c : ascii) : ascii :=
  let n := nat_of_ascii c in
  if ((65 <=? n) && (n <=? 90))%nat then ascii_of_nat (n + 32) else c.

(** [strings.ToLower] on strings of bytes below [0x80]; Go also
    lower-cases the letters outside ASCII, which are left as they are
    here. *)
Fixpoint ToLower (s : string) : string :=
  match s with
  | EmptyString => EmptyString
  | String c rest => String (lower c) (ToLower rest)
  end.

(** [strings.EqualFold]: equality under simple case folding, on strings
    of bytes below [0x80]; Go also folds letters outside ASCII (U+017F with
    [s], U+212A with [k]), which are compared as they are here. *)
Fixpoint EqualFold (s t : string) : bool :=
  match s, t with
  | EmptyString, EmptyString => true
  | String a s', String b t' => Ascii.eqb (lower a) (lower b) && EqualFold s' t'
  | _, _ => false
  end.

(** [strings.HasSuffix(s, suffix)]:
    [len(s) >= len(suffix) && s[len(s)-len(suffix):] == suffix]. *)
Definition HasSuffix (s suf : string) : bool :=
  (String.length suf <=? String.length s)%nat &&
  String.eqb
    (String.substring (String.length s - String.length suf)
       (String.length suf) s) suf.

(** [strings.TrimSuffix(s, suffix)]. *)
Definition TrimSuffix (s suf : string) : string :=
  if HasSuffix s suf
  then String.substring 0 (String.length s - String.length suf) s
  else s.

(** [strings.Contains(s, substr)] for a one-byte [substr]. *)
Fixpoint ContainsByte (s : string) (c : ascii) : bool :=
  match s with
  | EmptyString => false
  | String a rest => Ascii.eqb a c || ContainsByte rest c
  end.

(** [strings.Split(s, sep)] for a one-byte [sep]: the pieces between the
    separators, one more than there are separators. *)
Fixpoint Split (s : string) (sep : ascii) : list string :=
  match s with
  | EmptyString => [EmptyString]
  | String a rest =>
      if Ascii.eqb a sep then EmptyString :: Split rest sep
      else match Split rest sep with
           | piece :: pieces => String a piece :: pieces
           | [] => [String a EmptyString]
           end
  end.

(** The white space that [strings.TrimSpace] removes, among the bytes
    below [0x80]: tab, line feed, vertical tab, form feed, carriage return
    and space. *)
Definition isSpace (c : ascii) : bool :=
  let n := nat_of_ascii c in
  ((9 <=? n) && (n <=? 13) || (n =? 32))%nat.

Fixpoint TrimLeft (s : string) : string :=
  match s with
  | EmptyString => EmptyString
  | String c rest => if isSpace c then TrimLeft rest else s
  end.

Fixpoint TrimRight (s : string) : string :=
  match s with
  | EmptyString => EmptyString
  | String c rest =>
      match TrimRight rest with
      | EmptyString => if isSpace c then EmptyString else String c EmptyString
      | kept => String c kept
      end
  end.

(** [strings.TrimSpace] for the white space below [0x80]; Go also trims
    U+0085 and U+00A0, which are kept here. *)
Definition TrimSpace (s : string) : string := TrimRight (TrimLeft s).

End strings.

Module filepath.

(** The loop of [filepath.Ext]:
    [for i := len(path) - 1; i >= 0 && !os.IsPathSeparator(path[i]); i--]
    with [if path[i] == '.' { return path[i:] }]; the argument [n] is
    [i + 1], so that [n = 0] is the exit [i < 0]. *)
Fixpoint Ext_from (path : string) (n : nat) : string :=
  match n with
  | O => ""
  | S i =>
      match String.get i path with
      | None => ""
      | Some c =>
          if Ascii.eqb c "/" then ""
          else if Ascii.eqb c "."
               then String.substring i (String.length path - i) path
               else Ext_from path i
      end
  end.

(** [filepath.Ext(path)]. *)
Definition Ext (path : string) : string := Ext_from path (String.length path).

End filepath.

Module url.

Definition ishex (c : ascii) : bool :=
  let n := nat_of_ascii c in
  ((48 <=? n) && (n <=? 57) || (97 <=? n) && (n <=? 102)
   || (65 <=? n) && (n <=? 70))%nat.

Definition unhex (c : ascii) : nat :=
  let n := nat_of_ascii c in
  if ((48 <=? n) && (n <=? 57))%nat then n - 48
  else if ((97 <=? n) && (n <=? 102))%nat then n - 97 + 10
  else if ((65 <=? n) && (n <=? 70))%nat then n - 65 + 10
  else 0.

(** First pass of [url.unescape]: every ['%'] is followed by two
    hexadecimal digits. *)
Fixpoint well_escaped (s : string) : bool :=
  match s with
  | EmptyString => true
  | String c rest =>
      if Ascii.eqb c "%" then
        match rest with
        | String a (String b rest') => ishex a && ishex b && well_escaped rest'
        | _ => false
        end
      else well_escaped rest
  end.

(** Second pass of [url.unescape] in query-component mode: ['%XY'] is the
    byte [XY] and ['+'] is a space. *)
Fixpoint decode (s : string) : string :=
  match s with
  | EmptyString => EmptyString
  | String c rest =>
      if Ascii.eqb c "%" then
        match rest with
        | String a (String b rest') =>
            String (ascii_of_nat (unhex a * 16 + unhex b)) (decode rest')
        | _ => EmptyString
        end
      else if Ascii.eqb c "+" then String " " (decode rest)
      else String c (decode rest)
  end.

(** [url.QueryUnescape(s)]: [None] is the [EscapeError]. *)
Definition QueryUnescape (s : string) : option string :=
  if well_escaped s then Some (decode s) else None.

(** [url.shouldEscape(c, encodeQueryComponent)]: letters, digits and
    [-], [_], [.], [~] are kept, every other byte is escaped. *)
Definition shouldEscape (c : ascii) : bool :=
  let n := nat_of_ascii c in
  negb ((97 <=? n) && (n <=? 122) || (65 <=? n) && (n <=? 90)
        || (48 <=? n) && (n <=? 57)
        || (n =? 45) || (n =? 95) || (n =? 46) || (n =? 126))%nat.

(** One digit of ["0123456789ABCDEF"]. *)
Definition upperhex (n : nat) : ascii :=
  if (n <? 10)%nat then ascii_of_nat (48 + n) else ascii_of_nat (55 + n).

(** [url.QueryEscape(s)]: a space becomes ['+'], another byte that must
    be escaped becomes ['%'] and its two hexadecimal digits. *)
Fixpoint QueryEscape (s : string) : string :=
  match s with
  | EmptyString => EmptyString
  | String c rest =>
      if shouldEscape c then
        if Ascii.eqb c " " then String "+" (QueryEscape rest)
        else String "%"
               (String (upperhex (nat_of_ascii c / 16))
                  (String (upperhex (nat_of_ascii c mod 16))
                     (QueryEscape rest)))
      else String c (QueryEscape rest)
  end.

End url.


(** ** The TTL cache *)

Module lru.

(** Modelled from the spec: the bounded TTL cache of section 4.2
    ([github.com/patrickmn/go-cache], imported as [lru]) is not among the
    sources. An entry is a value with the instant at which it expires; an
    [Expiration] of [0] is an entry that never expires. *)
Record Item (V : Type) : Type := mkItem { Object : V; Expiration : Z }.
Arguments mkItem {V} _ _.
Arguments Object {V} _.
Arguments Expiration {V} _.

(** Modelled from the spec: a cache of section 4.2, its entries and the
    default time to live that [lru.New] received. *)
Record Cache (V : Type) : Type := mkCache {
  defaultExpiration : Z;
  items : gmap string (Item V)
}.
Arguments mkCache {V} _ _.
Arguments defaultExpiration {V} _.
Arguments items {V} _.

Definition NoExpiration : Z := -1.
Definition DefaultExpiration : Z := 0.

(** Modelled from the spec: [lru.New(defaultExpiration, cleanupInterval)]
    of section 4.2; the interval only drives the sweep of entries that are
    already expired. *)
Definition New {V} (de : Z) : Cache V :=
  mkCache (if de =? 0 then NoExpiration else de) ∅.

(** Modelled from the spec: an entry is expired once the clock has passed
    its expiration (section 4.2: an expired key behaves as if absent). The
    operations below read the clock once; the instant is their argument
    [now]. *)
Definition Expired {V} (it : Item V) (now : Z) : bool :=
  (0 <? Expiration it) && (Expiration it <? now).

(** Modelled from the spec: [Set(key, value, ttl)] of section 4.2; with
    the default expiration the entry lives for the cache's time to live
    from [now]. *)
Definition Set_ {V} (c : Cache V) (k : string) (x : V) (d : Z) (now : Z)
  : Cache V :=
  let d := if d =? DefaultExpiration then defaultExpiration c else d in
  let e := if 0 <? d then now + d else 0 in
  mkCache (defaultExpiration c) (<[k := mkItem x e]> (items c)).

(** Modelled from the spec: [Get(key)] of section 4.2, [None] when the
    key is not found. *)
Definition Get {V} (c : Cache V) (k : string) (now : Z) : option V :=
  match items c !! k with
  | None => None
  | Some it => if Expired it now then None else Some (Object it)
  end.

(** Modelled from the spec: [Add(key, value, ttl)] of section 4.2, an
    error if the key is already present; the boolean is [true] for the
    error. *)
Definition Add {V} (c : Cache V) (k : string) (x : V) (d : Z) (now : Z)
  : Cache V * bool :=
  match Get c k now with
  | Some _ => (c, true)
  | None => (Set_ c k x d now, false)
  end.

(** Modelled from the spec: [IncrementUint(key, delta)] of section 4.2,
    an error ([None]) if the key is absent; the expiry of the entry is
    preserved (section 3) and the addition is Go's [uint] addition. *)
Definition IncrementUint (c : Cache Z) (k : string) (n : Z) (now : Z)
  : Cache Z * option Z :=
  match items c !! k with
  | None => (c, None)
  | Some it =>
      if Expired it now then (c, None)
      else
        let nv := Go.uint_wrap (Object it + n) in
        (mkCache (defaultExpiration c)
           (<[k := mkItem nv (Expiration it)]> (items c)), Some nv)
  end.

(** Modelled from the spec: [Items()] of section 4.2, the entries that
    are not expired. *)
Definition Items {V} (c : Cache V) (now : Z) : gmap string (Item V) :=
  filter (fun kv => Expired (snd kv) now = false) (items c).

(** Modelled from the spec: [Flush()] of section 4.2. *)
Definition Flush {V} (c : Cache V) : Cache V :=
  mkCache (defaultExpiration c) ∅.

End lru.

(** ** [internal/filelock]: the cooperative file lock *)

Module filelock.

(** The part of the operating system that [filelock.go] talks to: the
    clock, the regular files that exist (with their last-modified time),
    and whether the directory of a path can be created ([os.MkdirAll]) and
    written (entries created and removed). *)
Inductive errno : Type := EEXIST | ENOENT | EACCES.

Record World : Type := mkWorld {
  clock : Z;
  files : gmap string Z;
  mkdir_ok : string -> bool;
  writable : string -> bool
}.

Definition errno_text (e : errno) : string :=
  match e with
  | EEXIST => "file exists"
  | ENOENT => "no such file or directory"
  | EACCES => "permission denied"
  end.

Definition IsExist (e : errno) : bool :=
  match e with EEXIST => true | _ => false end.

Definition IsNotExist (e : errno) : bool :=
  match e with ENOENT => true | _ => false end.

Definition with_files (w : World) (fs : gmap string Z) : World :=
  mkWorld (clock w) fs (mkdir_ok w) (writable w).

(** [os.MkdirAll(filepath.Dir(p), 0755)]: whether it succeeds. The world
    records regular files only: a directory that the call creates is not
    recorded, and nothing below speaks of directories. *)
Definition os_MkdirAll_Dir (p : string) (w : World) : option errno :=
  if mkdir_ok w p then None else Some EACCES.

(** [os.OpenFile(p, os.O_CREATE|os.O_EXCL|os.O_WRONLY, 0644)] followed by
    the write of the process id and [Close]: the file is created with the
    current time as its last-modified time. *)
Definition os_OpenFile_excl (p : string) (w : World) : World * option errno :=
  match files w !! p with
  | Some _ => (w, Some EEXIST)
  | None =>
      if writable w p then (with_files w (<[p := clock w]> (files w)), None)
      else (w, Some EACCES)
  end.

(** [os.Stat(p)], reduced to [info.ModTime()]. *)
Definition os_Stat (p : string) (w : World) : option Z := files w !! p.

(** [os.Remove(p)]. *)
Definition os_Remove (p : string) (w : World) : World * option errno :=
  match files w !! p with
  | None => (w, Some ENOENT)
  | Some _ =>
      if writable w p then (with_files w (delete p (files w)), None)
      else (w, Some EACCES)
  end.

(** [time.Sleep(d)]. *)
Definition time_Sleep (d : Z) (w : World) : World :=
  mkWorld (clock w + d) (files w) (mkdir_ok w) (writable w).

Record FileLock : Type := mkFileLock {
  lockFile : string;
  acquired : bool
}.

Definition set_acquired (fl : FileLock) (b : bool) : FileLock :=
  mkFileLock (lockFile fl) b.

(** [New(filePath)]. *)
Definition New (filePath : string) : FileLock :=
  mkFileLock (filePath +:+ ".lock") false.

(** [isStale]: a marker that cannot be examined counts as stale. *)
Definition isStale (fl : FileLock) (w : World) : bool :=
  match os_Stat (lockFile fl) w with
  | None => true
  | Some modTime => 5 * Go.Minute <? clock w - modTime
  end.

Definition maxRetries : nat := 300.

Definition errTimeout (fl : FileLock) : string :=
  "timeout waiting for lock on " +:+ lockFile fl.

Definition errCreateLockFile (e : errno) : string :=
  "failed to create lock file: " +:+ errno_text e.

Definition errCreateLockDir (e : errno) : string :=
  "failed to create lock directory: " +:+ errno_text e.

Definition errAlreadyAcquired : string := "lock already acquired".

Definition errAlreadyHeld : string := "lock already held".

Definition errRemove (e : errno) : string :=
  "failed to remove lock file: " +:+ errno_text e.

(** The loop [for i := 0; i < maxRetries; i++] of [Lock]; [remaining] is
    [maxRetries - i]. The result is the error ([None] is [nil]), the lock
    and the world. *)
Fixpoint Lock_loop (remaining : nat) (fl : FileLock) (w : World)
  : option string * FileLock * World :=
  match remaining with
  | O => (Some (errTimeout fl), fl, w)
  | S remaining' =>
      match os_OpenFile_excl (lockFile fl) w with
      | (w1, None) => (None, set_acquired fl true, w1)
      | (w1, Some err) =>
          if negb (IsExist err) then (Some (errCreateLockFile err), fl, w1)
          else if isStale fl w1 then
            match os_Remove (lockFile fl) w1 with
            | (w2, None) => Lock_loop remaining' fl w2
            | (w2, Some _) =>
                Lock_loop remaining' fl (time_Sleep (100 * Go.Millisecond) w2)
            end
          else Lock_loop remaining' fl (time_Sleep (100 * Go.Millisecond) w1)
      end
  end.

(** [Lock()]. *)
Definition Lock (fl : FileLock) (w : World) : option string * FileLock * World :=
  if acquired fl then (Some errAlreadyAcquired, fl, w)
  else
    match os_MkdirAll_Dir (lockFile fl) w with
    | Some err => (Some (errCreateLockDir err), fl, w)
    | None => Lock_loop maxRetries fl w
    end.

(** [Unlock()]. *)
Definition Unlock (fl : FileLock) (w : World) : option string * FileLock * World :=
  if negb (acquired fl) then (None, fl, w)
  else
    match os_Remove (lockFile fl) w with
    | (w1, Some err) =>
        if negb (IsNotExist err) then (Some (errRemove err), fl, w1)
        else (None, set_acquired fl false, w1)
    | (w1, None) => (None, set_acquired fl false, w1)
    end.

(** [TryLock()]. *)
Definition TryLock (fl : FileLock) (w : World) : option string * FileLock * World :=
  if acquired fl then (Some errAlreadyAcquired, fl, w)
  else
    match os_MkdirAll_Dir (lockFile fl) w with
    | Some err => (Some (errCreateLockDir err), fl, w)
    | None =>
        match os_OpenFile_excl (lockFile fl) w with
        | (w1, Some err) =>
            if IsExist err then (Some errAlreadyHeld, fl, w1)
            else (Some (errCreateLockFile err), fl, w1)
        | (w1, None) => (None, set_acquired fl true, w1)
        end
    end.

End filelock.

(** ** [internal/state]: the persisted snapshot *)

Module state.

(** Modelled from the spec: the declaration of [state.State] is not part of
    the sources; section 6 gives the persisted format as one object with
    the keys [Rate] (string to unsigned), [Bots] (string to bool),
    [Verified] (string to bool) and [Memory] (string to unsigned), and
    [reconcileStates] uses exactly these four map fields. A nil map is
    [None]. *)
Record State : Type := mkState {
  Rate : option (gmap string Z);
  Bots : option (gmap string bool);
  Verified : option (gmap string bool);
  Memory : option (gmap string Z)
}.

(** Reading a Go map that may be nil. *)
Definition entries {V} (m : option (gmap string V)) : gmap string V :=
  match m with Some m => m | None => ∅ end.

End state.

(** ** [main.go]: the middleware *)

Module captcha_protect.

Import Go.

Record Config : Type := mkConfig {
  RateLimit : Z;
  Window : Z;
  IPv4SubnetMask : Z;
  IPv6SubnetMask : Z;
  IPForwardedHeader : string;
  IPDepth : Z;
  ProtectParameters : string;
  ProtectRoutes : list string;
  ExcludeRoutes : list string;
  ProtectFileExtensions : list string;
  ProtectHttpMethods : list string;
  GoodBots : list string;
  ExemptIPs : list string;
  ExemptUserAgents : list string;
  ChallengeURL : string;
  ChallengeTmpl : string;
  ChallengeStatusCode : Z;
  CaptchaProvider : string;
  SiteKey : string;
  SecretKey : string;
  EnableStatsPage : string;
  LogLevel : string;
  PersistentStateFile : string;
  Mode : string
}.

(** [CreateConfig()]. *)
Definition CreateConfig : Config := {|
  RateLimit := 20;
  Window := 86400;
  IPv4SubnetMask := 16;
  IPv6SubnetMask := 64;
  IPForwardedHeader := "";
  IPDepth := 0;
  ProtectParameters := "false";
  ProtectRoutes := [];
  ExcludeRoutes := [];
  ProtectFileExtensions := [];
  ProtectHttpMethods := [];
  GoodBots := [];
  ExemptIPs := [];
  ExemptUserAgents := [];
  ChallengeURL := "/challenge";
  ChallengeTmpl := "challenge.tmpl.html";
  ChallengeStatusCode := 0;
  CaptchaProvider := "turnstile";
  SiteKey := "";
  SecretKey := "";
  EnableStatsPage := "false";
  LogLevel := "INFO";
  PersistentStateFile := "";
  Mode := "prefix"
|}.

(** Assignments to fields of [*Config]. *)
Definition set_ExemptUserAgents (c : Config) (v : list string) : Config :=
  mkConfig (RateLimit c) (Window c) (IPv4SubnetMask c) (IPv6SubnetMask c)
    (IPForwardedHeader c) (IPDepth c) (ProtectParameters c) (ProtectRoutes c)
    (ExcludeRoutes c) (ProtectFileExtensions c) (ProtectHttpMethods c)
    (GoodBots c) (ExemptIPs c) v (ChallengeURL c) (ChallengeTmpl c)
    (ChallengeStatusCode c) (CaptchaProvider c) (SiteKey c) (SecretKey c)
    (EnableStatsPage c) (LogLevel c) (PersistentStateFile c) (Mode c).

Definition set_ChallengeURL (c : Config) (v : string) : Config :=
  mkConfig (RateLimit c) (Window c) (IPv4SubnetMask c) (IPv6SubnetMask c)
    (IPForwardedHeader c) (IPDepth c) (ProtectParameters c) (ProtectRoutes c)
    (ExcludeRoutes c) (ProtectFileExtensions c) (ProtectHttpMethods c)
    (GoodBots c) (ExemptIPs c) (ExemptUserAgents c) v (ChallengeTmpl c)
    (ChallengeStatusCode c) (CaptchaProvider c) (SiteKey c) (SecretKey c)
    (EnableStatsPage c) (LogLevel c) (PersistentStateFile c) (Mode c).

Definition set_ProtectHttpMethods (c : Config) (v : list string) : Config :=
  mkConfig (RateLimit c) (Window c) (IPv4SubnetMask c) (IPv6SubnetMask c)
    (IPForwardedHeader c) (IPDepth c) (ProtectParameters c) (ProtectRoutes c)
    (ExcludeRoutes c) (ProtectFileExtensions c) v
    (GoodBots c) (ExemptIPs c) (ExemptUserAgents c) (ChallengeURL c)
    (ChallengeTmpl c) (ChallengeStatusCode c) (CaptchaProvider c) (SiteKey c)
    (SecretKey c) (EnableStatsPage c) (LogLevel c) (PersistentStateFile c)
    (Mode c).

Definition set_ProtectFileExtensions (c : Config) (v : list string) : Config :=
  mkConfig (RateLimit c) (Window c) (IPv4SubnetMask c) (IPv6SubnetMask c)
    (IPForwardedHeader c) (IPDepth c) (ProtectParameters c) (ProtectRoutes c)
    (ExcludeRoutes c) v (ProtectHttpMethods c)
    (GoodBots c) (ExemptIPs c) (ExemptUserAgents c) (ChallengeURL c)
    (ChallengeTmpl c) (ChallengeStatusCode c) (CaptchaProvider c) (SiteKey c)
    (SecretKey c) (EnableStatsPage c) (LogLevel c) (PersistentStateFile c)
    (Mode c).

Definition set_ChallengeStatusCode (c : Config) (v : Z) : Config :=
  mkConfig (RateLimit c) (Window c) (IPv4SubnetMask c) (IPv6SubnetMask c)
    (IPForwardedHeader c) (IPDepth c) (ProtectParameters c) (ProtectRoutes c)
    (ExcludeRoutes c) (ProtectFileExtensions c) (ProtectHttpMethods c)
    (GoodBots c) (ExemptIPs c) (ExemptUserAgents c) (ChallengeURL c)
    (ChallengeTmpl c) v (CaptchaProvider c) (SiteKey c)
    (SecretKey c) (EnableStatsPage c) (LogLevel c) (PersistentStateFile c)
    (Mode c).

Record CaptchaConfig : Type := mkCaptchaConfig {
  js : string;
  key : string;
  validate : string
}.

(** A [net.IPMask] made by [net.CIDRMask(ones, bits)]. *)
Record IPMask : Type := mkIPMask { ones : Z; bits : Z }.

(** What the request carries, as the middleware reads it: [req.Method],
    [req.URL.Path], [req.URL.Query()], the parsed form behind
    [req.FormValue] and [req.UserAgent()]. *)
Record Request : Type := mkRequest {
  Method : string;
  Path : string;
  Query : gmap string (list string);
  Form : gmap string (list string);
  UserAgent : string
}.

(** [req.FormValue(k)]: the first value of [k], or the empty string. *)
Definition FormValue (req : Request) (k : string) : string :=
  match Form req !! k with
  | Some (v :: _) => v
  | _ => ""
  end.

(** What a handler wrote to the [http.ResponseWriter]. *)
Inductive Response : Type :=
| http_Error (msg : string) (code : Z)
| http_Redirect (target : string) (code : Z).

(** The outcome of posting the form to the provider and decoding the body
    into [captchaResponse]. *)
Inductive ProviderOutcome : Type :=
| PostFailed
| DecodeFailed
| Decoded (Success : bool).

(** One call of [http.PostForm(url, body)]. *)
Record PostForm : Type := mkPostForm {
  post_url : string;
  post_body : list (string * string)
}.

(** The outcome of [os.Stat] on the challenge template. *)
Inductive StatOutcome : Type := StatFound | StatNotExist | StatFailed (msg : string).

Section Middleware.

(** Values of the external types [*net.IPNet], [*template.Template] and
    [*regexp.Regexp]. *)
Variables IPNet Template Regexp : Type.

(** The struct [CaptchaProtect] without [next], [name] and [stateMutex],
    which play no part when the calls are taken one after the other. The
    rate cache only ever receives [uint]s ([registerRequest], [loadState])
    and the other two caches booleans. *)
Record CaptchaProtect : Type := mkCaptchaProtect {
  config : Config;
  rateCache : lru.Cache Z;
  verifiedCache : lru.Cache bool;
  botCache : lru.Cache bool;
  captchaConfig : CaptchaConfig;
  exemptIps : list IPNet;
  tmpl : Template;
  ipv4Mask : option IPMask;
  ipv6Mask : option IPMask;
  protectRoutesRegex : list Regexp;
  excludeRoutesRegex : list Regexp;
  (** [nil], or the channel of capacity one: [Some true] when a signal is
      waiting in it. *)
  stateChanged : option bool;
  lastStateReload : Z
}.

Definition set_config (bc : CaptchaProtect) (v : Config) : CaptchaProtect :=
  mkCaptchaProtect v (rateCache bc) (verifiedCache bc) (botCache bc)
    (captchaConfig bc) (exemptIps bc) (tmpl bc) (ipv4Mask bc) (ipv6Mask bc)
    (protectRoutesRegex bc) (excludeRoutesRegex bc) (stateChanged bc)
    (lastStateReload bc).

Definition set_rateCache (bc : CaptchaProtect) (v : lru.Cache Z) : CaptchaProtect :=
  mkCaptchaProtect (config bc) v (verifiedCache bc) (botCache bc)
    (captchaConfig bc) (exemptIps bc) (tmpl bc) (ipv4Mask bc) (ipv6Mask bc)
    (protectRoutesRegex bc) (excludeRoutesRegex bc) (stateChanged bc)
    (lastStateReload bc).

Definition set_verifiedCache (bc : CaptchaProtect) (v : lru.Cache bool) : CaptchaProtect :=
  mkCaptchaProtect (config bc) (rateCache bc) v (botCache bc)
    (captchaConfig bc) (exemptIps bc) (tmpl bc) (ipv4Mask bc) (ipv6Mask bc)
    (protectRoutesRegex bc) (excludeRoutesRegex bc) (stateChanged bc)
    (lastStateReload bc).

Definition set_botCache (bc : CaptchaProtect) (v : lru.Cache bool) : CaptchaProtect :=
  mkCaptchaProtect (config bc) (rateCache bc) (verifiedCache bc) v
    (captchaConfig bc) (exemptIps bc) (tmpl bc) (ipv4Mask bc) (ipv6Mask bc)
    (protectRoutesRegex bc) (excludeRoutesRegex bc) (stateChanged bc)
    (lastStateReload bc).

Definition set_captchaConfig (bc : CaptchaProtect) (v : CaptchaConfig) : CaptchaProtect :=
  mkCaptchaProtect (config bc) (rateCache bc) (verifiedCache bc) (botCache bc)
    v (exemptIps bc) (tmpl bc) (ipv4Mask bc) (ipv6Mask bc)
    (protectRoutesRegex bc) (excludeRoutesRegex bc) (stateChanged bc)
    (lastStateReload bc).

Definition set_ipv4Mask (bc : CaptchaProtect) (v : IPMask) : CaptchaProtect :=
  mkCaptchaProtect (config bc) (rateCache bc) (verifiedCache bc) (botCache bc)
    (captchaConfig bc) (exemptIps bc) (tmpl bc) (Some v) (ipv6Mask bc)
    (protectRoutesRegex bc) (excludeRoutesRegex bc) (stateChanged bc)
    (lastStateReload bc).

Definition set_ipv6Mask (bc : CaptchaProtect) (v : IPMask) : CaptchaProtect :=
  mkCaptchaProtect (config bc) (rateCache bc) (verifiedCache bc) (botCache bc)
    (captchaConfig bc) (exemptIps bc) (tmpl bc) (ipv4Mask bc) (Some v)
    (protectRoutesRegex bc) (excludeRoutesRegex bc) (stateChanged bc)
    (lastStateReload bc).

Definition set_stateChanged (bc : CaptchaProtect) (v : option bool) : CaptchaProtect :=
  mkCaptchaProtect (config bc) (rateCache bc) (verifiedCache bc) (botCache bc)
    (captchaConfig bc) (exemptIps bc) (tmpl bc) (ipv4Mask bc) (ipv6Mask bc)
    (protectRoutesRegex bc) (excludeRoutesRegex bc) v
    (lastStateReload bc).

(** [notifyStateChange]: a non-blocking send on the channel, if there is
    one; a signal that is already waiting absorbs the new one. *)
Definition notifyStateChange (bc : CaptchaProtect) : CaptchaProtect :=
  match stateChanged bc with
  | None => bc
  | Some _ => set_stateChanged bc (Some true)
  end.

(** [ChallengeOnPage]. *)
Definition ChallengeOnPage (bc : CaptchaProtect) : bool :=
  String.eqb (ChallengeURL (config bc)) "?challenge=true".

(** [trippedRateLimit]: the values of the rate cache are [uint]s. *)
Definition trippedRateLimit (bc : CaptchaProtect) (ip : string) (now : Z) : bool :=
  match lru.Get (rateCache bc) ip now with
  | None => false
  | Some v => RateLimit (config bc) <? v
  end.

(** [registerRequest]. *)
Definition registerRequest (bc : CaptchaProtect) (ip : string) (now : Z)
  : CaptchaProtect :=
  match lru.Add (rateCache bc) ip 1 lru.DefaultExpiration now with
  | (c, false) => notifyStateChange (set_rateCache bc c)
  | (_, true) =>
      match lru.IncrementUint (rateCache bc) ip 1 now with
      | (_, None) => bc
      | (c, Some _) => notifyStateChange (set_rateCache bc c)
      end
  end.

(** [helper.IsIpGoodBot(clientIP, goodBots)], which resolves the address;
    the package [internal/helper] is outside the sources. *)
Variable helper_IsIpGoodBot : string -> list string -> bool.

(** [isGoodBot]: the verdict and the middleware afterwards. *)
Definition isGoodBot (bc : CaptchaProtect) (req : Request) (clientIP : string)
    (now : Z) : bool * CaptchaProtect :=
  if String.eqb (ProtectParameters (config bc)) "true"
     && (0 <? size (Query req))%nat
  then (false, bc)
  else
    match lru.Get (botCache bc) clientIP now with
    | Some bot => (bot, bc)
    | None =>
        let v := helper_IsIpGoodBot clientIP (GoodBots (config bc)) in
        (v, notifyStateChange
              (set_botCache bc
                 (lru.Set_ (botCache bc) clientIP v lru.DefaultExpiration now)))
    end.

(** The extension test shared by the three route matchers:
    [ext := strings.TrimPrefix(filepath.Ext(path), ".")], then the empty
    extension or a listed one. *)
Definition extension_protected (bc : CaptchaProtect) (path : string) : bool :=
  let ext := strings.TrimPrefix (filepath.Ext path) "." in
  if String.eqb ext "" then true
  else existsb (fun protectedExtensions => strings.EqualFold ext protectedExtensions)
         (ProtectFileExtensions (config bc)).

(** The labelled loop [protected:] of [RouteIsProtectedPrefix] over the
    routes that are still to be tried; both [continue] and
    [continue protected] go on with [rest]. *)
Fixpoint RouteIsProtectedPrefix_from (bc : CaptchaProtect) (path : string)
    (routes : list string) : bool :=
  match routes with
  | [] => false
  | route :: rest =>
      if negb (strings.HasPrefix path route)
      then RouteIsProtectedPrefix_from bc path rest
      else if existsb (fun eRoute => strings.HasPrefix path eRoute)
                (ExcludeRoutes (config bc))
      then RouteIsProtectedPrefix_from bc path rest
      else if extension_protected bc path then true
      else RouteIsProtectedPrefix_from bc path rest
  end.

(** [RouteIsProtectedPrefix]. *)
Definition RouteIsProtectedPrefix (bc : CaptchaProtect) (path : string) : bool :=
  RouteIsProtectedPrefix_from bc path (ProtectRoutes (config bc)).

(** The same labelled loop with its control flow recorded: the
    protect-routes for which the loop body is entered, in order, and the
    value returned. The body is left for the next route by [continue]
    (the route is no prefix of the path), by [continue protected] (an
    exclusion matches) or at its end (the extension is not listed), and
    [return true] ends the loop. *)
Fixpoint RouteIsProtectedPrefix_run (bc : CaptchaProtect) (path : string)
    (routes : list string) : list string * bool :=
  match routes with
  | [] => ([], false)
  | route :: rest =>
      let '(examined, result) := RouteIsProtectedPrefix_run bc path rest in
      if negb (strings.HasPrefix path route) then (route :: examined, result)
      else if existsb (fun eRoute => strings.HasPrefix path eRoute)
                (ExcludeRoutes (config bc))
      then (route :: examined, result)
      else if extension_protected bc path then ([route], true)
      else (route :: examined, result)
  end.

(** [http.PostForm] to the provider followed by the JSON decoding of the
    body. *)
Variable http_PostForm : PostForm -> ProviderOutcome.

(** What [verifyChallengePage] did: the status it returns, what it wrote,
    the middleware afterwards and the requests it sent to the provider. *)
Record Verification : Type := mkVerification {
  code : Z;
  written : Response;
  after : CaptchaProtect;
  posted : list PostForm
}.

(** [verifyChallengePage]. *)
Definition verifyChallengePage (bc : CaptchaProtect) (req : Request)
    (ip : string) (now : Z) : Verification :=
  let response := FormValue req (key (captchaConfig bc) +:+ "-response") in
  if String.eqb response "" then
    mkVerification StatusBadRequest (http_Error "Bad request" StatusBadRequest)
      bc []
  else
    let body := [("secret", SecretKey (config bc)); ("response", response)] in
    let call := mkPostForm (validate (captchaConfig bc)) body in
    match http_PostForm call with
    | PostFailed =>
        mkVerification StatusInternalServerError
          (http_Error "Internal error" StatusInternalServerError) bc [call]
    | DecodeFailed =>
        mkVerification StatusInternalServerError
          (http_Error "Internal error" StatusInternalServerError) bc [call]
    | Decoded true =>
        let bc1 :=
          notifyStateChange
            (set_verifiedCache bc
               (lru.Set_ (verifiedCache bc) ip true lru.DefaultExpiration now)) in
        let destination := FormValue req "destination" in
        let destination :=
          if String.eqb destination "" then "%2F" else destination in
        let u :=
          match url.QueryUnescape destination with
          | Some u => u
          | None => "/"
          end in
        mkVerification StatusFound (http_Redirect u StatusFound) bc1 [call]
    | Decoded false =>
        mkVerification StatusForbidden
          (http_Error "Validation failed" StatusForbidden) bc [call]
    end.

(** A [for k, v := range m] loop that updates [acc]; Go visits the
    entries in an unspecified order, here the order of [map_to_list]. *)
Definition range {V A} (m : gmap string V) (body : A -> string * V -> A)
    (acc : A) : A :=
  foldl body acc (map_to_list m).

(** The body of the loop over [fileState.Rate]. *)
Definition reconcileRate (rate : gmap string Z) (e : string * Z)
  : gmap string Z :=
  let '(ip, fileRate) := e in
  match rate !! ip with
  | Some memoryRate =>
      if memoryRate <? fileRate then <[ip := fileRate]> rate else rate
  | None => <[ip := fileRate]> rate
  end.

(** The body of the loops over [fileState.Bots] and [fileState.Verified]. *)
Definition reconcileFlag (flags : gmap string bool) (e : string * bool)
  : gmap string bool :=
  let '(ip, flag) := e in
  match flags !! ip with
  | Some _ => flags
  | None => <[ip := flag]> flags
  end.

(** [reconcileStates]: nil maps of the memory state are replaced by empty
    ones, then the file state is merged in. *)
Definition reconcileStates (fileState memoryState : state.State) : state.State :=
  let rate := state.entries (state.Rate memoryState) in
  let bots := state.entries (state.Bots memoryState) in
  let verified := state.entries (state.Verified memoryState) in
  let memory := state.entries (state.Memory memoryState) in
  state.mkState
    (Some (range (state.entries (state.Rate fileState)) reconcileRate rate))
    (Some (range (state.entries (state.Bots fileState)) reconcileFlag bots))
    (Some (range (state.entries (state.Verified fileState)) reconcileFlag verified))
    (Some memory).

(** [SetIpv4Mask] and [SetIpv6Mask]. *)
Definition SetIpv4Mask (bc : CaptchaProtect) (m : Z) : result CaptchaProtect :=
  if (m <? 8) || (32 <? m)
  then Err ("invalid ipv4 mask: " +:+ pretty m +:+ ". Must be between 8 and 32")
  else Ok (set_ipv4Mask bc (mkIPMask m 32)).

Definition SetIpv6Mask (bc : CaptchaProtect) (m : Z) : result CaptchaProtect :=
  if (m <? 8) || (128 <? m)
  then Err ("invalid ipv6 mask: " +:+ pretty m +:+ ". Must be between 8 and 128")
  else Ok (set_ipv6Mask bc (mkIPMask m 128)).

(** [loadState]. The argument [loaded] is what taking the file lock,
    reading the state file and unmarshalling it gave: [None] for each of
    the early returns. *)
Definition loadState (bc : CaptchaProtect) (loaded : option state.State)
    (now : Z) : CaptchaProtect :=
  match loaded with
  | None => bc
  | Some st =>
      let bc1 :=
        set_rateCache bc
          (range (state.entries (state.Rate st))
             (fun c e => lru.Set_ c (fst e) (snd e) lru.DefaultExpiration now)
             (rateCache bc)) in
      let bc2 :=
        set_botCache bc1
          (range (state.entries (state.Bots st))
             (fun c e => lru.Set_ c (fst e) (snd e) lru.DefaultExpiration now)
             (botCache bc1)) in
      set_verifiedCache bc2
        (range (state.entries (state.Verified st))
           (fun c e => lru.Set_ c (fst e) (snd e) lru.DefaultExpiration now)
           (verifiedCache bc2))
  end.

(** The collaborators of the constructor: [regexp.Compile], [os.Stat] on
    the template path, [helper.GetDefaultTmpl], the two template parsers
    and [helper.ParseCIDR]. *)
Variable regexp_Compile : string -> option Regexp.
Variable os_Stat : string -> StatOutcome.
Variable helper_GetDefaultTmpl : string.
Variable template_Parse : string -> result Template.
Variable template_ParseFiles : string -> result Template.
Variable helper_ParseCIDR : string -> result IPNet.

(** A loop that converts every element and returns at the first error. *)
Fixpoint convert_all {A B} (f : A -> result B) (l : list A) : result (list B) :=
  match l with
  | [] => Ok []
  | a :: rest =>
      match f a with
      | Err msg => Err msg
      | Ok b =>
          match convert_all f rest with
          | Err msg => Err msg
          | Ok bs => Ok (b :: bs)
          end
      end
  end.

Definition compile_route (field : string) (r : string) : result Regexp :=
  match regexp_Compile r with
  | Some cr => Ok cr
  | None => Err ("invalid regex in " +:+ field +:+ ": " +:+ r)
  end.

Definition parse_exempt (ip : string) : result IPNet :=
  match helper_ParseCIDR ip with
  | Ok parsedIp => Ok parsedIp
  | Err msg => Err ("error parsing cidr " +:+ ip +:+ ": " +:+ msg)
  end.

(** The ranges that are always exempt. *)
Definition builtinExemptIps : list string :=
  ["127.0.0.0/8"; "10.0.0.0/8"; "172.16.0.0/12"; "192.168.0.0/16"; "fc00::/8"].

(** The [switch config.CaptchaProvider]. *)
Definition providerConfig (provider : string) : result CaptchaConfig :=
  if String.eqb provider "hcaptcha" then
    Ok (mkCaptchaConfig "https://hcaptcha.com/1/api.js" "h-captcha"
          "https://api.hcaptcha.com/siteverify")
  else if String.eqb provider "recaptcha" then
    Ok (mkCaptchaConfig "https://www.google.com/recaptcha/api.js" "g-recaptcha"
          "https://www.google.com/recaptcha/api/siteverify")
  else if String.eqb provider "turnstile" then
    Ok (mkCaptchaConfig "https://challenges.cloudflare.com/turnstile/v0/api.js"
          "cf-turnstile"
          "https://challenges.cloudflare.com/turnstile/v0/siteverify")
  else Err ("invalid captcha provider: " +:+ provider).

(** The template chosen by the constructor. *)
Definition loadTemplate (config : Config) : result Template :=
  match os_Stat (ChallengeTmpl config) with
  | StatNotExist =>
      match template_Parse helper_GetDefaultTmpl with
      | Err msg => Err ("unable to parse challenge template: " +:+ msg)
      | Ok t => Ok t
      end
  | StatFailed msg =>
      Err ("error checking for template file " +:+ ChallengeTmpl config
           +:+ ": " +:+ msg)
  | StatFound =>
      match template_ParseFiles (ChallengeTmpl config) with
      | Err msg =>
          Err ("unable to parse challenge template file "
               +:+ ChallengeTmpl config +:+ ": " +:+ msg)
      | Ok t => Ok t
      end
  end.

(** The compilation of the route lists, and the check of the mode. *)
Definition compileRoutes (config : Config)
  : result (list Regexp * list Regexp) :=
  if String.eqb (Mode config) "regex" then
    match convert_all (compile_route "protectRoutes") (ProtectRoutes config) with
    | Err msg => Err msg
    | Ok protectRoutesRegex =>
        match convert_all (compile_route "excludeRoutes") (ExcludeRoutes config) with
        | Err msg => Err msg
        | Ok excludeRoutesRegex => Ok (protectRoutesRegex, excludeRoutesRegex)
        end
    end
  else if negb (String.eqb (Mode config) "prefix")
          && negb (String.eqb (Mode config) "suffix")
  then Err ("unknown mode: " +:+ Mode config
            +:+ ". Supported values are prefix, suffix, and regex")
  else Ok ([], []).

(** [NewCaptchaProtect(ctx, next, config, name)]: the middleware, or the
    error with which construction is refused. [now] is the instant at
    which a configured state file is loaded and [loaded] what it held. *)
Definition NewCaptchaProtect (config : Config) (loaded : option state.State)
    (now : Z) : result CaptchaProtect :=
  let expiration := int64_wrap (Window config * Second) in
  if (length (ProtectRoutes config) =? 0)%nat
     && negb (String.eqb (Mode config) "suffix")
  then Err "you must protect at least one route with the protectRoutes config value. / will cover your entire site"
  else
  match compileRoutes config with
  | Err msg => Err msg
  | Ok (protectRoutesRegex, excludeRoutesRegex) =>
  let config := set_ExemptUserAgents config
                  (map strings.ToLower (ExemptUserAgents config)) in
  if String.eqb (ChallengeURL config) "/"
  then Err "your challenge URL can not be the entire site. Default is `/challenge`. A blank value will have challenges presented on the visit that trips the rate limit"
  else
  let config :=
    if String.eqb (ChallengeURL config) ""
    then set_ChallengeURL config "?challenge=true" else config in
  let config :=
    if (length (ProtectHttpMethods config) =? 0)%nat
    then set_ProtectHttpMethods config ["GET"; "HEAD"] else config in
  match loadTemplate config with
  | Err msg => Err msg
  | Ok tmpl =>
  let config :=
    if existsb (String.eqb "html") (ProtectFileExtensions config) then config
    else set_ProtectFileExtensions config
           (ProtectFileExtensions config ++ ["html"]) in
  match convert_all parse_exempt (builtinExemptIps ++ ExemptIPs config) with
  | Err msg => Err msg
  | Ok ips =>
  let bc :=
    mkCaptchaProtect config (lru.New expiration) (lru.New expiration)
      (lru.New expiration) (mkCaptchaConfig "" "" "") ips tmpl None None
      protectRoutesRegex excludeRoutesRegex None 0 in
  let bc :=
    if ChallengeStatusCode config =? 0 then
      if ChallengeOnPage bc
      then set_config bc (set_ChallengeStatusCode config StatusTooManyRequests)
      else set_config bc (set_ChallengeStatusCode config StatusOK)
    else bc in
  match SetIpv4Mask bc (IPv4SubnetMask config) with
  | Err msg => Err msg
  | Ok bc =>
  match SetIpv6Mask bc (IPv6SubnetMask config) with
  | Err msg => Err msg
  | Ok bc =>
  match providerConfig (CaptchaProvider config) with
  | Err msg => Err msg
  | Ok cc =>
  let bc := set_captchaConfig bc cc in
  if negb (String.eqb (PersistentStateFile config) "")
  then Ok (loadState (set_stateChanged bc (Some false)) loaded now)
  else Ok bc
  end end end end end end.

End Middleware.

Arguments mkCaptchaProtect {IPNet Template Regexp}.
Arguments config {IPNet Template Regexp} _.
Arguments rateCache {IPNet Template Regexp} _.
Arguments verifiedCache {IPNet Template Regexp} _.
Arguments botCache {IPNet Template Regexp} _.
Arguments captchaConfig {IPNet Template Regexp} _.
Arguments stateChanged {IPNet Template Regexp} _.
Arguments set_rateCache {IPNet Template Regexp} _ _.
Arguments set_verifiedCache {IPNet Template Regexp} _ _.
Arguments set_botCache {IPNet Template Regexp} _ _.
Arguments set_stateChanged {IPNet Template Regexp} _ _.
Arguments notifyStateChange {IPNet Template Regexp} _.
Arguments ChallengeOnPage {IPNet Template Regexp} _.
Arguments trippedRateLimit {IPNet Template Regexp} _ _ _.
Arguments registerRequest {IPNet Template Regexp} _ _ _.
Arguments isGoodBot {IPNet Template Regexp} _ _ _ _ _.
Arguments extension_protected {IPNet Template Regexp} _ _.
Arguments RouteIsProtectedPrefix_from {IPNet Template Regexp} _ _ _.
Arguments RouteIsProtectedPrefix {IPNet Template Regexp} _ _.
Arguments RouteIsProtectedPrefix_run {IPNet Template Regexp} _ _ _.
Arguments mkVerification {IPNet Template Regexp}.
Arguments code {IPNet Template Regexp} _.
Arguments written {IPNet Template Regexp} _.
Arguments after {IPNet Template Regexp} _.
Arguments posted {IPNet Template Regexp} _.
Arguments verifyChallengePage {IPNet Template Regexp} _ _ _ _ _.
Arguments SetIpv4Mask {IPNet Template Regexp} _ _.
Arguments SetIpv6Mask {IPNet Template Regexp} _ _.
Arguments loadState {IPNet Template Regexp} _ _ _.
Arguments NewCaptchaProtect {IPNet Template Regexp} _ _ _ _ _ _ _ _ _.

(** [n] calls of [registerRequest(ip)] one after the other, the call
    number [i] (from [0]) at the instant [at_ i]. *)
Definition registerRequests {IPNet Template Regexp}
    (bc : CaptchaProtect IPNet Template Regexp) (ip : string) (at_ : N -> Z)
    (n : N) : CaptchaProtect IPNet Template Regexp :=
  N.peano_rect (fun _ => CaptchaProtect IPNet Template Regexp) bc
    (fun i acc => registerRequest acc ip (at_ i)) n.

(** The instant [t] is within the window that a first request at [t0]
    opens in the cache [c]: the entry written at [t0] with the default
    expiration has not expired at [t]. *)
Definition within_window {V} (c : lru.Cache V) (t0 t : Z) : Prop :=
  lru.defaultExpiration c <= 0 \/ t <= t0 + lru.defaultExpiration c.

(** The redirect target as the specification words it: the destination
    form value, URL-unescaped; ["/"] when it is empty or cannot be
    unescaped. *)
Definition redirect_target (destination : string) : string :=
  if String.eqb destination "" then "/"
  else match url.QueryUnescape destination with
       | Some u => u
       | None => "/"
       end.

(** Two maps agree when they hold the same value at every key that both
    contain. *)
Definition agree {V} (m1 m2 : gmap string V) : Prop :=
  forall k v1 v2, m1 !! k = Some v1 -> m2 !! k = Some v2 -> v1 = v2.

(** Every counter of a rate cache is a [uint]. *)
Definition uint_valued (c : lru.Cache Z) : Prop :=
  forall k it, lru.items c !! k = Some it -> is_uint (lru.Object it).

(** The expiration that [Add] or [Set] with the default expiration gives
    an entry written at [t0]. *)
Definition first_expiration {V} (c : lru.Cache V) (t0 : Z) : Z :=
  if 0 <? lru.defaultExpiration c then t0 + lru.defaultExpiration c else 0.

Arguments exemptIps {IPNet Template Regexp} _.
Arguments tmpl {IPNet Template Regexp} _.
Arguments ipv4Mask {IPNet Template Regexp} _.
Arguments ipv6Mask {IPNet Template Regexp} _.
Arguments protectRoutesRegex {IPNet Template Regexp} _.
Arguments excludeRoutesRegex {IPNet Template Regexp} _.
Arguments lastStateReload {IPNet Template Regexp} _.

(** What [ServeHTTP] and [getClientIP] read from the request beyond
    [Request]: [req.Header.Get(config.IPForwardedHeader)],
    [req.RemoteAddr] and [req.RequestURI]. *)
Record Transport : Type := mkTransport {
  Forwarded : string;
  RemoteAddr : string;
  RequestURI : string
}.

(** [req.URL.Query().Get(k)]: the first value of [k], or the empty
    string. *)
Definition QueryGet (req : Request) (k : string) : string :=
  match Query req !! k with
  | Some (v :: _) => v
  | _ => ""
  end.

(** What [ServeHTTP] did with a request: handed it to the next handler,
    wrote an error or a redirect, wrote the challenge page (its status, the
    destination put in the template, and whether the template executed), or
    wrote the statistics. *)
Inductive Served : Type :=
| Next
| Wrote (r : Response)
| ChallengePage (status : Z) (destination : string) (executed : bool)
| StatsPage (jsonData : string).

(** The state files: the world, and the bytes of the regular files (a
    file without an entry is empty). *)
Record Disk : Type := mkDisk {
  os : filelock.World;
  contents : gmap string string
}.

Section Requests.

Context {IPNet Template Regexp : Type}.
Implicit Types bc : CaptchaProtect IPNet Template Regexp.

Definition set_lastStateReload bc (v : Z) : CaptchaProtect IPNet Template Regexp :=
  mkCaptchaProtect (config bc) (rateCache bc) (verifiedCache bc) (botCache bc)
    (captchaConfig bc) (exemptIps bc) (tmpl bc) (ipv4Mask bc) (ipv6Mask bc)
    (protectRoutesRegex bc) (excludeRoutesRegex bc) (stateChanged bc) v.

(** [isGoodUserAgent]. *)
Definition isGoodUserAgent bc (ua : string) : bool :=
  let ua := strings.ToLower ua in
  existsb (fun agentPrefix => strings.HasPrefix ua agentPrefix)
    (ExemptUserAgents (config bc)).

(** The labelled loop of [RouteIsProtectedSuffix] over the routes that are
    still to be tried. *)
Fixpoint RouteIsProtectedSuffix_from bc (path : string) (routes : list string)
  : bool :=
  match routes with
  | [] => false
  | route :: rest =>
      let ext := filepath.Ext path in
      let cleanPath :=
        if negb (String.eqb ext "") then strings.TrimSuffix path ext
        else path in
      if negb (strings.HasSuffix cleanPath route)
      then RouteIsProtectedSuffix_from bc path rest
      else if existsb (fun eRoute => strings.HasPrefix cleanPath eRoute)
                (ExcludeRoutes (config bc))
      then RouteIsProtectedSuffix_from bc path rest
      else if extension_protected bc path then true
      else RouteIsProtectedSuffix_from bc path rest
  end.

(** [RouteIsProtectedSuffix]. *)
Definition RouteIsProtectedSuffix bc (path : string) : bool :=
  RouteIsProtectedSuffix_from bc path (ProtectRoutes (config bc)).

(** The method [MatchString] of a compiled [regexp.Regexp]. *)
Variable regexp_MatchString : Regexp -> string -> bool.

(** The labelled loop of [RouteIsProtectedRegex]. *)
Fixpoint RouteIsProtectedRegex_from bc (path : string) (routes : list Regexp)
  : bool :=
  match routes with
  | [] => false
  | routeRegex :: rest =>
      if negb (regexp_MatchString routeRegex path)
      then RouteIsProtectedRegex_from bc path rest
      else if existsb (fun excludeRegex => regexp_MatchString excludeRegex path)
                (excludeRoutesRegex bc)
      then RouteIsProtectedRegex_from bc path rest
      else if extension_protected bc path then true
      else RouteIsProtectedRegex_from bc path rest
  end.

(** [RouteIsProtectedRegex]. *)
Definition RouteIsProtectedRegex bc (path : string) : bool :=
  RouteIsProtectedRegex_from bc path (protectRoutesRegex bc).

(** [helper.IsIpExcluded(ip, exemptIps)] and [helper.IsIpGoodBot]; the
    package [internal/helper] is outside the sources. *)
Variable helper_IsIpExcluded : string -> list IPNet -> bool.
Variable helper_IsIpGoodBot : string -> list string -> bool.

(** [shouldApply]: the verdict and the middleware afterwards. *)
Definition shouldApply bc (req : Request) (clientIP : string) (now : Z)
  : bool * CaptchaProtect IPNet Template Regexp :=
  if negb (existsb (String.eqb (Method req)) (ProtectHttpMethods (config bc)))
  then (false, bc)
  else
    match lru.Get (verifiedCache bc) clientIP now with
    | Some _ => (false, bc)
    | None =>
        if helper_IsIpExcluded clientIP (exemptIps bc) then (false, bc)
        else
          let '(bot, bc1) := isGoodBot helper_IsIpGoodBot bc req clientIP now in
          if bot then (false, bc1)
          else if isGoodUserAgent bc1 (UserAgent req) then (false, bc1)
          else if String.eqb (Mode (config bc1)) "regex"
          then (RouteIsProtectedRegex bc1 (Path req), bc1)
          else if String.eqb (Mode (config bc1)) "suffix"
          then (RouteIsProtectedSuffix bc1 (Path req), bc1)
          else (RouteIsProtectedPrefix bc1 (Path req), bc1)
    end.

(** The package [net]: parsed addresses with [net.ParseIP], [To4], [To16],
    [Mask] and [String], and the host of [net.SplitHostPort] (empty when
    the address cannot be split). *)
Variable IP : Type.
Variable net_ParseIP : string -> option IP.
Variable IP_To4 : IP -> bool.
Variable IP_To16 : IP -> bool.
Variable IP_Mask : IP -> option IPMask -> IP.
Variable IP_String : IP -> string.
Variable net_SplitHostPort : string -> string.

(** [ParseIp]. *)
Definition ParseIp bc (ip : string) : string * string :=
  match net_ParseIP ip with
  | None => (ip, ip)
  | Some parsedIP =>
      if IP_To4 parsedIP
      then (ip, IP_String (IP_Mask parsedIP (ipv4Mask bc)))
      else if IP_To16 parsedIP
      then (ip, IP_String (IP_Mask parsedIP (ipv6Mask bc)))
      else (ip, ip)
  end.

(** The loop of [getClientIP] over the components of the header, from the
    last one ([components] is the list in reverse): exempt addresses are
    skipped, and of the others the one at [depth] is taken; the empty
    string when the loop ends without a choice. *)
Fixpoint forwardedFor bc (components : list string) (depth : Z) : string :=
  match components with
  | [] => ""
  | component :: rest =>
      let _ip := strings.TrimSpace component in
      if helper_IsIpExcluded _ip (exemptIps bc) then forwardedFor bc rest depth
      else if depth =? 0 then _ip
      else forwardedFor bc rest (depth - 1)
  end.

(** [getClientIP]: the address of the client and its subnet. *)
Definition getClientIP bc (tr : Transport) : string * string :=
  let ip := Forwarded tr in
  let ip :=
    if negb (String.eqb (IPForwardedHeader (config bc)) "")
       && negb (String.eqb ip "")
    then
      let components := strings.Split ip "," in
      let ip := forwardedFor bc (rev components) (IPDepth (config bc)) in
      if String.eqb ip "" then RemoteAddr tr else ip
    else RemoteAddr tr in
  let ip :=
    if strings.ContainsByte ip ":" then net_SplitHostPort ip else ip in
  ParseIp bc ip.

(** The method [Execute] of the template on the variables of the
    challenge page: whether it succeeded. *)
Variable template_Execute : Template -> list (string * string) -> bool.

(** [serveChallengePage]. *)
Definition serveChallengePage bc (destination : string) : Served :=
  let d :=
    [("SiteKey", SiteKey (config bc));
     ("FrontendJS", js (captchaConfig bc));
     ("FrontendKey", key (captchaConfig bc));
     ("ChallengeURL", ChallengeURL (config bc));
     ("Destination", destination)] in
  ChallengePage (ChallengeStatusCode (config bc)) destination
    (template_Execute (tmpl bc) d).

(** [state.GetState] of the package [internal/state], which is outside the
    sources, [json.Marshal] of a snapshot and [json.Unmarshal] into a
    snapshot ([None] is an error). *)
Variable state_GetState :
  gmap string (lru.Item Z) -> gmap string (lru.Item bool) ->
  gmap string (lru.Item bool) -> state.State.
Variable json_Marshal : state.State -> option string.
Variable json_Unmarshal : string -> option state.State.

(** [serveStatsPage]. *)
Definition serveStatsPage bc (ip : string) (now : Z) : Served :=
  if negb (helper_IsIpExcluded ip (exemptIps bc))
  then Wrote (http_Error "Forbidden" StatusForbidden)
  else
    let st :=
      state_GetState (lru.Items (rateCache bc) now) (lru.Items (botCache bc) now)
        (lru.Items (verifiedCache bc) now) in
    match json_Marshal st with
    | None => Wrote (http_Error "Internal Server Error" StatusInternalServerError)
    | Some jsonData => StatsPage jsonData
    end.

(** Opening, reading and unmarshalling the state file: [None] for each
    of the failures ([os.OpenFile] finds no file, [os.ReadFile] gives no
    byte, [json.Unmarshal] returns an error). *)
Definition readSnapshot (path : string) (d : Disk) : option state.State :=
  match filelock.files (os d) !! path with
  | None => None
  | Some _ =>
      let fileContent := default "" (contents d !! path) in
      if (String.length fileContent =? 0)%nat then None
      else json_Unmarshal fileContent
  end.

(** [readStateFromFile]: the snapshot (the zero [state.State] on any
    failure) and the disk afterwards; the deferred [Unlock] runs on every
    return after the lock was taken. *)
Definition readStateFromFile bc (d : Disk) : state.State * Disk :=
  let lock := filelock.New (PersistentStateFile (config bc)) in
  match filelock.Lock lock (os d) with
  | (Some _, _, w1) => (state.mkState None None None None, mkDisk w1 (contents d))
  | (None, lock1, w1) =>
      let fileState :=
        match readSnapshot (PersistentStateFile (config bc)) (mkDisk w1 (contents d)) with
        | Some fileState => fileState
        | None => state.mkState None None None None
        end in
      let '(_, _, w2) := filelock.Unlock lock1 w1 in
      (fileState, mkDisk w2 (contents d))
  end.

(** [writeStateToFile]: the error, if any, and the disk afterwards.
    Opening with [O_CREATE|O_WRONLY|O_TRUNC] needs a writable place and
    empties the file; the snapshot is then marshalled and the bytes are
    written (a failure of [file.Write] is not modelled). *)
Definition writeStateToFile bc (st : state.State) (d : Disk)
  : option string * Disk :=
  let path := PersistentStateFile (config bc) in
  let lock := filelock.New path in
  match filelock.Lock lock (os d) with
  | (Some err, _, w1) =>
      (Some ("unable to acquire file lock: " +:+ err), mkDisk w1 (contents d))
  | (None, lock1, w1) =>
      if negb (filelock.writable w1 path) then
        let '(_, _, w2) := filelock.Unlock lock1 w1 in
        (Some "unable to open state file: permission denied",
         mkDisk w2 (contents d))
      else
        let w1' :=
          filelock.with_files w1
            (<[path := filelock.clock w1]> (filelock.files w1)) in
        match json_Marshal st with
        | None =>
            let '(_, _, w2) := filelock.Unlock lock1 w1' in
            (Some "failed marshalling state data",
             mkDisk w2 (<[path := ""]> (contents d)))
        | Some jsonData =>
            let '(_, _, w2) := filelock.Unlock lock1 w1' in
            (None, mkDisk w2 (<[path := jsonData]> (contents d)))
        end
  end.

(** The snapshot of the three caches that [saveStateWithLock],
    [reloadStateFromFile] and the statistics take. *)
Definition memorySnapshot bc (now : Z) : state.State :=
  state_GetState (lru.Items (rateCache bc) now) (lru.Items (botCache bc) now)
    (lru.Items (verifiedCache bc) now).

(** [saveStateWithLock]. *)
Definition saveStateWithLock bc (d : Disk) : Disk :=
  let '(currentState, d1) := readStateFromFile bc d in
  let newState := memorySnapshot bc (filelock.clock (os d1)) in
  let reconciledState := reconcileStates currentState newState in
  snd (writeStateToFile bc reconciledState d1).

(** [len(m)] of a Go map that may be nil. *)
Definition len {V} (m : option (gmap string V)) : nat := size (state.entries m).

(** [reloadStateFromFile]. *)
Definition reloadStateFromFile bc (d : Disk)
  : CaptchaProtect IPNet Template Regexp * Disk :=
  let '(fileState, d1) := readStateFromFile bc d in
  if ((len (state.Rate fileState) =? 0) && (len (state.Bots fileState) =? 0)
      && (len (state.Verified fileState) =? 0))%nat
  then (bc, d1)
  else
    let now := filelock.clock (os d1) in
    let memoryState := memorySnapshot bc now in
    let reconciledState := reconcileStates fileState memoryState in
    (loadState
       (set_verifiedCache
          (set_botCache (set_rateCache bc (lru.Flush (rateCache bc)))
             (lru.Flush (botCache bc)))
          (lru.Flush (verifiedCache bc)))
       (Some reconciledState) now, d1).

(** [reloadStateIfNeeded]: at most one reload in five seconds. *)
Definition reloadStateIfNeeded bc (d : Disk)
  : CaptchaProtect IPNet Template Regexp * Disk :=
  let now := filelock.clock (os d) in
  if now - lastStateReload bc <? 5 * Second then (bc, d)
  else reloadStateFromFile (set_lastStateReload bc now) d.

(** [http.PostForm] to the provider followed by the decoding of the body,
    as in [verifyChallengePage]. *)
Variable http_PostForm : PostForm -> ProviderOutcome.

(** The call of [verifyChallengePage] from [ServeHTTP]: what it wrote and
    the middleware afterwards. *)
Definition verification bc (req : Request) (clientIP : string) (now : Z)
  : Served * CaptchaProtect IPNet Template Regexp :=
  let v := verifyChallengePage http_PostForm bc req clientIP now in
  (Wrote (written v), after v).

(** The end of [ServeHTTP], from [shouldApply] on: the request is handed
    to the next handler unless it is subject to protection and trips the
    limit of its subnet; the target of the redirect is the argument given
    to [http.Redirect]. *)
Definition protect bc (req : Request) (tr : Transport)
    (clientIP ipRange : string) (now : Z)
  : Served * CaptchaProtect IPNet Template Regexp :=
  let '(applies, bc1) := shouldApply bc req clientIP now in
  if negb applies then (Next, bc1)
  else
    let bc2 := registerRequest bc1 ipRange now in
    if negb (trippedRateLimit bc2 ipRange now) then (Next, bc2)
    else
      let encodedURI := url.QueryEscape (RequestURI tr) in
      if ChallengeOnPage bc2 then (serveChallengePage bc2 encodedURI, bc2)
      else
        (Wrote (http_Redirect
                  (ChallengeURL (config bc2) +:+ "?destination=" +:+ encodedURI)
                  StatusFound), bc2).

(** [ServeHTTP] after the reload of the state, at the instant [now]. *)
Definition serve bc (req : Request) (tr : Transport) (now : Z)
  : Served * CaptchaProtect IPNet Template Regexp :=
  let '(clientIP, ipRange) := getClientIP bc tr in
  if ChallengeOnPage bc && String.eqb (Method req) "POST" then
    if negb (String.eqb (QueryGet req "challenge") "")
    then verification bc req clientIP now
    else protect bc req tr clientIP ipRange now
  else if String.eqb (Path req) (ChallengeURL (config bc)) then
    if String.eqb (Method req) "GET"
    then (serveChallengePage bc (QueryGet req "destination"), bc)
    else if String.eqb (Method req) "POST"
    then verification bc req clientIP now
    else (Wrote (http_Error "Method not allowed" StatusMethodNotAllowed), bc)
  else if String.eqb (Path req) "/captcha-protect/stats"
          && String.eqb (EnableStatsPage (config bc)) "true"
  then (serveStatsPage bc clientIP now, bc)
  else protect bc req tr clientIP ipRange now.

(** [ServeHTTP]: what was served, the middleware and the disk
    afterwards. *)
Definition ServeHTTP bc (req : Request) (tr : Transport) (d : Disk)
  : Served * CaptchaProtect IPNet Template Regexp * Disk :=
  let '(bc1, d1) :=
    if negb (String.eqb (PersistentStateFile (config bc)) "")
    then reloadStateIfNeeded bc d else (bc, d) in
  let '(served, bc2) := serve bc1 req tr (filelock.clock (os d1)) in
  (served, bc2, d1).

End Requests.

End captcha_protect.

(** ** Concrete configurations and worlds used to exercise the model *)

Module scenario.

Import Go captcha_protect.

(** An environment for the constructor: patterns, templates and parsed
    networks are kept as their text; the template file is absent, so the
    default template is used; the five built-in ranges parse. *)
Definition regexp_Compile (r : string) : option string := Some r.
Definition os_Stat (path : string) : StatOutcome := StatNotExist.
Definition helper_GetDefaultTmpl : string := "<html>{{ .SiteKey }}</html>".
Definition template_Parse (ts : string) : result string := Ok ts.
Definition template_ParseFiles (path : string) : result string := Ok path.
Definition helper_ParseCIDR (ip : string) : result string :=
  if existsb (String.eqb ip) builtinExemptIps then Ok ip
  else Err ("invalid CIDR address: " +:+ ip).

(** The constructor in this environment, with no state file. *)
Definition construct (config : Config) : result (CaptchaProtect string string string) :=
  NewCaptchaProtect regexp_Compile os_Stat helper_GetDefaultTmpl template_Parse
    template_ParseFiles helper_ParseCIDR config None 0.

(** The default configuration with some fields replaced. *)
Definition configure (rateLimit : Z) (mode : string)
    (protectRoutes excludeRoutes protectFileExtensions : list string)
    (protectParameters : string) : Config :=
  mkConfig rateLimit (Window CreateConfig) (IPv4SubnetMask CreateConfig)
    (IPv6SubnetMask CreateConfig) (IPForwardedHeader CreateConfig)
    (IPDepth CreateConfig) protectParameters protectRoutes excludeRoutes
    protectFileExtensions (ProtectHttpMethods CreateConfig)
    (GoodBots CreateConfig) (ExemptIPs CreateConfig)
    (ExemptUserAgents CreateConfig) (ChallengeURL CreateConfig)
    (ChallengeTmpl CreateConfig) (ChallengeStatusCode CreateConfig)
    (CaptchaProvider CreateConfig) (SiteKey CreateConfig)
    (SecretKey CreateConfig) (EnableStatsPage CreateConfig)
    (LogLevel CreateConfig) (PersistentStateFile CreateConfig) mode.

(** A site protected in prefix mode with the default limit of 20. *)
Definition site : Config := configure 20 "prefix" ["/"] [] [] "false".

(** The same site with the largest limit a [uint] can hold. *)
Definition unlimited : Config := configure MaxUint "prefix" ["/"] [] [] "false".

(** The shop of the route-matching scenario. *)
Definition shop : Config :=
  configure 20 "prefix" ["/shop"] ["/shop/api"] ["html"] "false".

(** Suffix mode without any protected route. *)
Definition suffix_only : Config := configure 20 "suffix" [] [] [] "false".

(** The site with [protectParameters] switched on. *)
Definition guarded : Config := configure 20 "prefix" ["/"] [] [] "true".

(** The middlewares that the constructor returns for these sites. *)
Definition site_bc : CaptchaProtect string string string :=
  ltac:(let r := eval vm_compute in (construct site) in
        match r with Ok ?bc => exact bc end).

Definition unlimited_bc : CaptchaProtect string string string :=
  ltac:(let r := eval vm_compute in (construct unlimited) in
        match r with Ok ?bc => exact bc end).

Definition shop_bc : CaptchaProtect string string string :=
  ltac:(let r := eval vm_compute in (construct shop) in
        match r with Ok ?bc => exact bc end).

Definition guarded_bc : CaptchaProtect string string string :=
  ltac:(let r := eval vm_compute in (construct guarded) in
        match r with Ok ?bc => exact bc end).

(** The guarded site after the subnet [66.249.0.0] was memoized as a good
    bot at the instant [0]. *)
Definition guarded_with_bot : CaptchaProtect string string string :=
  set_botCache guarded_bc
    (lru.Set_ (botCache guarded_bc) "66.249.0.0" true lru.DefaultExpiration 0).

(** A request for [/search?page=2]. *)
Definition search_request : Request :=
  mkRequest "GET" "/search" {["page" := ["2"]]} ∅ "Googlebot/2.1".

(** The POST of a solved challenge, with the token and the destination in
    the form. *)
Definition challenge_post (token destination : string) : Request :=
  mkRequest "POST" "/challenge" ∅
    {["cf-turnstile-response" := [token]; "destination" := [destination]]}
    "Mozilla/5.0".

(** Providers that accept, and reject, every token. *)
Definition provider_accepts (call : PostForm) : ProviderOutcome := Decoded true.
Definition provider_rejects (call : PostForm) : ProviderOutcome := Decoded false.

(** A bot resolver that recognises every address. *)
Definition every_bot (clientIP : string) (goodBots : list string) : bool := true.

(** Snapshots that hold one rate counter, or one bot verdict. *)
Definition rate_only (rate : gmap string Z) : state.State :=
  state.mkState (Some rate) None None None.

Definition bots_only (bots : gmap string bool) : state.State :=
  state.mkState None (Some bots) None None.

Definition disk_3 : state.State := rate_only {["ip" := 3]}.
Definition disk_7 : state.State := rate_only {["ip" := 7]}.
Definition memory_5 : state.State := rate_only {["ip" := 5]}.
Definition bot_yes : state.State := bots_only {["ip" := true]}.
Definition bot_no : state.State := bots_only {["ip" := false]}.
Definition bot_other : state.State := bots_only {["other" := false]}.

(** A world at the instant [now] with the files [fs], in which every
    directory can be created and written. *)
Definition permissive (now : Z) (fs : gmap string Z) : filelock.World :=
  filelock.mkWorld now fs (fun _ => true) (fun _ => true).

(** The same world after the directories have become read-only. *)
Definition read_only (w : filelock.World) : filelock.World :=
  filelock.mkWorld (filelock.clock w) (filelock.files w) (filelock.mkdir_ok w)
    (fun _ => false).

(** The lock of the state file [state.json]. *)
Definition state_lock : filelock.FileLock := filelock.New "state.json".

(** A marker left 270.15 seconds ago: it turns five minutes old between
    the attempts number 299 and 300 of an acquirer that starts now. *)
Definition aging_marker : filelock.World :=
  permissive (1000 * Second)
    {["state.json.lock" := 1000 * Second - 270150 * Millisecond]}.

(** A marker left ten minutes ago, and one left a minute ago. *)
Definition stale_marker : filelock.World :=
  permissive (1000 * Second) {["state.json.lock" := 1000 * Second - 10 * Minute]}.

Definition fresh_marker : filelock.World :=
  permissive (1000 * Second) {["state.json.lock" := 1000 * Second - Minute]}.

(** Requests arriving one second apart. *)
Definition every_second (i : N) : Z := Z.of_N i * Second.

(** Collaborators of the request path: no pattern matches, no address is
    exempt, no address resolves to a good bot, and the template always
    executes. *)
Definition no_match (r path : string) : bool := false.
Definition nobody_exempt (ip : string) (exemptIps : list string) : bool := false.
Definition nobody_bot (clientIP : string) (goodBots : list string) : bool := false.
Definition template_runs (t : string) (vars : list (string * string)) : bool := true.

(** A site that challenges from the first request on. *)
Definition strict : Config := configure 0 "prefix" ["/"] [] [] "false".

Definition strict_bc : CaptchaProtect string string string :=
  ltac:(let r := eval vm_compute in (construct strict) in
        match r with Ok ?bc => exact bc end).

(** The site with its state kept in the file [state.json]. *)
Definition persistent : Config :=
  mkConfig (RateLimit site) (Window site) (IPv4SubnetMask site)
    (IPv6SubnetMask site) (IPForwardedHeader site) (IPDepth site)
    (ProtectParameters site) (ProtectRoutes site) (ExcludeRoutes site)
    (ProtectFileExtensions site) (ProtectHttpMethods site) (GoodBots site)
    (ExemptIPs site) (ExemptUserAgents site) (ChallengeURL site)
    (ChallengeTmpl site) (ChallengeStatusCode site) (CaptchaProvider site)
    (SiteKey site) (SecretKey site) (EnableStatsPage site) (LogLevel site)
    "state.json" (Mode site).

Definition persistent_bc : CaptchaProtect string string string :=
  ltac:(let r := eval vm_compute in (construct persistent) in
        match r with Ok ?bc => exact bc end).

(** A stand-in for the package [net] in which no text parses as an
    address, so that every address is its own subnet, and the host of an
    address is the text before its first colon. *)
Definition net_ParseIP (s : string) : option string := None.
Definition IP_To4 (ip : string) : bool := false.
Definition IP_To16 (ip : string) : bool := false.
Definition IP_Mask (ip : string) (m : option IPMask) : string := ip.
Definition IP_String (ip : string) : string := ip.
Definition net_SplitHostPort (addr : string) : string :=
  hd "" (strings.Split addr ":").

(** A request that arrives without a forwarded header. *)
Definition direct : Transport :=
  mkTransport "" "203.0.113.7:5000" "/search?page=2".

(** A snapshot that keeps the values of the entries. *)
Definition GetState (rate : gmap string (lru.Item Z))
    (bots verified : gmap string (lru.Item bool)) : state.State :=
  state.mkState (Some (lru.Object <$> rate)) (Some (lru.Object <$> bots))
    (Some (lru.Object <$> verified)) None.

(** What is saved when the snapshot [disk_3] on disk meets caches without
    entries. *)
Definition saved_3 : state.State := reconcileStates disk_3 (GetState ∅ ∅ ∅).

(** A stand-in for [encoding/json] that knows two documents, [three] for
    the snapshot [disk_3] and [saved] for [saved_3]; every snapshot is
    written as [saved]. *)
Definition Marshal (st : state.State) : option string := Some "saved".

Definition Unmarshal (data : string) : option state.State :=
  if String.eqb data "three" then Some disk_3
  else if String.eqb data "saved" then Some saved_3
  else None.

(** A disk at the instant [1000s] that holds the state file with three
    requests counted for [ip], and no marker. *)
Definition disk_with_state : Disk :=
  mkDisk (permissive (1000 * Second) {["state.json" := 900 * Second]})
    {["state.json" := "three"]}.

(** A stand-in for the package [net] that knows the IPv4 addresses
    [203.0.113.x]: they parse, and under a mask of 16 ones out of 32 bits
    their subnet is [203.0.0.0]. *)
Definition v4_ParseIP (s : string) : option string :=
  if strings.HasPrefix s "203.0.113." then Some s else None.
Definition v4_To4 (ip : string) : bool := true.
Definition v4_Mask (ip : string) (m : option IPMask) : string :=
  match m with
  | Some m => if (ones m =? 16) && (bits m =? 32) then "203.0.0.0" else ip
  | None => ip
  end.

(** A shop in which both [/shop/api] and [/shop] are protected and
    [/shop/api] is excluded. *)
Definition shop_api : Config :=
  configure 20 "prefix" ["/shop/api"; "/shop"] ["/shop/api"] ["html"] "false".

Definition shop_api_bc : CaptchaProtect string string string :=
  ltac:(let r := eval vm_compute in (construct shop_api) in
        match r with Ok ?bc => exact bc end).

End scenario.

(** * Properties *)

Import Go captcha_protect.

(** ** The rate engine *)

Section RateEngine.

Context {IPNet Template Regexp : Type}.
Implicit Types bc : CaptchaProtect IPNet Template Regexp.

Lemma rateCache_notify bc : rateCache (notifyStateChange bc) = rateCache bc.
Proof. unfold notifyStateChange. by destruct (stateChanged bc). Qed.

Lemma config_notify bc : config (notifyStateChange bc) = config bc.
Proof. unfold notifyStateChange. by destruct (stateChanged bc). Qed.

Lemma registerRequests_0 bc ip at_ : registerRequests bc ip at_ 0 = bc.
Proof. reflexivity. Qed.

Lemma registerRequests_succ bc ip at_ n :
  registerRequests bc ip at_ (N.succ n)
  = registerRequest (registerRequests bc ip at_ n) ip (at_ n).
Proof. unfold registerRequests. by rewrite N.peano_rect_succ. Qed.

Lemma config_registerRequest bc ip now :
  config (registerRequest bc ip now) = config bc.
Proof.
  unfold registerRequest.
  destruct (lru.Add _ _ _ _ _) as [c [|]].
  - destruct (lru.IncrementUint _ _ _ _) as [c' [v|]]; [|done].
    by rewrite config_notify.
  - by rewrite config_notify.
Qed.

Lemma config_registerRequests bc ip at_ n :
  config (registerRequests bc ip at_ n) = config bc.
Proof.
  induction n as [|n IH] using N.peano_ind; [done|].
  by rewrite registerRequests_succ, config_registerRequest.
Qed.

Lemma within_not_expired {V} (c : lru.Cache V) (v : V) t0 t :
  within_window c t0 t ->
  lru.Expired (lru.mkItem v (first_expiration c t0)) t = false.
Proof.
  unfold within_window, lru.Expired, first_expiration. simpl.
  intros H. destruct (0 <? lru.defaultExpiration c) eqn:E.
  - apply Z.ltb_lt in E. apply andb_false_iff. right. apply Z.ltb_ge. lia.
  - done.
Qed.

(** The first request of a subnet creates the counter, at 1. *)
Lemma registerRequest_first bc ip now :
  lru.items (rateCache bc) !! ip = None ->
  rateCache (registerRequest bc ip now)
  = lru.mkCache (lru.defaultExpiration (rateCache bc))
      (<[ip := lru.mkItem 1 (first_expiration (rateCache bc) now)]>
         (lru.items (rateCache bc))).
Proof.
  intros H. unfold registerRequest, lru.Add, lru.Get. rewrite H.
  by rewrite rateCache_notify.
Qed.

(** A later request within the window adds one and keeps the expiry. *)
Lemma registerRequest_next bc ip now v e :
  lru.items (rateCache bc) !! ip = Some (lru.mkItem v e) ->
  lru.Expired (lru.mkItem v e) now = false ->
  rateCache (registerRequest bc ip now)
  = lru.mkCache (lru.defaultExpiration (rateCache bc))
      (<[ip := lru.mkItem (uint_wrap (v + 1)) e]> (lru.items (rateCache bc))).
Proof.
  intros H E. unfold registerRequest, lru.Add, lru.Get, lru.IncrementUint.
  rewrite H, E. simpl. by rewrite rateCache_notify.
Qed.

(** After [n + 1] requests within the window the counter holds [n + 1]
    reduced modulo [2^64]. *)
Lemma registerRequests_count bc ip at_ n :
  lru.items (rateCache bc) !! ip = None ->
  (forall i, (0 < i <= n)%N -> within_window (rateCache bc) (at_ 0%N) (at_ i)) ->
  let c := rateCache (registerRequests bc ip at_ (N.succ n)) in
  lru.defaultExpiration c = lru.defaultExpiration (rateCache bc) /\
  lru.items c !! ip
  = Some (lru.mkItem (uint_wrap (Z.of_N (N.succ n)))
            (first_expiration (rateCache bc) (at_ 0%N))).
Proof.
  intros Hnone. induction n as [|n IH] using N.peano_ind; intros Hw; cbv zeta.
  - rewrite registerRequests_succ, registerRequests_0.
    rewrite registerRequest_first by done. cbn [lru.defaultExpiration lru.items].
    split; [done|]. by rewrite lookup_insert_eq.
  - rewrite (registerRequests_succ _ _ _ (N.succ n)).
    destruct IH as [IHd IHi]. { intros i Hi. apply Hw. lia. }
    erewrite registerRequest_next; [| exact IHi |].
    + cbn [lru.defaultExpiration lru.items]. split; [done|].
      rewrite lookup_insert_eq. f_equal. f_equal.
      unfold uint_wrap. rewrite (N2Z.inj_succ (N.succ n)).
      rewrite <- Z.add_1_r. by rewrite Zplus_mod_idemp_l.
    + apply within_not_expired. apply Hw. lia.
Qed.

(** What [trippedRateLimit] answers after [n + 1] requests. *)
Lemma trippedRateLimit_count bc ip at_ n t :
  lru.items (rateCache bc) !! ip = None ->
  (forall i, (0 < i <= n)%N -> within_window (rateCache bc) (at_ 0%N) (at_ i)) ->
  within_window (rateCache bc) (at_ 0%N) t ->
  trippedRateLimit (registerRequests bc ip at_ (N.succ n)) ip t
  = (RateLimit (config bc) <? uint_wrap (Z.of_N (N.succ n))).
Proof.
  intros Hnone Hw Ht.
  destruct (registerRequests_count bc ip at_ n Hnone Hw) as [_ Hi].
  unfold trippedRateLimit, lru.Get. rewrite Hi.
  rewrite within_not_expired by done. cbn [lru.Object].
  by rewrite config_registerRequests.
Qed.

Lemma uint_wrap_is_uint z : is_uint (uint_wrap z).
Proof. unfold is_uint, uint_wrap. apply Z.mod_pos_bound. reflexivity. Qed.

(** The counters of the rate cache stay within [uint]. *)
Lemma registerRequest_uint_valued bc ip now :
  uint_valued (rateCache bc) -> uint_valued (rateCache (registerRequest bc ip now)).
Proof.
  intros Hu. unfold registerRequest, lru.Add, lru.IncrementUint, lru.Get.
  destruct (lru.items (rateCache bc) !! ip) as [it|] eqn:Hit.
  - destruct (lru.Expired it now).
    + rewrite rateCache_notify. intros k it'. cbn [set_rateCache rateCache lru.Set_ lru.items].
      intros [[_ <-]|[_ H]]%lookup_insert_Some; [by vm_compute|by eapply Hu].
    + rewrite rateCache_notify. intros k it'. cbn [set_rateCache rateCache lru.items].
      intros [[_ <-]|[_ H]]%lookup_insert_Some; [apply uint_wrap_is_uint|by eapply Hu].
  - rewrite rateCache_notify. intros k it'. cbn [set_rateCache rateCache lru.Set_ lru.items].
    intros [[_ <-]|[_ H]]%lookup_insert_Some; [by vm_compute|by eapply Hu].
Qed.

(** With the largest limit the limit is never tripped: no [uint] exceeds it. *)
Lemma trippedRateLimit_never_at_MaxUint bc ip now :
  uint_valued (rateCache bc) ->
  RateLimit (config bc) = MaxUint ->
  trippedRateLimit bc ip now = false.
Proof.
  intros Hu Hr. unfold trippedRateLimit, lru.Get.
  destruct (lru.items (rateCache bc) !! ip) as [it|] eqn:Hit; [|done].
  destruct (lru.Expired it now); [done|].
  apply Z.ltb_ge. rewrite Hr. destruct (Hu _ _ Hit) as [_ H].
  unfold MaxUint. lia.
Qed.
(** C1 (as amended): for a subnet key with no rate-cache entry, after [n]
    calls of [registerRequest] within the window [trippedRateLimit] is
    false whenever [n] is at most the configured limit, and true when [n]
    is the limit plus one, provided the limit is below the largest [uint]
    (so that the counter reaches [rateLimit + 1] without wrapping); the
    comparison is strict. *)
Theorem trippedRateLimit_threshold bc ip at_ n t :
  is_uint (RateLimit (config bc)) ->
  lru.items (rateCache bc) !! ip = None ->
  (forall i, (0 < i < n)%N -> within_window (rateCache bc) (at_ 0%N) (at_ i)) ->
  within_window (rateCache bc) (at_ 0%N) t ->
  (Z.of_N n <= RateLimit (config bc) ->
   trippedRateLimit (registerRequests bc ip at_ n) ip t = false) /\
  (Z.of_N n = RateLimit (config bc) + 1 -> RateLimit (config bc) < MaxUint ->
   trippedRateLimit (registerRequests bc ip at_ n) ip t = true).
Proof.
  intros [Hlo Hhi] Hnone Hw Ht.
  destruct (N.eq_dec n 0%N) as [->|Hn].
  - rewrite registerRequests_0. unfold trippedRateLimit, lru.Get. rewrite Hnone.
    split; [done|]. intros H. simpl in H. lia.
  - assert (exists m, n = N.succ m) as [m ->] by (exists (N.pred n); lia).
    rewrite trippedRateLimit_count; [|done| |done].
    2:{ intros i Hi. apply Hw. lia. }
    unfold uint_wrap, MaxUint in *. split.
    + intros Hle. apply Z.ltb_ge. rewrite Z.mod_small; lia.
    + intros Heq Hlt. apply Z.ltb_lt. rewrite Z.mod_small; lia.
Qed.

End RateEngine.

Lemma trippedRateLimit_threshold_witness :
  trippedRateLimit
    (registerRequests scenario.site_bc "10.1.0.0" scenario.every_second 20)
    "10.1.0.0" (20 * Second) = false /\
  trippedRateLimit
    (registerRequests scenario.site_bc "10.1.0.0" scenario.every_second 21)
    "10.1.0.0" (21 * Second) = true.
Proof.
  split.
  - apply (trippedRateLimit_threshold scenario.site_bc "10.1.0.0"
             scenario.every_second 20 (20 * Second)).
    + vm_compute. split; [discriminate | reflexivity].
    + reflexivity.
    + intros i Hi. right. unfold scenario.every_second.
      change (lru.defaultExpiration (rateCache scenario.site_bc))
        with 86400000000000.
      change Second with 1000000000. lia.
    + right. vm_compute. discriminate.
    + vm_compute. discriminate.
  - apply (trippedRateLimit_threshold scenario.site_bc "10.1.0.0"
             scenario.every_second 21 (21 * Second)).
    + vm_compute. split; [discriminate | reflexivity].
    + reflexivity.
    + intros i Hi. right. unfold scenario.every_second.
      change (lru.defaultExpiration (rateCache scenario.site_bc))
        with 86400000000000.
      change Second with 1000000000. lia.
    + right. vm_compute. discriminate.
    + reflexivity.
    + reflexivity.
Defined.

(** With the largest limit a [uint] holds, the request number
    [rateLimit + 1 = 2^64] wraps the counter to [0] and the limit is not
    reported as tripped. *)
Lemma trippedRateLimit_wraps :
  scenario.construct scenario.unlimited = Ok scenario.unlimited_bc /\
  lru.items (rateCache scenario.unlimited_bc) !! "10.1.0.0" = None /\
  Z.of_N (2 ^ 64) = RateLimit (config scenario.unlimited_bc) + 1 /\
  trippedRateLimit
    (registerRequests scenario.unlimited_bc "10.1.0.0" (fun _ => 0) (2 ^ 64))
    "10.1.0.0" 0 = false.
Proof.
  split; [by vm_compute|]. split; [reflexivity|]. split; [reflexivity|].
  replace (2 ^ 64)%N with (N.succ 18446744073709551615) by reflexivity.
  rewrite trippedRateLimit_count.
  - reflexivity.
  - reflexivity.
  - intros i _. right. vm_compute. discriminate.
  - right. vm_compute. discriminate.
Qed.

(** ** Reconciliation of two snapshots *)

Lemma foldl_reconcileRate_lookup (l : list (string * Z)) (rate : gmap string Z) ip :
  NoDup l.*1 ->
  foldl reconcileRate rate l !! ip
  = match rate !! ip, (list_to_map l : gmap string Z) !! ip with
    | Some memoryRate, Some fileRate =>
        Some (if memoryRate <? fileRate then fileRate else memoryRate)
    | Some memoryRate, None => Some memoryRate
    | None, o => o
    end.
Proof.
  revert rate. induction l as [|[k f] l IH]; intros rate Hnd.
  - simpl. rewrite lookup_empty. by destruct (rate !! ip).
  - apply NoDup_cons in Hnd as [Hk Hnd]. simpl in Hk.
    cbn [foldl]. rewrite IH by done. cbn [list_to_map foldr uncurry fst snd].
    destruct (decide (k = ip)) as [->|Hne].
    + rewrite lookup_insert_eq.
      rewrite (not_elem_of_list_to_map_1 l ip) by done.
      unfold reconcileRate. destruct (rate !! ip) as [m|] eqn:E.
      * destruct (m <? f); [by rewrite lookup_insert_eq|by rewrite E].
      * by rewrite lookup_insert_eq.
    + rewrite (lookup_insert_ne _ k ip) by done.
      unfold reconcileRate. destruct (rate !! k) as [m|] eqn:E.
      * destruct (m <? f); [by rewrite lookup_insert_ne|done].
      * by rewrite lookup_insert_ne.
Qed.

Lemma foldl_reconcileFlag_lookup (l : list (string * bool)) (flags : gmap string bool) ip :
  NoDup l.*1 ->
  foldl reconcileFlag flags l !! ip
  = match flags !! ip with
    | Some b => Some b
    | None => (list_to_map l : gmap string bool) !! ip
    end.
Proof.
  revert flags. induction l as [|[k f] l IH]; intros flags Hnd.
  - simpl. rewrite lookup_empty. by destruct (flags !! ip).
  - apply NoDup_cons in Hnd as [Hk Hnd]. simpl in Hk.
    cbn [foldl]. rewrite IH by done. cbn [list_to_map foldr uncurry fst snd].
    destruct (decide (k = ip)) as [->|Hne].
    + rewrite lookup_insert_eq.
      rewrite (not_elem_of_list_to_map_1 l ip) by done.
      unfold reconcileFlag. destruct (flags !! ip) as [m|] eqn:E.
      * by rewrite E.
      * by rewrite lookup_insert_eq.
    + rewrite (lookup_insert_ne _ k ip) by done.
      unfold reconcileFlag. destruct (flags !! k) as [m|] eqn:E; [done|].
      by rewrite lookup_insert_ne.
Qed.

Lemma range_reconcileRate_lookup (file rate : gmap string Z) ip :
  range file reconcileRate rate !! ip
  = match rate !! ip, file !! ip with
    | Some memoryRate, Some fileRate =>
        Some (if memoryRate <? fileRate then fileRate else memoryRate)
    | Some memoryRate, None => Some memoryRate
    | None, o => o
    end.
Proof.
  unfold range. rewrite foldl_reconcileRate_lookup by apply NoDup_fst_map_to_list.
  by rewrite list_to_map_to_list.
Qed.

Lemma range_reconcileFlag (file flags : gmap string bool) :
  range file reconcileFlag flags = flags ∪ file.
Proof.
  apply map_eq. intros ip. unfold range.
  rewrite foldl_reconcileFlag_lookup by apply NoDup_fst_map_to_list.
  rewrite list_to_map_to_list, lookup_union.
  destruct (flags !! ip), (file !! ip); done.
Qed.

(** The order in which the loop visits the entries of the file state does
    not matter. *)
Lemma reconcileRate_any_order (file rate : gmap string Z) (l : list (string * Z)) :
  l ≡ₚ map_to_list file ->
  foldl reconcileRate rate l = range file reconcileRate rate.
Proof.
  intros Hp. apply map_eq. intros ip.
  assert (NoDup l.*1) as Hnd by (rewrite Hp; apply NoDup_fst_map_to_list).
  rewrite range_reconcileRate_lookup, foldl_reconcileRate_lookup by done.
  rewrite (list_to_map_proper l (map_to_list file)) by done.
  by rewrite list_to_map_to_list.
Qed.

Lemma reconcileFlag_any_order (file flags : gmap string bool)
    (l : list (string * bool)) :
  l ≡ₚ map_to_list file ->
  foldl reconcileFlag flags l = range file reconcileFlag flags.
Proof.
  intros Hp. apply map_eq. intros ip.
  assert (NoDup l.*1) as Hnd by (rewrite Hp; apply NoDup_fst_map_to_list).
  rewrite range_reconcileFlag, lookup_union, foldl_reconcileFlag_lookup by done.
  rewrite (list_to_map_proper l (map_to_list file)) by done.
  rewrite list_to_map_to_list. by destruct (flags !! ip), (file !! ip).
Qed.

(** C3: [reconcileStates] keeps, per subnet, the larger of the two rate
    counters (the value of the memory state is replaced only by a strictly
    greater one of the file state); the bot map and the verified map are
    the unions of the keys, with the entry of the memory state kept on
    conflict; reconciling disk [{ip:3}] with memory [{ip:5}] gives the rate
    [{ip:5}], and disk [{ip:7}] with memory [{ip:5}] gives [{ip:7}]. *)
Theorem reconcileStates_merge (fileState memoryState : state.State) :
  let r := reconcileStates fileState memoryState in
  (forall ip,
     state.entries (state.Rate r) !! ip
     = match state.entries (state.Rate memoryState) !! ip,
             state.entries (state.Rate fileState) !! ip with
       | Some memoryRate, Some fileRate => Some (Z.max memoryRate fileRate)
       | Some memoryRate, None => Some memoryRate
       | None, o => o
       end) /\
  (forall ip memoryRate,
     state.entries (state.Rate memoryState) !! ip = Some memoryRate ->
     state.entries (state.Rate r) !! ip <> Some memoryRate ->
     exists fileRate,
       state.entries (state.Rate fileState) !! ip = Some fileRate /\
       memoryRate < fileRate /\
       state.entries (state.Rate r) !! ip = Some fileRate) /\
  (forall ip,
     state.entries (state.Bots r) !! ip
     = match state.entries (state.Bots memoryState) !! ip with
       | Some isBot => Some isBot
       | None => state.entries (state.Bots fileState) !! ip
       end) /\
  (forall ip,
     state.entries (state.Verified r) !! ip
     = match state.entries (state.Verified memoryState) !! ip with
       | Some isVerified => Some isVerified
       | None => state.entries (state.Verified fileState) !! ip
       end) /\
  dom (state.entries (state.Bots r))
  = dom (state.entries (state.Bots memoryState))
    ∪ dom (state.entries (state.Bots fileState)) /\
  dom (state.entries (state.Verified r))
  = dom (state.entries (state.Verified memoryState))
    ∪ dom (state.entries (state.Verified fileState)) /\
  state.Rate (reconcileStates scenario.disk_3 scenario.memory_5)
  = Some {["ip" := 5]} /\
  state.Rate (reconcileStates scenario.disk_7 scenario.memory_5)
  = Some {["ip" := 7]}.
Proof.
  cbv zeta. unfold reconcileStates.
  cbn [state.Rate state.Bots state.Verified state.entries]. split_and!.
  - intros ip. rewrite range_reconcileRate_lookup.
    destruct (state.entries (state.Rate memoryState) !! ip) as [m|]; [|done].
    destruct (state.entries (state.Rate fileState) !! ip) as [f|]; [|done].
    f_equal. destruct (Z.ltb_spec m f); lia.
  - intros ip m Hm Hr. rewrite range_reconcileRate_lookup, Hm in Hr.
    rewrite range_reconcileRate_lookup, Hm.
    destruct (state.entries (state.Rate fileState) !! ip) as [f|]; [|done].
    exists f. destruct (Z.ltb_spec m f); [done|]. by destruct Hr.
  - intros ip. rewrite range_reconcileFlag, lookup_union.
    by destruct (_ !! ip), (_ !! ip).
  - intros ip. rewrite range_reconcileFlag, lookup_union.
    by destruct (_ !! ip), (_ !! ip).
  - rewrite range_reconcileFlag. apply dom_union_L.
  - rewrite range_reconcileFlag. apply dom_union_L.
  - reflexivity.
  - reflexivity.
Qed.

Lemma reconcileStates_merge_witness :
  exists fileRate,
    state.entries (state.Rate scenario.disk_7) !! "ip" = Some fileRate /\
    5 < fileRate /\
    state.entries
      (state.Rate (reconcileStates scenario.disk_7 scenario.memory_5)) !! "ip"
    = Some fileRate.
Proof.
  apply (proj1 (proj2 (reconcileStates_merge scenario.disk_7 scenario.memory_5))
           "ip" 5).
  - reflexivity.
  - discriminate.
Defined.

Lemma union_comm_agree {V} (m1 m2 : gmap string V) :
  m1 ∪ m2 = m2 ∪ m1 <-> agree m1 m2.
Proof.
  split.
  - intros H k v1 v2 H1 H2.
    apply (f_equal (fun m => m !! k)) in H. rewrite !lookup_union, H1, H2 in H.
    by injection H.
  - intros H. apply map_eq. intros k. rewrite !lookup_union.
    destruct (m1 !! k) as [v1|] eqn:E1, (m2 !! k) as [v2|] eqn:E2; try done.
    change (Some v1 = Some v2). f_equal. by apply (H k).
Qed.

(** C4 (as amended): [reconcileStates(A, B)] and [reconcileStates(B, A)]
    give bot maps with the same keys and verified maps with the same keys;
    the two bot maps (the two verified maps) are equal exactly when [A] and
    [B] hold the same value at every key that both contain. *)
Theorem reconcileStates_commute (A B : state.State) :
  dom (state.entries (state.Bots (reconcileStates A B)))
  = dom (state.entries (state.Bots (reconcileStates B A))) /\
  dom (state.entries (state.Verified (reconcileStates A B)))
  = dom (state.entries (state.Verified (reconcileStates B A))) /\
  (state.Bots (reconcileStates A B) = state.Bots (reconcileStates B A)
   <-> agree (state.entries (state.Bots A)) (state.entries (state.Bots B))) /\
  (state.Verified (reconcileStates A B) = state.Verified (reconcileStates B A)
   <-> agree (state.entries (state.Verified A))
         (state.entries (state.Verified B))).
Proof.
  unfold reconcileStates.
  cbn [state.Rate state.Bots state.Verified state.entries].
  rewrite !range_reconcileFlag. split_and!; [| |split|split].
  - rewrite !dom_union_L. apply (comm_L (∪)).
  - rewrite !dom_union_L. apply (comm_L (∪)).
  - intros H. apply union_comm_agree. congruence.
  - intros H. f_equal. symmetry. by apply union_comm_agree.
  - intros H. apply union_comm_agree. congruence.
  - intros H. f_equal. symmetry. by apply union_comm_agree.
Qed.

Lemma reconcileStates_commute_witness :
  state.Bots (reconcileStates scenario.bot_yes scenario.bot_other)
  = state.Bots (reconcileStates scenario.bot_other scenario.bot_yes).
Proof.
  apply (proj1 (proj2 (proj2 (reconcileStates_commute scenario.bot_yes
                                scenario.bot_other)))).
  intros k v1 v2 H1 H2. simpl in H1, H2.
  destruct (decide (k = "ip")) as [->|Hne].
  - rewrite lookup_singleton_ne in H2; [discriminate|discriminate].
  - rewrite lookup_singleton_ne in H1; [discriminate|congruence].
Defined.

(** Two snapshots that disagree on one subnet: each reconciliation keeps
    the verdict of its memory argument. *)
Lemma reconcileStates_not_commutative :
  state.Bots (reconcileStates scenario.bot_yes scenario.bot_no)
  <> state.Bots (reconcileStates scenario.bot_no scenario.bot_yes).
Proof.
  intros H.
  apply (f_equal (fun m => state.entries m !! "ip")) in H.
  vm_compute in H. discriminate.
Qed.

(** ** The file lock *)

Section FileLock.

Import filelock.

Lemma sleep_sleep a b w : time_Sleep a (time_Sleep b w) = time_Sleep (b + a) w.
Proof. unfold time_Sleep. simpl. f_equal. lia. Qed.

Lemma sleep_0 w : time_Sleep 0 w = w.
Proof. destruct w. unfold time_Sleep. simpl. f_equal. lia. Qed.

(** One attempt against a marker that is younger than five minutes (or
    exactly five minutes old): nothing is removed, the acquirer sleeps
    100ms and goes on with the next attempt. *)
Lemma Lock_loop_fresh n fl w modTime :
  files w !! lockFile fl = Some modTime ->
  clock w - modTime <= 5 * Minute ->
  Lock_loop (S n) fl w = Lock_loop n fl (time_Sleep (100 * Millisecond) w).
Proof.
  intros Hm Hage. cbn [Lock_loop]. unfold os_OpenFile_excl. rewrite Hm.
  cbn [IsExist negb]. unfold isStale, os_Stat. rewrite Hm.
  by rewrite (proj2 (Z.ltb_ge _ _) Hage).
Qed.

(** One attempt against a marker older than five minutes that can be
    removed: it is removed and the next attempt follows without a sleep. *)
Lemma Lock_loop_stale n fl w modTime :
  files w !! lockFile fl = Some modTime ->
  5 * Minute < clock w - modTime ->
  writable w (lockFile fl) = true ->
  Lock_loop (S n) fl w
  = Lock_loop n fl (with_files w (delete (lockFile fl) (files w))).
Proof.
  intros Hm Hage Hw. cbn [Lock_loop]. unfold os_OpenFile_excl. rewrite Hm.
  cbn [IsExist negb]. unfold isStale, os_Stat. rewrite Hm.
  rewrite (proj2 (Z.ltb_lt _ _) Hage). unfold os_Remove. by rewrite Hm, Hw.
Qed.

(** An attempt when there is no marker and the directory is writable. *)
Lemma Lock_loop_free n fl w :
  files w !! lockFile fl = None ->
  writable w (lockFile fl) = true ->
  Lock_loop (S n) fl w
  = (None, set_acquired fl true,
     with_files w (<[lockFile fl := clock w]> (files w))).
Proof.
  intros Hm Hw. cbn [Lock_loop]. unfold os_OpenFile_excl. by rewrite Hm, Hw.
Qed.

(** A marker that stays fresh during [n] attempts makes all of them wait. *)
Lemma Lock_loop_waits n k fl w modTime :
  files w !! lockFile fl = Some modTime ->
  clock w + Z.of_nat (n - 1) * (100 * Millisecond) - modTime <= 5 * Minute ->
  Lock_loop (n + k) fl w
  = Lock_loop k fl (time_Sleep (Z.of_nat n * (100 * Millisecond)) w).
Proof.
  change (100 * Millisecond) with 100000000.
  change (5 * Minute) with 300000000000.
  revert w. induction n as [|n IH]; intros w Hm Hage.
  - by rewrite sleep_0.
  - cbn [Nat.add].
    rewrite (Lock_loop_fresh _ _ _ modTime); [|done|].
    2:{ change (5 * Minute) with 300000000000.
        replace (S n - 1)%nat with n in Hage by lia. lia. }
    change (100 * Millisecond) with 100000000.
    destruct n as [|n]; [done|].
    rewrite IH; [|done|].
    + rewrite sleep_sleep. do 2 f_equal. lia.
    + cbn [time_Sleep clock]. replace (S (S n) - 1)%nat with (S n) in Hage by lia.
      replace (S n - 1)%nat with n by lia. lia.
Qed.

(** When the marker never turns stale during the 300 attempts, [Lock]
    waits 30 seconds in all, leaves the marker alone and reports the
    timeout. *)
Lemma Lock_fresh_times_out fl w modTime :
  acquired fl = false ->
  mkdir_ok w (lockFile fl) = true ->
  files w !! lockFile fl = Some modTime ->
  clock w + 299 * (100 * Millisecond) - modTime <= 5 * Minute ->
  Lock fl w = (Some (errTimeout fl), fl, time_Sleep (30 * Second) w).
Proof.
  intros Ha Hd Hm Hage. unfold Lock, os_MkdirAll_Dir. rewrite Ha, Hd.
  change maxRetries with (300 + 0)%nat.
  by rewrite (Lock_loop_waits 300 0 fl w modTime).
Qed.

(** A marker that is already stale is removed at the first attempt and the
    lock is taken at the second, without any sleep. *)
Lemma Lock_stale_steals fl w modTime :
  acquired fl = false ->
  mkdir_ok w (lockFile fl) = true ->
  writable w (lockFile fl) = true ->
  files w !! lockFile fl = Some modTime ->
  5 * Minute < clock w - modTime ->
  Lock fl w
  = (None, set_acquired fl true,
     with_files w (<[lockFile fl := clock w]> (files w))).
Proof.
  intros Ha Hd Hw Hm Hage. unfold Lock, os_MkdirAll_Dir. rewrite Ha, Hd.
  unfold maxRetries. rewrite (Lock_loop_stale _ _ _ modTime) by done.
  rewrite Lock_loop_free.
  - cbn [with_files clock files]. by rewrite insert_delete_eq.
  - cbn [with_files files]. apply lookup_delete_eq.
  - done.
Qed.

(** The messages of the failures of [Lock] differ from the timeout. *)
Lemma errTimeout_distinct fl e :
  errTimeout fl <> errAlreadyAcquired /\
  errTimeout fl <> errCreateLockDir e /\
  errTimeout fl <> errCreateLockFile e.
Proof. split_and!; discriminate. Qed.


(** The scenarios of [filelock_test.go]: lock then unlock; a second
    [TryLock] on a held lock; a marker that is ten minutes old. *)
Example BasicLocking :
  let '(err1, fl1, w1) := Lock scenario.state_lock (scenario.permissive 0 ∅) in
  let '(err2, fl2, w2) := Unlock fl1 w1 in
  err1 = None /\ is_Some (files w1 !! "state.json.lock") /\
  err2 = None /\ files w2 !! "state.json.lock" = None.
Proof. vm_compute. eauto. Qed.

Example TryLock_held :
  let '(err1, fl1, w1) := TryLock scenario.state_lock (scenario.permissive 0 ∅) in
  let '(err2, fl2, w2) := TryLock scenario.state_lock w1 in
  err1 = None /\ err2 = Some errAlreadyHeld.
Proof. vm_compute. done. Qed.

Example StaleLockHandling :
  let '(err, fl, w) := Lock scenario.state_lock scenario.stale_marker in
  err = None /\ acquired fl = true /\
  clock w = clock scenario.stale_marker /\
  files w !! "state.json.lock" = Some (clock scenario.stale_marker).
Proof. vm_compute. done. Qed.

(** A marker that is one minute old is left alone for 30 seconds. *)
Example fresh_marker_waits :
  let '(err, fl, w) := Lock scenario.state_lock scenario.fresh_marker in
  err = Some (errTimeout scenario.state_lock) /\ acquired fl = false /\
  clock w = clock scenario.fresh_marker + 30 * Second /\
  files w = files scenario.fresh_marker.
Proof. vm_compute. done. Qed.

(** A marker that turns stale between the last two attempts is removed by
    the last attempt, after which the loop is over: the timeout is
    reported with no marker left and the lock not taken. *)
Lemma Lock_stale_at_last_attempt fl w modTime :
  acquired fl = false ->
  mkdir_ok w (lockFile fl) = true ->
  writable w (lockFile fl) = true ->
  files w !! lockFile fl = Some modTime ->
  clock w + 298 * (100 * Millisecond) - modTime <= 5 * Minute ->
  5 * Minute < clock w + 299 * (100 * Millisecond) - modTime ->
  Lock fl w
  = (Some (errTimeout fl), fl,
     with_files (time_Sleep (299 * (100 * Millisecond)) w)
       (delete (lockFile fl) (files w))).
Proof.
  intros Ha Hd Hw Hm Hfresh Hstale. unfold Lock, os_MkdirAll_Dir.
  rewrite Ha, Hd. change maxRetries with (299 + 1)%nat.
  rewrite (Lock_loop_waits 299 1 fl w modTime) by done.
  by rewrite (Lock_loop_stale 0 fl _ modTime).
Qed.

(** C7 (the code at the failing input): a marker that turns five minutes
    old just before the last of the 300 attempts is removed by that
    attempt, and [Lock] then returns the timeout error without trying
    again: the lock is not acquired although no marker is left. *)
Theorem Lock_last_attempt_removes_without_retry :
  let '(err, fl, w) := Lock scenario.state_lock scenario.aging_marker in
  err = Some "timeout waiting for lock on state.json.lock" /\
  acquired fl = false /\
  files scenario.aging_marker !! "state.json.lock"
  = Some (1000 * Second - 270150 * Millisecond) /\
  files w !! "state.json.lock" = None /\
  clock w = clock scenario.aging_marker + 299 * (100 * Millisecond).
Proof. vm_compute. done. Qed.

(** C8 (as amended): [Unlock] on a lock that was never acquired, or a
    second time after an [Unlock] that succeeded, changes nothing in the
    file system and returns no error; after an [Unlock] that returns no
    error the flag [acquired] is false. When the lock is held and the
    removal of the existing marker is refused, [Unlock] returns the error
    of the removal and leaves the lock, with its flag set, and the world
    as they were; in no other case does it return an error. *)
Theorem Unlock_idempotent fl w :
  (acquired fl = false -> Unlock fl w = (None, fl, w)) /\
  (forall fl1 w1, Unlock fl w = (None, fl1, w1) ->
     acquired fl1 = false /\ Unlock fl1 w1 = (None, fl1, w1)) /\
  (forall msg fl1 w1, Unlock fl w = (Some msg, fl1, w1) ->
     fl1 = fl /\ w1 = w /\ acquired fl = true /\
     is_Some (files w !! lockFile fl) /\ writable w (lockFile fl) = false) /\
  (acquired fl = true -> is_Some (files w !! lockFile fl) ->
   writable w (lockFile fl) = false ->
   Unlock fl w = (Some (errRemove EACCES), fl, w) /\
   acquired (snd (fst (Unlock fl w))) = true).
Proof.
  unfold Unlock, os_Remove. split_and!.
  4:{ intros Ha [m Hm] Hw. rewrite Ha, Hm, Hw. cbn [negb IsNotExist fst snd].
      done. }
  - by intros ->.
  - intros fl1 w1. destruct (acquired fl) eqn:Ha; cbn [negb].
    + destruct (files w !! lockFile fl) eqn:Hm;
        [destruct (writable w (lockFile fl))|]; cbn [IsNotExist negb];
        intros [= <- <-]; done.
    + intros [= <- <-]. by rewrite Ha.
  - intros msg fl1 w1. destruct (acquired fl) eqn:Ha; cbn [negb]; [|done].
    destruct (files w !! lockFile fl) eqn:Hm;
      [destruct (writable w (lockFile fl))|]; cbn [IsNotExist negb];
      intros [= <- <- <-]; eauto.
Qed.

End FileLock.

Lemma Unlock_idempotent_witness :
  filelock.Unlock scenario.state_lock scenario.fresh_marker
  = (None, scenario.state_lock, scenario.fresh_marker).
Proof.
  apply (proj1 (Unlock_idempotent scenario.state_lock scenario.fresh_marker)).
  reflexivity.
Defined.

(** A lock is taken, the directory then becomes read-only: [Unlock]
    returns an error and the flag [acquired] is still set. *)
Lemma Unlock_refused_keeps_acquired :
  let '(err0, fl1, w1) :=
    filelock.Lock scenario.state_lock (scenario.permissive 0 ∅) in
  let '(err, fl2, w2) := filelock.Unlock fl1 (scenario.read_only w1) in
  err0 = None /\
  err = Some "failed to remove lock file: permission denied" /\
  filelock.acquired fl2 = true.
Proof. vm_compute. done. Qed.

(** ** The classifier *)

Section Classifier.

Context {IPNet Template Regexp : Type}.
Implicit Types bc : CaptchaProtect IPNet Template Regexp.

(** A path that an exclusion matches is protected by no candidate: the
    exclusion test does not depend on the candidate. *)
Lemma RouteIsProtectedPrefix_excluded bc path routes :
  existsb (fun eRoute => strings.HasPrefix path eRoute)
    (ExcludeRoutes (config bc)) = true ->
  RouteIsProtectedPrefix_from bc path routes = false.
Proof.
  intros He. induction routes as [|route rest IH]; [done|].
  cbn [RouteIsProtectedPrefix_from]. rewrite He, IH.
  by destruct (negb _).
Qed.

(** The value that the recorded loop returns is the value of
    [RouteIsProtectedPrefix]. *)
Lemma RouteIsProtectedPrefix_run_result bc path routes :
  snd (RouteIsProtectedPrefix_run bc path routes)
  = RouteIsProtectedPrefix_from bc path routes.
Proof.
  induction routes as [|route rest IH]; [done|].
  cbn [RouteIsProtectedPrefix_run RouteIsProtectedPrefix_from].
  destruct (RouteIsProtectedPrefix_run bc path rest) as [examined result].
  cbn [snd] in IH. subst result.
  destruct (negb _); [done|]. destruct (existsb _ _); [done|].
  by destruct (extension_protected bc path).
Qed.

(** When an exclusion matches the path, the loop body is entered for
    every protect-route: no exclusion ends the loop. *)
Lemma RouteIsProtectedPrefix_run_excluded bc path routes :
  existsb (fun eRoute => strings.HasPrefix path eRoute)
    (ExcludeRoutes (config bc)) = true ->
  RouteIsProtectedPrefix_run bc path routes = (routes, false).
Proof.
  intros He. induction routes as [|route rest IH]; [done|].
  cbn [RouteIsProtectedPrefix_run]. rewrite IH, He.
  by destruct (negb _).
Qed.


(** C9: with [protectParameters] enabled and a request that carries a
    query parameter, [isGoodBot] answers false and leaves the middleware as
    it was, whatever the bot cache holds and whatever the resolver would
    say. *)
Theorem isGoodBot_parameters helper_IsIpGoodBot bc req clientIP now :
  ProtectParameters (config bc) = "true" ->
  Query req <> ∅ ->
  isGoodBot helper_IsIpGoodBot bc req clientIP now = (false, bc) /\
  (forall memo,
     isGoodBot helper_IsIpGoodBot (set_botCache bc memo) req clientIP now
     = (false, set_botCache bc memo)).
Proof.
  intros Hp Hq.
  assert ((0 <? size (Query req))%nat = true) as Hs.
  { apply Nat.ltb_lt. destruct (size (Query req)) eqn:E; [|lia].
    by apply map_size_empty_iff in E. }
  unfold isGoodBot. split.
  - by rewrite Hp, Hs.
  - intros memo. cbn [set_botCache config]. by rewrite Hp, Hs.
Qed.

End Classifier.


Lemma isGoodBot_parameters_witness :
  lru.Get (botCache scenario.guarded_with_bot) "66.249.0.0" 1 = Some true /\
  isGoodBot scenario.every_bot scenario.guarded_with_bot
    scenario.search_request "66.249.0.0" 1
  = (false, scenario.guarded_with_bot).
Proof.
  split; [reflexivity|].
  apply (isGoodBot_parameters scenario.every_bot scenario.guarded_with_bot
           scenario.search_request "66.249.0.0" 1).
  - reflexivity.
  - intros H. apply (f_equal (fun m => m !! "page")) in H. discriminate H.
Defined.

(** ** The challenge controller *)

Section Challenge.

Context {IPNet Template Regexp : Type}.
Implicit Types bc : CaptchaProtect IPNet Template Regexp.

(** An entry that was just set is found. *)
Lemma Get_Set_ {V} (c : lru.Cache V) k (x : V) now :
  lru.Get (lru.Set_ c k x lru.DefaultExpiration now) k now = Some x.
Proof.
  unfold lru.Get, lru.Set_. cbn [lru.items]. rewrite lookup_insert_eq.
  unfold lru.Expired. cbn [lru.Expiration lru.Object].
  change (lru.DefaultExpiration =? lru.DefaultExpiration) with true. cbv iota.
  destruct (0 <? lru.defaultExpiration c) eqn:E; [|done].
  apply Z.ltb_lt in E.
  replace (now + lru.defaultExpiration c <? now) with false
    by (symmetry; apply Z.ltb_ge; lia).
  by rewrite andb_false_r.
Qed.

Lemma verifiedCache_notify bc :
  verifiedCache (notifyStateChange bc) = verifiedCache bc.
Proof. unfold notifyStateChange. by destruct (stateChanged bc). Qed.

Lemma QueryUnescape_slash : url.QueryUnescape "%2F" = Some "/".
Proof. reflexivity. Qed.

(** The target that [verifyChallengePage] computes, by way of the default
    ["%2F"], is the target of the specification. *)
Lemma redirect_target_code destination :
  match url.QueryUnescape
          (if String.eqb destination "" then "%2F" else destination) with
  | Some u => u
  | None => "/"
  end = redirect_target destination.
Proof. unfold redirect_target. by destruct (String.eqb destination ""). Qed.

(** The provider reports no success: 403, and nothing changes. *)
Example verification_rejected :
  let v :=
    verifyChallengePage scenario.provider_rejects scenario.site_bc
      (scenario.challenge_post "tok" "%2Fshop") "203.0.113.9" 5 in
  code v = StatusForbidden /\ after v = scenario.site_bc.
Proof. by vm_compute. Qed.

(** C10: with an empty response token [verifyChallengePage] answers 400 at
    once: no request is sent to the provider and the middleware, with its
    three caches, is left as it was. *)
Theorem verifyChallengePage_empty_token http_PostForm bc req ip now :
  FormValue req (key (captchaConfig bc) +:+ "-response") = "" ->
  let v := verifyChallengePage http_PostForm bc req ip now in
  code v = StatusBadRequest /\
  written v = http_Error "Bad request" StatusBadRequest /\
  posted v = [] /\
  after v = bc /\
  rateCache (after v) = rateCache bc /\
  botCache (after v) = botCache bc /\
  verifiedCache (after v) = verifiedCache bc.
Proof.
  intros Ht. cbv zeta. unfold verifyChallengePage. rewrite Ht.
  cbn [String.eqb code written posted after]. done.
Qed.

(** C2 (as amended): [verifyChallengePage] marks the address [ip] it is
    given verified, and no other key of the verified cache, and answers
    302 exactly when the request carried a non-empty response token and
    the provider's response decodes to success; with a token and any other
    outcome of the provider it answers 500 (the call failed, or the body
    could not be decoded) or 403 (success is false) and leaves the
    middleware, with the verified cache, as it was; on success it
    redirects to the unescaped destination, to ["/"] when the destination
    is empty or cannot be unescaped. [ServeHTTP] gives it the address of
    the client, not the subnet. *)
Theorem verifyChallengePage_outcomes http_PostForm bc req ip now :
  let token := FormValue req (key (captchaConfig bc) +:+ "-response") in
  let call :=
    mkPostForm (validate (captchaConfig bc))
      [("secret", SecretKey (config bc)); ("response", token)] in
  let v := verifyChallengePage http_PostForm bc req ip now in
  ((code v = StatusFound /\
    verifiedCache (after v)
    = lru.Set_ (verifiedCache bc) ip true lru.DefaultExpiration now /\
    lru.Get (verifiedCache (after v)) ip now = Some true)
   <-> (token <> "" /\ http_PostForm call = Decoded true)) /\
  (token <> "" -> http_PostForm call <> Decoded true ->
   (code v = StatusInternalServerError \/ code v = StatusForbidden) /\
   after v = bc /\ verifiedCache (after v) = verifiedCache bc) /\
  (token <> "" ->
   http_PostForm call = PostFailed \/ http_PostForm call = DecodeFailed ->
   code v = StatusInternalServerError) /\
  (token <> "" -> http_PostForm call = Decoded false ->
   code v = StatusForbidden) /\
  (token <> "" -> http_PostForm call = Decoded true ->
   written v
   = http_Redirect (redirect_target (FormValue req "destination")) StatusFound) /\
  (forall other, other <> ip ->
     lru.items (verifiedCache (after v)) !! other
     = lru.items (verifiedCache bc) !! other).
Proof.
  cbv zeta. unfold verifyChallengePage.
  destruct (String.eqb_spec
              (FormValue req (key (captchaConfig bc) +:+ "-response")) "")
    as [Ht|Ht].
  - rewrite Ht. cbn [code written posted after].
    split_and!; try done.
    split; [intros [H _]; discriminate H | intros [H _]; done].
  - destruct (http_PostForm _) as [| |[|]] eqn:Hp;
      cbn [code written posted after]; split_and!.
    all: try (intros other Ho; rewrite ?verifiedCache_notify;
              cbn [set_verifiedCache verifiedCache lru.Set_ lru.items];
              by rewrite ?lookup_insert_ne).
    all: try (split; [intros [H _]; discriminate H | intros [_ H]; discriminate H]).
    all: try (intros _ H; discriminate H).
    all: try (intros _ [H|H]; discriminate H).
    all: try (intros _ _; split_and!; [by auto|done|done]).
    all: try done.
    + split; [done|]. intros _. rewrite verifiedCache_notify.
      cbn [set_verifiedCache verifiedCache]. split_and!; [done|done|].
      apply Get_Set_.
    + intros _ _. by rewrite redirect_target_code.
Qed.

End Challenge.

Lemma verifyChallengePage_empty_token_witness :
  code (verifyChallengePage scenario.provider_accepts scenario.site_bc
          (scenario.challenge_post "" "%2Fshop") "203.0.113.9" 5)
  = StatusBadRequest.
Proof.
  apply (verifyChallengePage_empty_token scenario.provider_accepts
           scenario.site_bc (scenario.challenge_post "" "%2Fshop")
           "203.0.113.9" 5).
  reflexivity.
Defined.

Lemma verifyChallengePage_outcomes_witness :
  written (verifyChallengePage scenario.provider_accepts scenario.site_bc
             (scenario.challenge_post "tok" "%2Fshop%2Fcart%3Fpage%3D2")
             "203.0.113.9" 5)
  = http_Redirect "/shop/cart?page=2" StatusFound.
Proof.
  apply (proj1 (proj2 (proj2 (proj2 (proj2
           (verifyChallengePage_outcomes scenario.provider_accepts
              scenario.site_bc
              (scenario.challenge_post "tok" "%2Fshop%2Fcart%3Fpage%3D2")
              "203.0.113.9" 5)))))).
  - discriminate.
  - reflexivity.
Defined.

(** A client at [203.0.113.7], in the subnet [203.0.0.0], posts a solved
    challenge to [ServeHTTP]: it is redirected, and the verified cache then
    holds the address of the client and nothing for its subnet. *)
Lemma verifyChallengePage_subnet_not_marked :
  getClientIP scenario.nobody_exempt string scenario.v4_ParseIP scenario.v4_To4
    scenario.IP_To16 scenario.v4_Mask scenario.IP_String
    scenario.net_SplitHostPort scenario.site_bc scenario.direct
  = ("203.0.113.7", "203.0.0.0") /\
  let '(served, bc') :=
    serve scenario.no_match scenario.nobody_exempt scenario.nobody_bot string
      scenario.v4_ParseIP scenario.v4_To4 scenario.IP_To16 scenario.v4_Mask
      scenario.IP_String scenario.net_SplitHostPort scenario.template_runs
      scenario.GetState scenario.Marshal scenario.provider_accepts
      scenario.site_bc (scenario.challenge_post "tok" "%2F") scenario.direct 5 in
  served = Wrote (http_Redirect "/" StatusFound) /\
  lru.Get (verifiedCache bc') "203.0.113.7" 5 = Some true /\
  lru.Get (verifiedCache bc') "203.0.0.0" 5 = None /\
  lru.items (verifiedCache bc') !! "203.0.0.0" = None.
Proof. vm_compute. done. Qed.

(** ** The constructor *)

Section Constructor.

Context {IPNet Template Regexp : Type}.

(** C5 (as amended): an empty [protectRoutes] list is a fatal
    configuration error in every mode except ["suffix"]:
    [NewCaptchaProtect] returns the error and no middleware. *)
Theorem NewCaptchaProtect_requires_routes
    (regexp_Compile : string -> option Regexp) (os_Stat : string -> StatOutcome)
    (helper_GetDefaultTmpl : string)
    (template_Parse template_ParseFiles : string -> result Template)
    (helper_ParseCIDR : string -> result IPNet)
    (config : Config) (loaded : option state.State) (now : Z) :
  ProtectRoutes config = [] ->
  Mode config <> "suffix" ->
  NewCaptchaProtect regexp_Compile os_Stat helper_GetDefaultTmpl template_Parse
    template_ParseFiles helper_ParseCIDR config loaded now
  = Err "you must protect at least one route with the protectRoutes config value. / will cover your entire site".
Proof.
  intros Hr Hm. unfold NewCaptchaProtect. rewrite Hr.
  destruct (String.eqb_spec (Mode config) "suffix") as [E|E]; [done|].
  reflexivity.
Qed.

End Constructor.

Lemma NewCaptchaProtect_requires_routes_witness :
  is_err (scenario.construct CreateConfig) = true.
Proof.
  unfold scenario.construct.
  rewrite (NewCaptchaProtect_requires_routes scenario.regexp_Compile
             scenario.os_Stat scenario.helper_GetDefaultTmpl
             scenario.template_Parse scenario.template_ParseFiles
             scenario.helper_ParseCIDR CreateConfig None 0).
  - reflexivity.
  - reflexivity.
  - discriminate.
Defined.

(** In suffix mode the constructor accepts an empty [protectRoutes]. *)
Lemma NewCaptchaProtect_suffix_without_routes :
  ProtectRoutes scenario.suffix_only = [] /\
  Mode scenario.suffix_only = "suffix" /\
  exists bc, scenario.construct scenario.suffix_only = Ok bc.
Proof. split_and!; [reflexivity|reflexivity|]. eexists. by vm_compute. Qed.

(** * Further properties of the code *)

(** ** The file lock as a protocol *)

Section FileLockProtocol.

Import filelock.

(** One turn of the loop of [Lock]: it ends the loop with the lock taken,
    ends it with the error of the creation, or hands a world to the next
    turn in which at most 100ms have passed, only the marker may have
    gone, and the marker is present or can be created. *)
Lemma Lock_loop_turn n fl w :
  (files w !! lockFile fl = None /\ writable w (lockFile fl) = true /\
   Lock_loop (S n) fl w
   = (None, set_acquired fl true,
      with_files w (<[lockFile fl := clock w]> (files w)))) \/
  (files w !! lockFile fl = None /\ writable w (lockFile fl) = false /\
   Lock_loop (S n) fl w = (Some (errCreateLockFile EACCES), fl, w)) \/
  (exists w1,
     is_Some (files w !! lockFile fl) /\
     Lock_loop (S n) fl w = Lock_loop n fl w1 /\
     clock w <= clock w1 <= clock w + 100 * Millisecond /\
     (forall p, p <> lockFile fl -> files w1 !! p = files w !! p) /\
     mkdir_ok w1 = mkdir_ok w /\ writable w1 = writable w /\
     (is_Some (files w1 !! lockFile fl) \/ writable w1 (lockFile fl) = true)).
Proof.
  change (100 * Millisecond) with 100000000.
  cbn [Lock_loop]. unfold os_OpenFile_excl.
  destruct (files w !! lockFile fl) as [m|] eqn:Hm.
  - right. right. cbn [IsExist negb]. destruct (isStale fl w).
    + unfold os_Remove. rewrite Hm.
      destruct (writable w (lockFile fl)) eqn:Hwr.
      * exists (with_files w (delete (lockFile fl) (files w))).
        cbn [with_files clock files mkdir_ok writable].
        split_and!; eauto; try lia.
        intros p Hp. by rewrite lookup_delete_ne.
      * exists (time_Sleep 100000000 w).
        cbn [time_Sleep clock files mkdir_ok writable].
        split_and!; eauto; try lia.
    + exists (time_Sleep 100000000 w).
      cbn [time_Sleep clock files mkdir_ok writable].
      split_and!; eauto; try lia.
  - destruct (writable w (lockFile fl)); [left|right; left]; done.
Qed.

Lemma Lock_loop_invariant n fl w :
  let '(err, fl', w') := Lock_loop n fl w in
  lockFile fl' = lockFile fl /\
  clock w <= clock w' <= clock w + Z.of_nat n * (100 * Millisecond) /\
  (forall p, p <> lockFile fl -> files w' !! p = files w !! p) /\
  (err = None ->
   acquired fl' = true /\ files w' !! lockFile fl = Some (clock w')) /\
  (err <> None -> fl' = fl) /\
  mkdir_ok w' = mkdir_ok w /\ writable w' = writable w.
Proof.
  revert w. induction n as [|n IH]; intros w.
  - cbn [Lock_loop]. split_and!; try done; lia.
  - destruct (Lock_loop_turn n fl w)
      as [(Hm & Hwr & ->)|[(Hm & Hwr & ->)|(w1 & Hm & -> & Hc & Hf & Hd1 & Hw1 & _)]].
    + cbn [with_files clock files set_acquired lockFile acquired mkdir_ok writable].
      change (100 * Millisecond) with 100000000.
      split_and!; try done; try lia.
      * intros p Hp. by rewrite lookup_insert_ne.
      * intros _. by rewrite lookup_insert_eq.
    + change (100 * Millisecond) with 100000000. split_and!; try done; lia.
    + specialize (IH w1). destruct (Lock_loop n fl w1) as [[err fl'] w'].
      destruct IH as (H1 & H2 & H3 & H4 & H5 & H6 & H7).
      change (100 * Millisecond) with 100000000 in *.
      split_and!; try done; try lia; try congruence.
      intros p Hp. rewrite H3 by done. by apply Hf.
Qed.

(** What [Lock] never changes, whatever it returns. *)
Lemma Lock_keeps fl w :
  let '(err, fl', w') := Lock fl w in
  clock w <= clock w' <= clock w + 30 * Second /\
  (forall p, p <> lockFile fl -> files w' !! p = files w !! p) /\
  mkdir_ok w' = mkdir_ok w /\ writable w' = writable w.
Proof.
  unfold Lock. destruct (acquired fl).
  { change (30 * Second) with 30000000000. split_and!; try done; lia. }
  destruct (os_MkdirAll_Dir (lockFile fl) w).
  { change (30 * Second) with 30000000000. split_and!; try done; lia. }
  pose proof (Lock_loop_invariant maxRetries fl w) as H.
  destruct (Lock_loop maxRetries fl w) as [[err fl'] w'].
  destruct H as (H1 & H2 & H3 & H4 & H5 & H6 & H7).
  change (Z.of_nat maxRetries * (100 * Millisecond)) with 30000000000 in H2.
  change (30 * Second) with 30000000000.
  split_and!; try done; lia.
Qed.

(** Once the marker is present or can be created, the loop ends with the
    lock taken or with the timeout. *)
Lemma Lock_loop_late_error n fl w err fl' w' :
  is_Some (files w !! lockFile fl) \/ writable w (lockFile fl) = true ->
  Lock_loop n fl w = (Some err, fl', w') ->
  err = errTimeout fl.
Proof.
  revert w. induction n as [|n IH]; intros w Hw.
  - cbn [Lock_loop]. by intros [= <- <- <-].
  - destruct (Lock_loop_turn n fl w)
      as [(Hm & Hwr & ->)|[(Hm & Hwr & ->)|(w1 & Hm & -> & _ & _ & _ & _ & Hw1)]].
    + done.
    + destruct Hw as [[? Hw]|Hw]; congruence.
    + by apply IH.
Qed.

(** A loop that ends with the lock taken has created the marker, so the
    marker can also be removed. *)
Lemma Lock_loop_taken n fl w fl1 w1 :
  Lock_loop n fl w = (None, fl1, w1) ->
  fl1 = set_acquired fl true /\
  writable w1 (lockFile fl) = true /\
  files w1 !! lockFile fl = Some (clock w1).
Proof.
  revert w. induction n as [|n IH]; intros w; [done|].
  destruct (Lock_loop_turn n fl w)
    as [(Hm & Hwr & ->)|[(Hm & Hwr & ->)|(w2 & Hm & -> & _)]].
  - intros [= <- <-]. cbn [with_files writable files clock].
    split_and!; try done. apply lookup_insert_eq.
  - done.
  - apply IH.
Qed.

Lemma Lock_taken fl w fl1 w1 :
  Lock fl w = (None, fl1, w1) ->
  acquired fl = false /\
  fl1 = set_acquired fl true /\
  writable w1 (lockFile fl) = true /\
  files w1 !! lockFile fl = Some (clock w1).
Proof.
  unfold Lock. destruct (acquired fl); [done|].
  destruct (os_MkdirAll_Dir (lockFile fl) w); [done|].
  intros H. split; [done|]. by eapply Lock_loop_taken.
Qed.

(** X1: whatever [Lock] returns, the lock still names the same marker, at
    most 30 seconds have passed, and no file other than the marker has
    changed; when it returns no error the lock was not held before, is held
    now, and the marker exists with the current time as its modification
    time; when it returns an error the lock is as it was. *)
Theorem Lock_postcondition fl w :
  let '(err, fl', w') := Lock fl w in
  lockFile fl' = lockFile fl /\
  clock w <= clock w' <= clock w + 30 * Second /\
  (forall p, p <> lockFile fl -> files w' !! p = files w !! p) /\
  (err = None ->
   acquired fl = false /\ acquired fl' = true /\
   files w' !! lockFile fl = Some (clock w')) /\
  (err <> None -> fl' = fl).
Proof.
  unfold Lock. destruct (acquired fl) eqn:Ha.
  { change (30 * Second) with 30000000000. split_and!; try done; lia. }
  destruct (os_MkdirAll_Dir (lockFile fl) w).
  { change (30 * Second) with 30000000000. split_and!; try done; lia. }
  pose proof (Lock_loop_invariant maxRetries fl w) as H.
  destruct (Lock_loop maxRetries fl w) as [[err fl'] w'].
  destruct H as (H1 & H2 & H3 & H4 & H5 & _).
  change (Z.of_nat maxRetries * (100 * Millisecond)) with 30000000000 in H2.
  change (30 * Second) with 30000000000.
  split_and!; try done; try lia.
  intros He. by destruct (H4 He).
Qed.

(** Taking and giving back a free lock. *)
Lemma Lock_Unlock_free fl w :
  acquired fl = false ->
  mkdir_ok w (lockFile fl) = true ->
  writable w (lockFile fl) = true ->
  files w !! lockFile fl = None ->
  Lock fl w
  = (None, set_acquired fl true,
     with_files w (<[lockFile fl := clock w]> (files w))) /\
  Unlock (set_acquired fl true)
    (with_files w (<[lockFile fl := clock w]> (files w)))
  = (None, fl, w).
Proof.
  intros Ha Hd Hwr Hm. split.
  - unfold Lock, os_MkdirAll_Dir, maxRetries. rewrite Ha, Hd.
    by apply Lock_loop_free.
  - unfold Unlock, os_Remove.
    cbn [set_acquired acquired lockFile negb with_files files writable].
    rewrite lookup_insert_eq, Hwr. cbn [with_files files clock mkdir_ok writable].
    rewrite delete_insert_id by done.
    destruct fl as [p a], w as [c fs d wr]. simpl in *. by subst a.
Qed.

(** X2: when no marker exists and the marker can be created, [Lock] on a
    lock that is not held succeeds at once, and the [Unlock] that follows
    returns no error and gives back the lock, the regular files and the
    clock as they were before [Lock]. Directories are not part of the
    world: a lock directory that [Lock] created stays. *)
Theorem Lock_Unlock_roundtrip fl w :
  acquired fl = false ->
  mkdir_ok w (lockFile fl) = true ->
  writable w (lockFile fl) = true ->
  files w !! lockFile fl = None ->
  exists fl1 w1 w2,
    Lock fl w = (None, fl1, w1) /\
    clock w1 = clock w /\
    files w1 !! lockFile fl = Some (clock w) /\
    Unlock fl1 w1 = (None, fl, w2) /\
    files w2 = files w /\
    clock w2 = clock w.
Proof.
  intros Ha Hd Hwr Hm.
  destruct (Lock_Unlock_free fl w Ha Hd Hwr Hm) as [HL HU].
  eexists _, _, _. split_and!; [exact HL|done| |exact HU|done|done].
  cbn [with_files files]. apply lookup_insert_eq.
Qed.

(** X3: while one acquirer holds the lock it has just taken, a second
    [FileLock] for the same file cannot take it: [TryLock] reports that
    the lock is held and changes nothing, and [Lock] gives up with the
    timeout after 30 seconds, the marker of the holder still in place. *)
Theorem Lock_excludes_second_acquirer fl fl2 w :
  acquired fl = false ->
  acquired fl2 = false ->
  lockFile fl2 = lockFile fl ->
  mkdir_ok w (lockFile fl) = true ->
  writable w (lockFile fl) = true ->
  files w !! lockFile fl = None ->
  exists fl1 w1,
    Lock fl w = (None, fl1, w1) /\
    TryLock fl2 w1 = (Some errAlreadyHeld, fl2, w1) /\
    Lock fl2 w1 = (Some (errTimeout fl2), fl2, time_Sleep (30 * Second) w1) /\
    files (time_Sleep (30 * Second) w1) !! lockFile fl = Some (clock w).
Proof.
  intros Ha Ha2 Hp Hd Hwr Hm.
  exists (set_acquired fl true),
    (with_files w (<[lockFile fl := clock w]> (files w))).
  split_and!.
  - unfold Lock, os_MkdirAll_Dir, maxRetries. rewrite Ha, Hd.
    by apply Lock_loop_free.
  - unfold TryLock, os_MkdirAll_Dir, os_OpenFile_excl.
    rewrite Ha2, Hp. cbn [with_files mkdir_ok files]. rewrite Hd.
    by rewrite lookup_insert_eq.
  - apply (Lock_fresh_times_out fl2 _ (clock w)); try done.
    + by rewrite Hp.
    + rewrite Hp. cbn [with_files files]. apply lookup_insert_eq.
    + cbn [with_files clock]. change (100 * Millisecond) with 100000000.
      change (5 * Minute) with 300000000000. lia.
  - cbn [time_Sleep with_files files]. apply lookup_insert_eq.
Qed.

(** X4: an error of [Lock] other than the timeout is returned at once:
    nothing was created or removed, no time has passed, and the error is
    the held lock, the lock directory or the creation of the marker. *)
Theorem Lock_errors_without_effect fl w err fl' w' :
  Lock fl w = (Some err, fl', w') ->
  err <> errTimeout fl ->
  fl' = fl /\ w' = w /\
  (err = errAlreadyAcquired \/ err = errCreateLockDir EACCES
   \/ err = errCreateLockFile EACCES).
Proof.
  unfold Lock. destruct (acquired fl).
  { intros [= <- <- <-] _. auto. }
  unfold os_MkdirAll_Dir. destruct (mkdir_ok w (lockFile fl)).
  2:{ intros [= <- <- <-] _. auto. }
  unfold maxRetries.
  destruct (Lock_loop_turn 299 fl w)
    as [(Hm & Hwr & ->)|[(Hm & Hwr & ->)|(w1 & Hm & -> & _ & _ & _ & _ & Hw1)]].
  - done.
  - intros [= <- <- <-] _. auto.
  - intros H Hne. destruct Hne. by eapply Lock_loop_late_error.
Qed.

(** X5: [TryLock] makes one attempt: it never waits and never removes a
    marker, however old; it returns no error exactly when it created the
    marker, and then holds the lock. *)
Theorem TryLock_postcondition fl w :
  let '(err, fl', w') := TryLock fl w in
  clock w' = clock w /\
  (forall p modTime, files w !! p = Some modTime -> files w' !! p = Some modTime) /\
  (err = None <->
   acquired fl = false /\ mkdir_ok w (lockFile fl) = true /\
   files w !! lockFile fl = None /\ writable w (lockFile fl) = true) /\
  (err = None ->
   acquired fl' = true /\ files w' !! lockFile fl = Some (clock w)) /\
  (err <> None -> fl' = fl /\ w' = w) /\
  (acquired fl = false -> mkdir_ok w (lockFile fl) = true ->
   is_Some (files w !! lockFile fl) -> err = Some errAlreadyHeld).
Proof.
  unfold TryLock, os_MkdirAll_Dir, os_OpenFile_excl.
  destruct (acquired fl) eqn:Ha.
  { split_and!; try done. split; [done|]. by intros (? & _). }
  destruct (mkdir_ok w (lockFile fl)) eqn:Hd.
  2:{ split_and!; try done. split; [done|]. by intros (_ & ? & _). }
  destruct (files w !! lockFile fl) as [m|] eqn:Hm.
  { cbn [IsExist]. split_and!; try done. split; [done|]. by intros (_ & _ & ? & _). }
  destruct (writable w (lockFile fl)) eqn:Hwr.
  - cbn [with_files clock files set_acquired acquired]. split_and!; try done.
    all: try (intros p modTime Hp; rewrite lookup_insert_ne; [done|congruence]).
    all: try (intros _; by rewrite lookup_insert_eq).
    all: try (by intros _ _ [? ?]).
  - cbn [IsExist]. split_and!; try done.
    all: try (split; [done|]; by intros (_ & _ & _ & ?)).
    all: try (by intros _ _ [? ?]).
Qed.

Lemma Lock_loop_unremovable n fl w :
  is_Some (files w !! lockFile fl) ->
  writable w (lockFile fl) = false ->
  Lock_loop n fl w
  = (Some (errTimeout fl), fl, time_Sleep (Z.of_nat n * (100 * Millisecond)) w).
Proof.
  change (100 * Millisecond) with 100000000.
  revert w. induction n as [|n IH]; intros w [m Hm] Hwr.
  - cbn [Lock_loop]. by rewrite sleep_0.
  - cbn [Lock_loop]. unfold os_OpenFile_excl, os_Remove. rewrite Hm, Hwr.
    cbn [IsExist negb]. rewrite Hm. change (100 * Millisecond) with 100000000.
    assert (Lock_loop n fl (time_Sleep 100000000 w)
            = (Some (errTimeout fl), fl,
               time_Sleep (Z.of_nat (S n) * 100000000) w)) as ->.
    { rewrite IH; [|by exists m|done]. rewrite sleep_sleep. do 2 f_equal. lia. }
    by destruct (isStale fl w).
Qed.

(** X6: when the marker exists and cannot be removed, [Lock] never takes
    the lock, however old the marker: every attempt ends in the 100ms
    sleep, and after 30 seconds the timeout is returned with the file
    system unchanged. *)
Theorem Lock_unremovable_marker_times_out fl w :
  acquired fl = false ->
  mkdir_ok w (lockFile fl) = true ->
  is_Some (files w !! lockFile fl) ->
  writable w (lockFile fl) = false ->
  Lock fl w = (Some (errTimeout fl), fl, time_Sleep (30 * Second) w).
Proof.
  intros Ha Hd Hm Hwr. unfold Lock, os_MkdirAll_Dir. rewrite Ha, Hd.
  by rewrite Lock_loop_unremovable.
Qed.

(** X7: [Unlock] never moves the clock and never touches a file other
    than the marker; when it is called on a held lock and returns no
    error, no marker is left and the lock is no longer held, also when the
    marker had already disappeared. *)
Theorem Unlock_postcondition fl w :
  let '(err, fl', w') := Unlock fl w in
  clock w' = clock w /\
  lockFile fl' = lockFile fl /\
  (forall p, p <> lockFile fl -> files w' !! p = files w !! p) /\
  (acquired fl = true -> err = None ->
   acquired fl' = false /\ files w' !! lockFile fl = None) /\
  (acquired fl = true -> files w !! lockFile fl = None -> err = None).
Proof.
  unfold Unlock, os_Remove. destruct (acquired fl); cbn [negb]; [|done].
  destruct (files w !! lockFile fl) as [m|] eqn:Hm.
  - destruct (writable w (lockFile fl)); cbn [IsNotExist negb]; [|done].
    cbn [with_files clock files set_acquired acquired lockFile].
    split_and!; try done.
    + intros p Hp. by rewrite lookup_delete_ne.
    + intros _ _. split; [done|]. apply lookup_delete_eq.
  - cbn [IsNotExist negb set_acquired acquired lockFile]. done.
Qed.

Lemma Unlock_after_Lock fl w fl1 w1 :
  Lock fl w = (None, fl1, w1) ->
  Unlock fl1 w1
  = (None, fl, with_files w1 (delete (lockFile fl) (files w1))).
Proof.
  intros H. destruct (Lock_taken fl w fl1 w1 H) as (Ha & -> & Hwr & Hm).
  unfold Unlock, os_Remove. cbn [set_acquired acquired lockFile negb].
  rewrite Hm, Hwr. do 2 f_equal. destruct fl as [p a]. simpl in *. by subst a.
Qed.

(** X8: a lock that [Lock] has taken, after whatever waiting and
    removal of a stale marker, can be given back: the [Unlock] that
    follows returns no error and leaves no marker, and every other file
    is as it was before [Lock]. *)
Theorem Lock_then_Unlock_releases fl w fl1 w1 :
  Lock fl w = (None, fl1, w1) ->
  exists w2,
    Unlock fl1 w1 = (None, fl, w2) /\
    files w2 !! lockFile fl = None /\
    (forall p, p <> lockFile fl -> files w2 !! p = files w !! p) /\
    clock w2 = clock w1.
Proof.
  intros H. exists (with_files w1 (delete (lockFile fl) (files w1))).
  pose proof (Lock_keeps fl w) as Hk. rewrite H in Hk.
  destruct Hk as (_ & Hf & _).
  split_and!.
  - by apply Unlock_after_Lock with w.
  - cbn [with_files files]. apply lookup_delete_eq.
  - intros p Hp. cbn [with_files files]. rewrite lookup_delete_ne by done.
    by apply Hf.
  - done.
Qed.

End FileLockProtocol.

Section FileLockScenarios.

Import filelock.

Lemma Lock_Unlock_roundtrip_witness :
  exists fl1 w1 w2,
    Lock scenario.state_lock (scenario.permissive 0 ∅) = (None, fl1, w1) /\
    clock w1 = clock (scenario.permissive 0 ∅) /\
    files w1 !! lockFile scenario.state_lock
    = Some (clock (scenario.permissive 0 ∅)) /\
    Unlock fl1 w1 = (None, scenario.state_lock, w2) /\
    files w2 = files (scenario.permissive 0 ∅) /\
    clock w2 = clock (scenario.permissive 0 ∅).
Proof.
  apply (Lock_Unlock_roundtrip scenario.state_lock (scenario.permissive 0 ∅));
    reflexivity.
Defined.

Lemma Lock_excludes_second_acquirer_witness :
  exists fl1 w1,
    Lock scenario.state_lock (scenario.permissive 0 ∅) = (None, fl1, w1) /\
    TryLock (New "state.json") w1 = (Some errAlreadyHeld, New "state.json", w1) /\
    Lock (New "state.json") w1
    = (Some (errTimeout (New "state.json")), New "state.json",
       time_Sleep (30 * Second) w1) /\
    files (time_Sleep (30 * Second) w1) !! lockFile scenario.state_lock
    = Some (clock (scenario.permissive 0 ∅)).
Proof.
  apply (Lock_excludes_second_acquirer scenario.state_lock (New "state.json")
           (scenario.permissive 0 ∅)); reflexivity.
Defined.

Lemma Lock_errors_without_effect_witness :
  Lock scenario.state_lock (scenario.read_only (scenario.permissive 0 ∅))
  = (Some (errCreateLockFile EACCES), scenario.state_lock,
     scenario.read_only (scenario.permissive 0 ∅)) /\
  (errCreateLockFile EACCES = errAlreadyAcquired
   \/ errCreateLockFile EACCES = errCreateLockDir EACCES
   \/ errCreateLockFile EACCES = errCreateLockFile EACCES).
Proof.
  split; [reflexivity|].
  apply (Lock_errors_without_effect scenario.state_lock
           (scenario.read_only (scenario.permissive 0 ∅))
           (errCreateLockFile EACCES) scenario.state_lock
           (scenario.read_only (scenario.permissive 0 ∅))).
  - reflexivity.
  - discriminate.
Defined.

Lemma Lock_unremovable_marker_times_out_witness :
  Lock scenario.state_lock (scenario.read_only scenario.stale_marker)
  = (Some (errTimeout scenario.state_lock), scenario.state_lock,
     time_Sleep (30 * Second) (scenario.read_only scenario.stale_marker)).
Proof.
  apply (Lock_unremovable_marker_times_out scenario.state_lock
           (scenario.read_only scenario.stale_marker)).
  - reflexivity.
  - reflexivity.
  - eexists. reflexivity.
  - reflexivity.
Defined.

Lemma Lock_then_Unlock_releases_witness :
  let w1 :=
    with_files scenario.stale_marker
      {["state.json.lock" := clock scenario.stale_marker]} in
  exists w2,
    Unlock (set_acquired scenario.state_lock true) w1
    = (None, scenario.state_lock, w2) /\
    files w2 !! lockFile scenario.state_lock = None /\
    (forall p, p <> lockFile scenario.state_lock ->
       files w2 !! p = files scenario.stale_marker !! p) /\
    clock w2 = clock w1.
Proof.
  apply (Lock_then_Unlock_releases scenario.state_lock scenario.stale_marker).
  reflexivity.
Defined.

End FileLockScenarios.


Section Routes.

Context {IPNet Template Regexp : Type}.
Implicit Types bc : CaptchaProtect IPNet Template Regexp.
Variable regexp_MatchString : Regexp -> string -> bool.

(** The three matchers share one loop: a candidate that matches protects
    the path when no exclusion matches and the extension allows it. *)
Lemma matcher_loop {R} (matches : R -> bool) (excluded allowed : bool)
    (loop : list R -> bool) :
  loop [] = false ->
  (forall route rest,
     loop (route :: rest)
     = if negb (matches route) then loop rest
       else if excluded then loop rest
       else if allowed then true else loop rest) ->
  forall routes,
    loop routes = true
    <-> (exists route, In route routes /\ matches route = true)
        /\ excluded = false /\ allowed = true.
Proof.
  intros Hnil Hcons routes. induction routes as [|route rest IH].
  - rewrite Hnil. split; [done|]. by intros [(? & [] & _) _].
  - rewrite Hcons. destruct (matches route) eqn:Hm; cbn [negb].
    + destruct excluded.
      * rewrite IH. split; [by intros (_ & ? & _)|by intros (_ & ? & _)].
      * destruct allowed.
        -- split; [|done]. intros _. split_and!; try done.
           exists route. split; [by left|done].
        -- rewrite IH. split; [by intros (_ & _ & ?)|by intros (_ & _ & ?)].
    + rewrite IH. split.
      * intros ((r & Hin & Hr) & He & Ha). split_and!; try done.
        exists r. split; [by right|done].
      * intros ((r & [->|Hin] & Hr) & He & Ha); [congruence|].
        split_and!; try done. by exists r.
Qed.

(** X9: [RouteIsProtectedPrefix] protects a path exactly when some
    protected route is a prefix of it, no excluded route is a prefix of it,
    and its extension is empty or listed; the order of the routes is
    immaterial. *)
Theorem RouteIsProtectedPrefix_iff bc path :
  RouteIsProtectedPrefix bc path = true
  <-> (exists route,
         In route (ProtectRoutes (config bc))
         /\ strings.HasPrefix path route = true)
      /\ existsb (fun eRoute => strings.HasPrefix path eRoute)
           (ExcludeRoutes (config bc)) = false
      /\ extension_protected bc path = true.
Proof.
  unfold RouteIsProtectedPrefix.
  apply (matcher_loop (fun route => strings.HasPrefix path route)); done.
Qed.

(** X10: [RouteIsProtectedSuffix] protects a path exactly when the path
    with its extension cut off ends with some protected route and begins
    with no excluded route, and the extension of the path is empty or
    listed: routes are matched at the end, exclusions at the start. *)
Theorem RouteIsProtectedSuffix_iff bc path :
  let cleanPath :=
    if String.eqb (filepath.Ext path) "" then path
    else strings.TrimSuffix path (filepath.Ext path) in
  RouteIsProtectedSuffix bc path = true
  <-> (exists route,
         In route (ProtectRoutes (config bc))
         /\ strings.HasSuffix cleanPath route = true)
      /\ existsb (fun eRoute => strings.HasPrefix cleanPath eRoute)
           (ExcludeRoutes (config bc)) = false
      /\ extension_protected bc path = true.
Proof.
  cbv zeta. unfold RouteIsProtectedSuffix.
  apply (matcher_loop
           (fun route =>
              strings.HasSuffix
                (if String.eqb (filepath.Ext path) "" then path
                 else strings.TrimSuffix path (filepath.Ext path)) route)).
  - done.
  - intros route rest. cbn [RouteIsProtectedSuffix_from].
    by destruct (String.eqb (filepath.Ext path) "").
Qed.

(** X11: [RouteIsProtectedRegex] protects a path exactly when some
    protected pattern matches it, no excluded pattern matches it, and its
    extension is empty or listed. *)
Theorem RouteIsProtectedRegex_iff bc path :
  RouteIsProtectedRegex regexp_MatchString bc path = true
  <-> (exists routeRegex,
         In routeRegex (protectRoutesRegex bc)
         /\ regexp_MatchString routeRegex path = true)
      /\ existsb (fun excludeRegex => regexp_MatchString excludeRegex path)
           (excludeRoutesRegex bc) = false
      /\ extension_protected bc path = true.
Proof.
  unfold RouteIsProtectedRegex.
  apply (matcher_loop (fun routeRegex => regexp_MatchString routeRegex path)); done.
Qed.

End Routes.


Section Rate.

Context {IPNet Template Regexp : Type}.
Implicit Types bc : CaptchaProtect IPNet Template Regexp.

Lemma botCache_notify bc : botCache (notifyStateChange bc) = botCache bc.
Proof. unfold notifyStateChange. by destruct (stateChanged bc). Qed.

(** X12: the window of a counter is fixed by the request that opens it:
    [registerRequest] on a live counter adds one (modulo 2^64) and keeps
    its expiration, and on an absent or expired counter starts again at 1
    with the full window from now. *)
Theorem registerRequest_window bc ip now :
  match lru.items (rateCache bc) !! ip with
  | Some it =>
      if lru.Expired it now
      then lru.items (rateCache (registerRequest bc ip now)) !! ip
           = Some (lru.mkItem 1 (first_expiration (rateCache bc) now))
      else lru.items (rateCache (registerRequest bc ip now)) !! ip
           = Some (lru.mkItem (uint_wrap (lru.Object it + 1)) (lru.Expiration it))
  | None =>
      lru.items (rateCache (registerRequest bc ip now)) !! ip
      = Some (lru.mkItem 1 (first_expiration (rateCache bc) now))
  end.
Proof.
  unfold registerRequest, lru.Add, lru.Get, lru.IncrementUint.
  destruct (lru.items (rateCache bc) !! ip) as [it|] eqn:Hit.
  - destruct (lru.Expired it now); rewrite rateCache_notify;
      cbn [set_rateCache rateCache lru.Set_ lru.items]; apply lookup_insert_eq.
  - rewrite rateCache_notify. cbn [set_rateCache rateCache lru.Set_ lru.items].
    apply lookup_insert_eq.
Qed.

(** X13: [registerRequest] touches the counter of the given subnet only:
    the configuration, the other two caches, the window and every other
    counter are as before, and afterwards the subnet has a live
    counter. *)
Theorem registerRequest_frame bc ip now :
  let bc' := registerRequest bc ip now in
  config bc' = config bc /\
  botCache bc' = botCache bc /\
  verifiedCache bc' = verifiedCache bc /\
  lru.defaultExpiration (rateCache bc') = lru.defaultExpiration (rateCache bc) /\
  (forall other, other <> ip ->
     lru.items (rateCache bc') !! other = lru.items (rateCache bc) !! other) /\
  is_Some (lru.Get (rateCache bc') ip now).
Proof.
  cbv zeta. unfold registerRequest, lru.Add, lru.Get, lru.IncrementUint.
  destruct (lru.items (rateCache bc) !! ip) as [it|] eqn:Hit.
  - destruct (lru.Expired it now) eqn:He.
    + rewrite config_notify, botCache_notify, verifiedCache_notify, rateCache_notify.
      cbn [set_rateCache rateCache config botCache verifiedCache lru.Set_
             lru.items lru.defaultExpiration].
      split_and!; try done.
      * intros other Ho. by rewrite lookup_insert_ne.
      * rewrite lookup_insert_eq.
        change (lru.DefaultExpiration =? lru.DefaultExpiration) with true. cbv iota.
        fold (first_expiration (rateCache bc) now).
        rewrite within_not_expired; [by eexists|].
        unfold within_window. lia.
    + rewrite config_notify, botCache_notify, verifiedCache_notify, rateCache_notify.
      cbn [set_rateCache rateCache config botCache verifiedCache lru.items
             lru.defaultExpiration].
      split_and!; try done.
      * intros other Ho. by rewrite lookup_insert_ne.
      * rewrite lookup_insert_eq.
        unfold lru.Expired in *. cbn [lru.Expiration lru.Object] in *.
        rewrite He. by eexists.
  - rewrite config_notify, botCache_notify, verifiedCache_notify, rateCache_notify.
    cbn [set_rateCache rateCache config botCache verifiedCache lru.Set_
           lru.items lru.defaultExpiration].
    split_and!; try done.
    + intros other Ho. by rewrite lookup_insert_ne.
    + rewrite lookup_insert_eq.
      change (lru.DefaultExpiration =? lru.DefaultExpiration) with true. cbv iota.
      fold (first_expiration (rateCache bc) now).
      rewrite within_not_expired; [by eexists|].
      unfold within_window. lia.
Qed.

(** Loading entries one by one with the default expiration. *)
Lemma foldl_Set_lookup {V} (l : list (string * V)) (c : lru.Cache V) now k :
  NoDup l.*1 ->
  lru.defaultExpiration
    (foldl (fun c e => lru.Set_ c (fst e) (snd e) lru.DefaultExpiration now) c l)
  = lru.defaultExpiration c /\
  lru.items
    (foldl (fun c e => lru.Set_ c (fst e) (snd e) lru.DefaultExpiration now) c l)
    !! k
  = match (list_to_map l : gmap string V) !! k with
    | Some v => Some (lru.mkItem v (first_expiration c now))
    | None => lru.items c !! k
    end.
Proof.
  revert c. induction l as [|[k0 v0] l IH]; intros c Hnd.
  - simpl. by rewrite lookup_empty.
  - apply NoDup_cons in Hnd as [Hk Hnd]. simpl in Hk.
    cbn [foldl fst snd]. destruct (IH (lru.Set_ c k0 v0 lru.DefaultExpiration now) Hnd)
      as [IHd IHi].
    rewrite IHd, IHi. split; [done|].
    cbn [list_to_map foldr uncurry fst snd].
    destruct (decide (k0 = k)) as [->|Hne].
    + rewrite lookup_insert_eq, (not_elem_of_list_to_map_1 l k) by done.
      cbn [lru.Set_ lru.items]. by rewrite lookup_insert_eq.
    + rewrite (lookup_insert_ne _ k0 k) by done.
      destruct (list_to_map l !! k); [done|].
      cbn [lru.Set_ lru.items]. by rewrite lookup_insert_ne.
Qed.

Lemma range_Set_lookup {V} (m : gmap string V) (c : lru.Cache V) now k :
  lru.defaultExpiration
    (range m (fun c e => lru.Set_ c (fst e) (snd e) lru.DefaultExpiration now) c)
  = lru.defaultExpiration c /\
  lru.items
    (range m (fun c e => lru.Set_ c (fst e) (snd e) lru.DefaultExpiration now) c)
    !! k
  = match m !! k with
    | Some v => Some (lru.mkItem v (first_expiration c now))
    | None => lru.items c !! k
    end.
Proof.
  unfold range.
  destruct (foldl_Set_lookup (map_to_list m) c now k) as [Hd Hi].
  { apply NoDup_fst_map_to_list. }
  by rewrite Hd, Hi, list_to_map_to_list.
Qed.

(** The three caches after [loadState]. *)
Lemma loadState_items bc (st : state.State) now k :
  let bc' := loadState bc (Some st) now in
  lru.items (rateCache bc') !! k
  = match state.entries (state.Rate st) !! k with
    | Some v => Some (lru.mkItem v (first_expiration (rateCache bc) now))
    | None => lru.items (rateCache bc) !! k
    end /\
  lru.items (botCache bc') !! k
  = match state.entries (state.Bots st) !! k with
    | Some v => Some (lru.mkItem v (first_expiration (botCache bc) now))
    | None => lru.items (botCache bc) !! k
    end /\
  lru.items (verifiedCache bc') !! k
  = match state.entries (state.Verified st) !! k with
    | Some v => Some (lru.mkItem v (first_expiration (verifiedCache bc) now))
    | None => lru.items (verifiedCache bc) !! k
    end.
Proof.
  cbv zeta. unfold loadState.
  cbn [set_rateCache set_botCache set_verifiedCache rateCache botCache
         verifiedCache].
  split_and!; apply range_Set_lookup.
Qed.

Lemma config_loadState bc loaded now : config (loadState bc loaded now) = config bc.
Proof. by destruct loaded. Qed.

(** X14: the loops of [loadState] overwrite: every entry of the loaded
    snapshot replaces the entry of the cache with a full window from the
    time of loading, whatever expiration it had when it was saved, and
    entries that the snapshot does not mention are kept. *)
Theorem loadState_lookup bc (st : state.State) now k :
  let bc' := loadState bc (Some st) now in
  lru.items (rateCache bc') !! k
  = match state.entries (state.Rate st) !! k with
    | Some v => Some (lru.mkItem v (first_expiration (rateCache bc) now))
    | None => lru.items (rateCache bc) !! k
    end /\
  lru.items (botCache bc') !! k
  = match state.entries (state.Bots st) !! k with
    | Some v => Some (lru.mkItem v (first_expiration (botCache bc) now))
    | None => lru.items (botCache bc) !! k
    end /\
  lru.items (verifiedCache bc') !! k
  = match state.entries (state.Verified st) !! k with
    | Some v => Some (lru.mkItem v (first_expiration (verifiedCache bc) now))
    | None => lru.items (verifiedCache bc) !! k
    end /\
  config bc' = config bc /\ stateChanged bc' = stateChanged bc.
Proof.
  cbv zeta. unfold loadState.
  cbn [set_rateCache set_botCache set_verifiedCache rateCache botCache
         verifiedCache config stateChanged].
  split_and!; try done.
  - apply range_Set_lookup.
  - apply range_Set_lookup.
  - apply range_Set_lookup.
Qed.

End Rate.


Section Apply.

Context {IPNet Template Regexp : Type}.
Implicit Types bc : CaptchaProtect IPNet Template Regexp.
Variable regexp_MatchString : Regexp -> string -> bool.
Variable helper_IsIpExcluded : string -> list IPNet -> bool.
Variable helper_IsIpGoodBot : string -> list string -> bool.

Lemma fields_notify bc :
  exemptIps (notifyStateChange bc) = exemptIps bc /\
  protectRoutesRegex (notifyStateChange bc) = protectRoutesRegex bc /\
  excludeRoutesRegex (notifyStateChange bc) = excludeRoutesRegex bc.
Proof. unfold notifyStateChange. by destruct (stateChanged bc). Qed.

(** [isGoodBot] changes the bot cache only, and in it the entry of the
    client only. *)
Lemma isGoodBot_frame bc req clientIP now :
  let '(bot, bc') := isGoodBot helper_IsIpGoodBot bc req clientIP now in
  config bc' = config bc /\
  rateCache bc' = rateCache bc /\
  verifiedCache bc' = verifiedCache bc /\
  exemptIps bc' = exemptIps bc /\
  protectRoutesRegex bc' = protectRoutesRegex bc /\
  excludeRoutesRegex bc' = excludeRoutesRegex bc /\
  (forall other, other <> clientIP ->
     lru.items (botCache bc') !! other = lru.items (botCache bc) !! other).
Proof.
  unfold isGoodBot.
  destruct (String.eqb _ _ && _); [by split_and!|].
  destruct (lru.Get (botCache bc) clientIP now); [by split_and!|].
  rewrite config_notify, rateCache_notify, verifiedCache_notify, botCache_notify.
  destruct (fields_notify
              (set_botCache bc
                 (lru.Set_ (botCache bc) clientIP
                    (helper_IsIpGoodBot clientIP (GoodBots (config bc)))
                    lru.DefaultExpiration now))) as (-> & -> & ->).
  cbn [set_botCache config rateCache verifiedCache botCache exemptIps
         protectRoutesRegex excludeRoutesRegex lru.Set_ lru.items].
  split_and!; try done. intros other Ho. by rewrite lookup_insert_ne.
Qed.

(** The route matchers read the configuration and the compiled routes
    only. *)
Lemma RouteIsProtectedPrefix_config bc bc' path :
  config bc' = config bc ->
  RouteIsProtectedPrefix bc' path = RouteIsProtectedPrefix bc path.
Proof.
  intros Hc. unfold RouteIsProtectedPrefix. rewrite Hc.
  generalize (ProtectRoutes (config bc)). intros routes.
  induction routes as [|r rs IH]; [done|].
  cbn [RouteIsProtectedPrefix_from]. unfold extension_protected.
  by rewrite Hc, IH.
Qed.

Lemma RouteIsProtectedSuffix_config bc bc' path :
  config bc' = config bc ->
  RouteIsProtectedSuffix bc' path = RouteIsProtectedSuffix bc path.
Proof.
  intros Hc. unfold RouteIsProtectedSuffix. rewrite Hc.
  generalize (ProtectRoutes (config bc)). intros routes.
  induction routes as [|r rs IH]; [done|].
  cbn [RouteIsProtectedSuffix_from]. unfold extension_protected.
  by rewrite Hc, IH.
Qed.

Lemma RouteIsProtectedRegex_config bc bc' path :
  config bc' = config bc ->
  protectRoutesRegex bc' = protectRoutesRegex bc ->
  excludeRoutesRegex bc' = excludeRoutesRegex bc ->
  RouteIsProtectedRegex regexp_MatchString bc' path
  = RouteIsProtectedRegex regexp_MatchString bc path.
Proof.
  intros Hc Hp He. unfold RouteIsProtectedRegex. rewrite Hp.
  generalize (protectRoutesRegex bc). intros routes.
  induction routes as [|r rs IH]; [done|].
  cbn [RouteIsProtectedRegex_from]. unfold extension_protected.
  by rewrite Hc, He, IH.
Qed.

(** X15: [shouldApply] exempts a request at once, before any bot lookup
    and without changing the middleware, when its method is not protected,
    when the client has a live verification, or when the client address is
    exempt. *)
Theorem shouldApply_exemptions bc req clientIP now :
  existsb (String.eqb (Method req)) (ProtectHttpMethods (config bc)) = false
  \/ is_Some (lru.Get (verifiedCache bc) clientIP now)
  \/ helper_IsIpExcluded clientIP (exemptIps bc) = true ->
  shouldApply regexp_MatchString helper_IsIpExcluded helper_IsIpGoodBot
    bc req clientIP now = (false, bc).
Proof.
  unfold shouldApply. intros [Hm|[[v Hv]|He]].
  - by rewrite Hm.
  - destruct (negb _); [done|]. by rewrite Hv.
  - destruct (negb _); [done|].
    destruct (lru.Get (verifiedCache bc) clientIP now); [done|]. by rewrite He.
Qed.

(** What [shouldApply] leaves as it was, and what a positive verdict
    went through. *)
Lemma shouldApply_keeps bc req clientIP now :
  let '(applies, bc') :=
    shouldApply regexp_MatchString helper_IsIpExcluded helper_IsIpGoodBot
      bc req clientIP now in
  config bc' = config bc /\
  rateCache bc' = rateCache bc /\
  verifiedCache bc' = verifiedCache bc /\
  (forall other, other <> clientIP ->
     lru.items (botCache bc') !! other = lru.items (botCache bc) !! other) /\
  (applies = true ->
   In (Method req) (ProtectHttpMethods (config bc)) /\
   lru.Get (verifiedCache bc) clientIP now = None /\
   helper_IsIpExcluded clientIP (exemptIps bc) = false /\
   fst (isGoodBot helper_IsIpGoodBot bc req clientIP now) = false /\
   isGoodUserAgent bc (UserAgent req) = false /\
   (if String.eqb (Mode (config bc)) "regex"
    then RouteIsProtectedRegex regexp_MatchString bc (Path req)
    else if String.eqb (Mode (config bc)) "suffix"
    then RouteIsProtectedSuffix bc (Path req)
    else RouteIsProtectedPrefix bc (Path req)) = true).
Proof.
  unfold shouldApply.
  destruct (existsb (String.eqb (Method req)) (ProtectHttpMethods (config bc)))
    eqn:Hm; cbn [negb]; [|by split_and!].
  destruct (lru.Get (verifiedCache bc) clientIP now) eqn:Hv; [by split_and!|].
  destruct (helper_IsIpExcluded clientIP (exemptIps bc)) eqn:He; [by split_and!|].
  pose proof (isGoodBot_frame bc req clientIP now) as Hf.
  destruct (isGoodBot helper_IsIpGoodBot bc req clientIP now) as [bot bc1].
  destruct Hf as (Hc & Hr & Hvc & Hex & Hpr & Her & Hb).
  assert (isGoodUserAgent bc1 (UserAgent req) = isGoodUserAgent bc (UserAgent req))
    as Hua by (unfold isGoodUserAgent; by rewrite Hc).
  rewrite (RouteIsProtectedPrefix_config bc bc1) by done.
  rewrite (RouteIsProtectedSuffix_config bc bc1) by done.
  rewrite (RouteIsProtectedRegex_config bc bc1) by done.
  rewrite Hua, Hc.
  assert (In (Method req) (ProtectHttpMethods (config bc))) as Hin.
  { apply existsb_exists in Hm as (x & Hin & ->%String.eqb_eq). done. }
  destruct bot; [by split_and!|].
  destruct (isGoodUserAgent bc (UserAgent req)); [by split_and!|].
  destruct (String.eqb (Mode (config bc)) "regex"); [by split_and!|].
  destruct (String.eqb (Mode (config bc)) "suffix"); by split_and!.
Qed.

(** X16: [shouldApply] changes nothing but the bot verdict memoized for
    the client; a positive verdict means that the method is protected,
    the client is neither verified nor exempt nor a good bot, its user
    agent is not exempt, and the matcher of the configured mode protects
    the path. *)
Theorem shouldApply_frame bc req clientIP now :
  let '(applies, bc') :=
    shouldApply regexp_MatchString helper_IsIpExcluded helper_IsIpGoodBot
      bc req clientIP now in
  config bc' = config bc /\
  rateCache bc' = rateCache bc /\
  verifiedCache bc' = verifiedCache bc /\
  (forall other, other <> clientIP ->
     lru.items (botCache bc') !! other = lru.items (botCache bc) !! other) /\
  (applies = true ->
   In (Method req) (ProtectHttpMethods (config bc)) /\
   lru.Get (verifiedCache bc) clientIP now = None /\
   helper_IsIpExcluded clientIP (exemptIps bc) = false /\
   fst (isGoodBot helper_IsIpGoodBot bc req clientIP now) = false /\
   isGoodUserAgent bc (UserAgent req) = false /\
   (if String.eqb (Mode (config bc)) "regex"
    then RouteIsProtectedRegex regexp_MatchString bc (Path req)
    else if String.eqb (Mode (config bc)) "suffix"
    then RouteIsProtectedSuffix bc (Path req)
    else RouteIsProtectedPrefix bc (Path req)) = true).
Proof. apply shouldApply_keeps. Qed.

End Apply.


Lemma QueryEscape_byte c rest :
  url.well_escaped (url.QueryEscape (String c rest))
  = url.well_escaped (url.QueryEscape rest) /\
  url.decode (url.QueryEscape (String c rest))
  = String c (url.decode (url.QueryEscape rest)).
Proof. destruct c as [[] [] [] [] [] [] [] []]; split; reflexivity. Qed.

Lemma QueryUnescape_QueryEscape s : url.QueryUnescape (url.QueryEscape s) = Some s.
Proof.
  unfold url.QueryUnescape. induction s as [|c s IH]; [done|].
  destruct (QueryEscape_byte c s) as [-> ->].
  destruct (url.well_escaped (url.QueryEscape s)); [|done]. by injection IH as ->.
Qed.

Lemma QueryEscape_empty s : String.eqb (url.QueryEscape s) "" = String.eqb s "".
Proof.
  destruct s as [|c s]; [done|]. cbn [url.QueryEscape].
  destruct (url.shouldEscape c); [destruct (Ascii.eqb c " ")|]; done.
Qed.

Section Serve.

Context {IPNet Template Regexp : Type}.
Implicit Types bc : CaptchaProtect IPNet Template Regexp.
Variable regexp_MatchString : Regexp -> string -> bool.
Variable helper_IsIpExcluded : string -> list IPNet -> bool.
Variable helper_IsIpGoodBot : string -> list string -> bool.
Variable IP : Type.
Variable net_ParseIP : string -> option IP.
Variable IP_To4 : IP -> bool.
Variable IP_To16 : IP -> bool.
Variable IP_Mask : IP -> option IPMask -> IP.
Variable IP_String : IP -> string.
Variable net_SplitHostPort : string -> string.
Variable template_Execute : Template -> list (string * string) -> bool.
Variable state_GetState :
  gmap string (lru.Item Z) -> gmap string (lru.Item bool) ->
  gmap string (lru.Item bool) -> state.State.
Variable json_Marshal : state.State -> option string.
Variable json_Unmarshal : string -> option state.State.
Variable http_PostForm : PostForm -> ProviderOutcome.

(** The loop of [getClientIP] walks the addresses that are not exempt. *)
Lemma forwardedFor_candidates bc components depth :
  forwardedFor helper_IsIpExcluded bc components depth
  = (if depth <? 0 then ""
     else nth (Z.to_nat depth)
            (List.filter (fun ip => negb (helper_IsIpExcluded ip (exemptIps bc)))
               (map strings.TrimSpace components)) "").
Proof.
  revert depth. induction components as [|c cs IH]; intros depth.
  - cbn [forwardedFor map List.filter]. destruct (depth <? 0); [done|].
    by destruct (Z.to_nat depth).
  - cbn [forwardedFor map List.filter].
    destruct (helper_IsIpExcluded (strings.TrimSpace c) (exemptIps bc));
      cbn [negb]; [apply IH|].
    destruct (Z.eqb_spec depth 0) as [->|Hd]; [done|].
    rewrite IH. destruct (Z.ltb_spec depth 0) as [Hlt|Hge].
    + by rewrite (proj2 (Z.ltb_lt (depth - 1) 0)) by lia.
    + rewrite (proj2 (Z.ltb_ge (depth - 1) 0)) by lia.
      replace (Z.to_nat depth) with (S (Z.to_nat (depth - 1))) by lia. done.
Qed.


(** X18: [getClientIP] falls back to the remote address of the connection
    when no header is configured, when the header is absent, when every
    address of the header is exempt, or when the depth is negative. *)
Theorem getClientIP_fallback bc tr :
  IPForwardedHeader (config bc) = ""
  \/ Forwarded tr = ""
  \/ (forall component, In component (strings.Split (Forwarded tr) ",") ->
        helper_IsIpExcluded (strings.TrimSpace component) (exemptIps bc) = true)
  \/ IPDepth (config bc) < 0 ->
  getClientIP helper_IsIpExcluded IP net_ParseIP IP_To4 IP_To16 IP_Mask IP_String
    net_SplitHostPort bc tr
  = ParseIp IP net_ParseIP IP_To4 IP_To16 IP_Mask IP_String bc
      (if strings.ContainsByte (RemoteAddr tr) ":"
       then net_SplitHostPort (RemoteAddr tr) else RemoteAddr tr).
Proof.
  unfold getClientIP. intros [Hh|[Hf|H]].
  - by rewrite Hh.
  - rewrite Hf. by rewrite andb_false_r.
  - destruct (negb (String.eqb (IPForwardedHeader (config bc)) "")
              && negb (String.eqb (Forwarded tr) "")); [|done].
    assert (forwardedFor helper_IsIpExcluded bc
              (rev (strings.Split (Forwarded tr) ",")) (IPDepth (config bc)) = "")
      as ->; [|done].
    rewrite forwardedFor_candidates. destruct H as [Hall|Hneg].
    + destruct (IPDepth (config bc) <? 0); [done|].
      assert (List.filter
                (fun ip => negb (helper_IsIpExcluded ip (exemptIps bc)))
                (map strings.TrimSpace (rev (strings.Split (Forwarded tr) ",")))
              = []) as ->; [|by destruct (Z.to_nat _)].
      assert (forall component,
                In component (rev (strings.Split (Forwarded tr) ",")) ->
                helper_IsIpExcluded (strings.TrimSpace component) (exemptIps bc)
                = true) as Hrev.
      { intros c Hc. apply Hall. by apply in_rev. }
      induction (rev (strings.Split (Forwarded tr) ",")) as [|c cs IH]; [done|].
      cbn [map List.filter]. rewrite (Hrev c) by (by left). cbn [negb].
      apply IH. intros c' Hc'. apply Hrev. by right.
    + by rewrite (proj2 (Z.ltb_lt _ _) Hneg).
Qed.

(** After an accepted challenge the end of [ServeHTTP] hands the client
    to the next handler. *)
Lemma protect_verified bc req ip now req' tr ipRange t :
  FormValue req (key (captchaConfig bc) +:+ "-response") <> "" ->
  http_PostForm
    (mkPostForm (validate (captchaConfig bc))
       [("secret", SecretKey (config bc));
        ("response", FormValue req (key (captchaConfig bc) +:+ "-response"))])
  = Decoded true ->
  within_window (verifiedCache bc) now t ->
  let bc1 := after (verifyChallengePage http_PostForm bc req ip now) in
  rateCache bc1 = rateCache bc /\
  protect regexp_MatchString helper_IsIpExcluded helper_IsIpGoodBot
    template_Execute bc1 req' tr ip ipRange t = (Next, bc1).
Proof.
  intros Ht Hp Hw. cbv zeta. unfold verifyChallengePage.
  destruct (String.eqb_spec
              (FormValue req (key (captchaConfig bc) +:+ "-response")) "")
    as [|_]; [done|].
  rewrite Hp. cbn [after]. split; [by rewrite rateCache_notify|].
  unfold protect, shouldApply.
  destruct (negb _); [done|].
  rewrite verifiedCache_notify. cbn [set_verifiedCache verifiedCache].
  unfold lru.Get, lru.Set_. cbn [lru.items]. rewrite lookup_insert_eq.
  change (lru.DefaultExpiration =? lru.DefaultExpiration) with true. cbv iota.
  fold (first_expiration (verifiedCache bc) now).
  by rewrite within_not_expired.
Qed.

(** The rate counters are not touched by [verifyChallengePage]. *)
Lemma verifyChallengePage_rateCache bc req ip now :
  rateCache (after (verifyChallengePage http_PostForm bc req ip now))
  = rateCache bc.
Proof.
  unfold verifyChallengePage.
  destruct (String.eqb _ ""); [done|].
  destruct (http_PostForm _) as [| |[]]; cbn [after]; try done.
  by rewrite rateCache_notify.
Qed.

(** What a challenge from the end of [ServeHTTP] went through. *)
Lemma protect_challenged bc req tr clientIP ipRange now served bc' :
  protect regexp_MatchString helper_IsIpExcluded helper_IsIpGoodBot
    template_Execute bc req tr clientIP ipRange now = (served, bc') ->
  served <> Next ->
  In (Method req) (ProtectHttpMethods (config bc)) /\
  lru.Get (verifiedCache bc) clientIP now = None /\
  helper_IsIpExcluded clientIP (exemptIps bc) = false /\
  fst (isGoodBot helper_IsIpGoodBot bc req clientIP now) = false /\
  isGoodUserAgent bc (UserAgent req) = false /\
  (if String.eqb (Mode (config bc)) "regex"
   then RouteIsProtectedRegex regexp_MatchString bc (Path req)
   else if String.eqb (Mode (config bc)) "suffix"
   then RouteIsProtectedSuffix bc (Path req)
   else RouteIsProtectedPrefix bc (Path req)) = true /\
  (exists count,
     lru.Get (rateCache bc') ipRange now = Some count /\
     RateLimit (config bc) < count) /\
  served
  = (if ChallengeOnPage bc
     then serveChallengePage template_Execute bc' (url.QueryEscape (RequestURI tr))
     else Wrote (http_Redirect
                   (ChallengeURL (config bc) +:+ "?destination="
                    +:+ url.QueryEscape (RequestURI tr)) StatusFound)).
Proof.
  unfold protect.
  pose proof (shouldApply_keeps regexp_MatchString helper_IsIpExcluded
                helper_IsIpGoodBot bc req clientIP now) as Hf.
  destruct (shouldApply _ _ _ bc req clientIP now) as [applies bc1].
  destruct Hf as (Hc & _ & _ & _ & Happ).
  destruct applies; cbn [negb]; [|by intros [= <- <-]].
  destruct (Happ eq_refl) as (H1 & H2 & H3 & H4 & H5 & H6).
  destruct (trippedRateLimit (registerRequest bc1 ipRange now) ipRange now) eqn:Htr;
    cbn [negb]; [|by intros [= <- <-]].
  assert (exists count,
            lru.Get (rateCache (registerRequest bc1 ipRange now)) ipRange now
            = Some count /\ RateLimit (config bc) < count) as Hcount.
  { unfold trippedRateLimit in Htr. rewrite config_registerRequest, Hc in Htr.
    destruct (lru.Get _ ipRange now) as [v|]; [|done].
    exists v. split; [done|]. by apply Z.ltb_lt. }
  unfold ChallengeOnPage. rewrite !config_registerRequest, Hc.
  destruct (String.eqb (ChallengeURL (config bc)) "?challenge=true");
    intros [= <- <-] _; by split_and!.
Qed.

(** The requests that [ServeHTTP] answers neither as a challenge endpoint
    nor as the statistics page go through [shouldApply] and the rate
    limit. *)
Lemma serve_reaches_protect bc req tr now :
  (ChallengeOnPage bc && String.eqb (Method req) "POST" = true
   /\ QueryGet req "challenge" = "")
  \/ (ChallengeOnPage bc && String.eqb (Method req) "POST" = false
      /\ Path req <> ChallengeURL (config bc)
      /\ String.eqb (Path req) "/captcha-protect/stats"
         && String.eqb (EnableStatsPage (config bc)) "true" = false) ->
  serve regexp_MatchString helper_IsIpExcluded helper_IsIpGoodBot IP
    net_ParseIP IP_To4 IP_To16 IP_Mask IP_String net_SplitHostPort
    template_Execute state_GetState json_Marshal http_PostForm bc req tr now
  = protect regexp_MatchString helper_IsIpExcluded helper_IsIpGoodBot
      template_Execute bc req tr
      (fst (getClientIP helper_IsIpExcluded IP net_ParseIP IP_To4 IP_To16
              IP_Mask IP_String net_SplitHostPort bc tr))
      (snd (getClientIP helper_IsIpExcluded IP net_ParseIP IP_To4 IP_To16
              IP_Mask IP_String net_SplitHostPort bc tr)) now.
Proof.
  unfold serve.
  destruct (getClientIP _ _ _ _ _ _ _ _ bc tr) as [clientIP ipRange].
  cbn [fst snd]. intros [(Hp & Hq)|(Hp & Hu & Hs)].
  - by rewrite Hp, Hq.
  - rewrite Hp, Hs.
    by destruct (String.eqb_spec (Path req) (ChallengeURL (config bc))).
Qed.

(** A verified client in [ServeHTTP] after the reload of the state. *)
Lemma serve_verified bc req ip now req' tr t :
  FormValue req (key (captchaConfig bc) +:+ "-response") <> "" ->
  http_PostForm
    (mkPostForm (validate (captchaConfig bc))
       [("secret", SecretKey (config bc));
        ("response", FormValue req (key (captchaConfig bc) +:+ "-response"))])
  = Decoded true ->
  within_window (verifiedCache bc) now t ->
  let bc1 := after (verifyChallengePage http_PostForm bc req ip now) in
  fst (getClientIP helper_IsIpExcluded IP net_ParseIP IP_To4 IP_To16 IP_Mask
         IP_String net_SplitHostPort bc1 tr) = ip ->
  rateCache
    (snd (serve regexp_MatchString helper_IsIpExcluded helper_IsIpGoodBot IP
            net_ParseIP IP_To4 IP_To16 IP_Mask IP_String net_SplitHostPort
            template_Execute state_GetState json_Marshal http_PostForm
            bc1 req' tr t))
  = rateCache bc /\
  ((ChallengeOnPage bc1 && String.eqb (Method req') "POST" = true
    /\ QueryGet req' "challenge" = "")
   \/ (ChallengeOnPage bc1 && String.eqb (Method req') "POST" = false
       /\ Path req' <> ChallengeURL (config bc1)
       /\ String.eqb (Path req') "/captcha-protect/stats"
          && String.eqb (EnableStatsPage (config bc1)) "true" = false) ->
   serve regexp_MatchString helper_IsIpExcluded helper_IsIpGoodBot IP
     net_ParseIP IP_To4 IP_To16 IP_Mask IP_String net_SplitHostPort
     template_Execute state_GetState json_Marshal http_PostForm bc1 req' tr t
   = (Next, bc1)).
Proof.
  intros Ht Hp Hw. cbv zeta. intros Hip.
  pose proof (protect_verified bc req ip now req' tr
                (snd (getClientIP helper_IsIpExcluded IP net_ParseIP IP_To4
                        IP_To16 IP_Mask IP_String net_SplitHostPort
                        (after (verifyChallengePage http_PostForm bc req ip now))
                        tr)) t Ht Hp Hw) as [Hrate Hnext].
  cbv zeta in Hrate, Hnext.
  assert (forall reach,
            serve regexp_MatchString helper_IsIpExcluded helper_IsIpGoodBot IP
              net_ParseIP IP_To4 IP_To16 IP_Mask IP_String net_SplitHostPort
              template_Execute state_GetState json_Marshal http_PostForm
              (after (verifyChallengePage http_PostForm bc req ip now)) req' tr t
            = protect regexp_MatchString helper_IsIpExcluded helper_IsIpGoodBot
                template_Execute
                (after (verifyChallengePage http_PostForm bc req ip now)) req' tr
                (fst (getClientIP helper_IsIpExcluded IP net_ParseIP IP_To4
                        IP_To16 IP_Mask IP_String net_SplitHostPort
                        (after (verifyChallengePage http_PostForm bc req ip now))
                        tr)) reach t ->
            reach = snd (getClientIP helper_IsIpExcluded IP net_ParseIP IP_To4
                           IP_To16 IP_Mask IP_String net_SplitHostPort
                           (after (verifyChallengePage http_PostForm bc req ip now))
                           tr) ->
            serve regexp_MatchString helper_IsIpExcluded helper_IsIpGoodBot IP
              net_ParseIP IP_To4 IP_To16 IP_Mask IP_String net_SplitHostPort
              template_Execute state_GetState json_Marshal http_PostForm
              (after (verifyChallengePage http_PostForm bc req ip now)) req' tr t
            = (Next, after (verifyChallengePage http_PostForm bc req ip now)))
    as Hvia.
  { intros reach -> ->. by rewrite Hip. }
  split.
  - unfold serve, verification.
    destruct (getClientIP _ _ _ _ _ _ _ _ _ tr) as [clientIP ipRange].
    cbn [fst snd] in Hip, Hnext. subst clientIP.
    destruct (ChallengeOnPage _ && String.eqb (Method req') "POST").
    + destruct (negb (String.eqb (QueryGet req' "challenge") "")); cbn [snd].
      * by rewrite verifyChallengePage_rateCache.
      * by rewrite Hnext.
    + destruct (String.eqb (Path req') _).
      * destruct (String.eqb (Method req') "GET"); [done|].
        destruct (String.eqb (Method req') "POST"); [|done].
        cbn [snd]. by rewrite verifyChallengePage_rateCache.
      * destruct (_ && _); [done|]. by rewrite Hnext.
  - intros Hreach. eapply Hvia; [|reflexivity].
    by apply serve_reaches_protect.
Qed.

(** What a challenge from [ServeHTTP] after the reload of the state went
    through. *)
Lemma serve_challenged bc req tr now served bc' :
  serve regexp_MatchString helper_IsIpExcluded helper_IsIpGoodBot IP
    net_ParseIP IP_To4 IP_To16 IP_Mask IP_String net_SplitHostPort
    template_Execute state_GetState json_Marshal http_PostForm bc req tr now
  = (served, bc') ->
  (ChallengeOnPage bc && String.eqb (Method req) "POST" = true
   /\ QueryGet req "challenge" = "")
  \/ (ChallengeOnPage bc && String.eqb (Method req) "POST" = false
      /\ Path req <> ChallengeURL (config bc)
      /\ String.eqb (Path req) "/captcha-protect/stats"
         && String.eqb (EnableStatsPage (config bc)) "true" = false) ->
  served <> Next ->
  let clientIP :=
    fst (getClientIP helper_IsIpExcluded IP net_ParseIP IP_To4 IP_To16 IP_Mask
           IP_String net_SplitHostPort bc tr) in
  let ipRange :=
    snd (getClientIP helper_IsIpExcluded IP net_ParseIP IP_To4 IP_To16 IP_Mask
           IP_String net_SplitHostPort bc tr) in
  In (Method req) (ProtectHttpMethods (config bc)) /\
  lru.Get (verifiedCache bc) clientIP now = None /\
  helper_IsIpExcluded clientIP (exemptIps bc) = false /\
  fst (isGoodBot helper_IsIpGoodBot bc req clientIP now) = false /\
  isGoodUserAgent bc (UserAgent req) = false /\
  (if String.eqb (Mode (config bc)) "regex"
   then RouteIsProtectedRegex regexp_MatchString bc (Path req)
   else if String.eqb (Mode (config bc)) "suffix"
   then RouteIsProtectedSuffix bc (Path req)
   else RouteIsProtectedPrefix bc (Path req)) = true /\
  (exists count,
     lru.Get (rateCache bc') ipRange now = Some count /\
     RateLimit (config bc) < count) /\
  served
  = (if ChallengeOnPage bc
     then serveChallengePage template_Execute bc' (url.QueryEscape (RequestURI tr))
     else Wrote (http_Redirect
                   (ChallengeURL (config bc) +:+ "?destination="
                    +:+ url.QueryEscape (RequestURI tr)) StatusFound)).
Proof.
  intros Hs Hreach Hne. cbv zeta.
  rewrite (serve_reaches_protect bc req tr now Hreach) in Hs.
  by apply (protect_challenged bc req tr _ _ now served bc').
Qed.

(** When no reload of the state is due, [ServeHTTP] is what follows the
    reload, at the time of the clock, and the disk is not touched. *)
Lemma ServeHTTP_no_reload bc req tr d :
  PersistentStateFile (config bc) = ""
  \/ filelock.clock (os d) - lastStateReload bc < 5 * Second ->
  ServeHTTP regexp_MatchString helper_IsIpExcluded helper_IsIpGoodBot IP
    net_ParseIP IP_To4 IP_To16 IP_Mask IP_String net_SplitHostPort
    template_Execute state_GetState json_Marshal json_Unmarshal http_PostForm
    bc req tr d
  = (fst (serve regexp_MatchString helper_IsIpExcluded helper_IsIpGoodBot IP
            net_ParseIP IP_To4 IP_To16 IP_Mask IP_String net_SplitHostPort
            template_Execute state_GetState json_Marshal http_PostForm
            bc req tr (filelock.clock (os d))),
     snd (serve regexp_MatchString helper_IsIpExcluded helper_IsIpGoodBot IP
            net_ParseIP IP_To4 IP_To16 IP_Mask IP_String net_SplitHostPort
            template_Execute state_GetState json_Marshal http_PostForm
            bc req tr (filelock.clock (os d))),
     d).
Proof.
  unfold ServeHTTP. intros H.
  assert ((if negb (String.eqb (PersistentStateFile (config bc)) "")
           then reloadStateIfNeeded state_GetState json_Unmarshal bc d
           else (bc, d)) = (bc, d)) as ->.
  { destruct H as [->|H]; [done|].
    destruct (negb _); [|done]. unfold reloadStateIfNeeded.
    by rewrite (proj2 (Z.ltb_lt _ _) H). }
  by destruct (serve _ _ _ _ _ _ _ _ _ _ _ _ _ _ bc req tr _).
Qed.

(** X19: after [verifyChallengePage] has accepted the challenge of a
    client, and until the verification expires, a request of that client
    to [ServeHTTP] for which no reload of the state is due (no state file
    is configured, or the last reload is less than five seconds old) does
    not touch the rate counters, and when it is addressed neither to a
    challenge endpoint nor to the statistics page it is handed to the next
    handler with the middleware and the disk unchanged, whatever the
    request and the counter of its subnet. *)
Theorem ServeHTTP_verified_client bc req ip now req' tr d :
  FormValue req (key (captchaConfig bc) +:+ "-response") <> "" ->
  http_PostForm
    (mkPostForm (validate (captchaConfig bc))
       [("secret", SecretKey (config bc));
        ("response", FormValue req (key (captchaConfig bc) +:+ "-response"))])
  = Decoded true ->
  within_window (verifiedCache bc) now (filelock.clock (os d)) ->
  let bc1 := after (verifyChallengePage http_PostForm bc req ip now) in
  fst (getClientIP helper_IsIpExcluded IP net_ParseIP IP_To4 IP_To16 IP_Mask
         IP_String net_SplitHostPort bc1 tr) = ip ->
  PersistentStateFile (config bc1) = ""
  \/ filelock.clock (os d) - lastStateReload bc1 < 5 * Second ->
  rateCache
    (snd (fst (ServeHTTP regexp_MatchString helper_IsIpExcluded
                 helper_IsIpGoodBot IP net_ParseIP IP_To4 IP_To16 IP_Mask
                 IP_String net_SplitHostPort template_Execute state_GetState
                 json_Marshal json_Unmarshal http_PostForm bc1 req' tr d)))
  = rateCache bc /\
  ((ChallengeOnPage bc1 && String.eqb (Method req') "POST" = true
    /\ QueryGet req' "challenge" = "")
   \/ (ChallengeOnPage bc1 && String.eqb (Method req') "POST" = false
       /\ Path req' <> ChallengeURL (config bc1)
       /\ String.eqb (Path req') "/captcha-protect/stats"
          && String.eqb (EnableStatsPage (config bc1)) "true" = false) ->
   ServeHTTP regexp_MatchString helper_IsIpExcluded helper_IsIpGoodBot IP
     net_ParseIP IP_To4 IP_To16 IP_Mask IP_String net_SplitHostPort
     template_Execute state_GetState json_Marshal json_Unmarshal http_PostForm
     bc1 req' tr d
   = (Next, bc1, d)).
Proof.
  intros Ht Hp Hw. cbv zeta. intros Hip Hreload.
  rewrite (ServeHTTP_no_reload _ req' tr d Hreload). cbn [fst snd].
  destruct (serve_verified bc req ip now req' tr (filelock.clock (os d))
              Ht Hp Hw Hip) as [Hrate Hnext].
  split; [exact Hrate|]. intros Hreach. by rewrite (Hnext Hreach).
Qed.

(** X20: [ServeHTTP], for a request for which no reload of the state is
    due and that is addressed neither to a challenge endpoint nor to the
    statistics page, answers with anything but the next handler only when
    the method is protected, the client is neither verified nor exempt nor
    a good bot, its user agent is not exempt, the route is protected, and
    the counter of its subnet, this request included, exceeds the limit;
    the answer is then the challenge (the page, or the redirect to it) with
    the escaped request URI as its destination, and the disk is not
    touched. *)
Theorem ServeHTTP_challenges_only bc req tr d served bc' d' :
  ServeHTTP regexp_MatchString helper_IsIpExcluded helper_IsIpGoodBot IP
    net_ParseIP IP_To4 IP_To16 IP_Mask IP_String net_SplitHostPort
    template_Execute state_GetState json_Marshal json_Unmarshal http_PostForm
    bc req tr d
  = (served, bc', d') ->
  PersistentStateFile (config bc) = ""
  \/ filelock.clock (os d) - lastStateReload bc < 5 * Second ->
  (ChallengeOnPage bc && String.eqb (Method req) "POST" = true
   /\ QueryGet req "challenge" = "")
  \/ (ChallengeOnPage bc && String.eqb (Method req) "POST" = false
      /\ Path req <> ChallengeURL (config bc)
      /\ String.eqb (Path req) "/captcha-protect/stats"
         && String.eqb (EnableStatsPage (config bc)) "true" = false) ->
  served <> Next ->
  let now := filelock.clock (os d) in
  let clientIP :=
    fst (getClientIP helper_IsIpExcluded IP net_ParseIP IP_To4 IP_To16 IP_Mask
           IP_String net_SplitHostPort bc tr) in
  let ipRange :=
    snd (getClientIP helper_IsIpExcluded IP net_ParseIP IP_To4 IP_To16 IP_Mask
           IP_String net_SplitHostPort bc tr) in
  d' = d /\
  In (Method req) (ProtectHttpMethods (config bc)) /\
  lru.Get (verifiedCache bc) clientIP now = None /\
  helper_IsIpExcluded clientIP (exemptIps bc) = false /\
  fst (isGoodBot helper_IsIpGoodBot bc req clientIP now) = false /\
  isGoodUserAgent bc (UserAgent req) = false /\
  (if String.eqb (Mode (config bc)) "regex"
   then RouteIsProtectedRegex regexp_MatchString bc (Path req)
   else if String.eqb (Mode (config bc)) "suffix"
   then RouteIsProtectedSuffix bc (Path req)
   else RouteIsProtectedPrefix bc (Path req)) = true /\
  (exists count,
     lru.Get (rateCache bc') ipRange now = Some count /\
     RateLimit (config bc) < count) /\
  served
  = (if ChallengeOnPage bc
     then serveChallengePage template_Execute bc' (url.QueryEscape (RequestURI tr))
     else Wrote (http_Redirect
                   (ChallengeURL (config bc) +:+ "?destination="
                    +:+ url.QueryEscape (RequestURI tr)) StatusFound)).
Proof.
  intros Hs Hreload Hreach Hne. cbv zeta.
  rewrite (ServeHTTP_no_reload _ req tr d Hreload) in Hs.
  injection Hs as Hserved Hbc <-. split; [done|].
  apply (serve_challenged bc req tr (filelock.clock (os d)) served bc');
    try done.
  rewrite <- Hserved, <- Hbc. by destruct (serve _ _ _ _ _ _ _ _ _ _ _ _ _ _ bc req tr _).
Qed.

(** X21: the destination that the challenge page was given comes back: when
    the form of an accepted challenge carries [url.QueryEscape uri], as
    [ServeHTTP] puts it in a page served in place, the client is
    redirected to [uri] itself, and to [/] when [uri] is empty. *)
Theorem verifyChallengePage_returns_to_destination bc req ip now uri :
  FormValue req (key (captchaConfig bc) +:+ "-response") <> "" ->
  http_PostForm
    (mkPostForm (validate (captchaConfig bc))
       [("secret", SecretKey (config bc));
        ("response", FormValue req (key (captchaConfig bc) +:+ "-response"))])
  = Decoded true ->
  FormValue req "destination" = url.QueryEscape uri ->
  written (verifyChallengePage http_PostForm bc req ip now)
  = http_Redirect (if String.eqb uri "" then "/" else uri) StatusFound.
Proof.
  intros Ht Hp Hd. unfold verifyChallengePage.
  destruct (String.eqb_spec
              (FormValue req (key (captchaConfig bc) +:+ "-response")) "")
    as [|_]; [done|].
  rewrite Hp, Hd, QueryEscape_empty. cbn [written].
  destruct (String.eqb_spec uri "") as [->|_]; [done|].
  by rewrite QueryUnescape_QueryEscape.
Qed.

(** X22: the challenge endpoints are never handed to the next handler and
    never count as a request: a POST that answers a challenge served in
    place, and any request for a dedicated challenge URL, is answered by
    the middleware itself with the rate counters left as they were. *)
Theorem serve_challenge_never_forwarded bc req tr now :
  (ChallengeOnPage bc = true /\ Method req = "POST"
   /\ QueryGet req "challenge" <> "")
  \/ (ChallengeOnPage bc && String.eqb (Method req) "POST" = false
      /\ Path req = ChallengeURL (config bc)) ->
  let '(served, bc') :=
    serve regexp_MatchString helper_IsIpExcluded helper_IsIpGoodBot IP
      net_ParseIP IP_To4 IP_To16 IP_Mask IP_String net_SplitHostPort
      template_Execute state_GetState json_Marshal http_PostForm bc req tr now in
  served <> Next /\ rateCache bc' = rateCache bc.
Proof.
  unfold serve, verification. intros H.
  destruct (getClientIP _ _ _ _ _ _ _ _ bc tr) as [clientIP ipRange].
  destruct H as [(Hp & Hm & Hq)|(Hp & Hu)].
  - rewrite Hp, Hm. cbn [andb String.eqb Ascii.eqb Bool.eqb].
    destruct (String.eqb_spec (QueryGet req "challenge") "") as [|_]; [done|].
    cbn [negb]. split; [done|]. apply verifyChallengePage_rateCache.
  - rewrite Hp, Hu, String.eqb_refl.
    destruct (String.eqb (Method req) "GET"); [done|].
    destruct (String.eqb (Method req) "POST"); [|done].
    split; [done|]. apply verifyChallengePage_rateCache.
Qed.

End Serve.


(** ** The persistent state *)

Lemma lock_path_differs (p : string) : p +:+ ".lock" <> p.
Proof. induction p as [|c p IH]; [done|]. cbn. intros [= H]. by apply IH. Qed.

Section Persistence.

Context {IPNet Template Regexp : Type}.
Implicit Types bc : CaptchaProtect IPNet Template Regexp.
Variable state_GetState :
  gmap string (lru.Item Z) -> gmap string (lru.Item bool) ->
  gmap string (lru.Item bool) -> state.State.
Variable json_Marshal : state.State -> option string.
Variable json_Unmarshal : string -> option state.State.

(** What [readStateFromFile] returns and leaves behind. *)
Lemma readStateFromFile_spec bc d :
  let path := PersistentStateFile (config bc) in
  let lock := filelock.New path in
  let '(st, d') := readStateFromFile json_Unmarshal bc d in
  contents d' = contents d /\
  (forall p, p <> filelock.lockFile lock ->
     filelock.files (os d') !! p = filelock.files (os d) !! p) /\
  filelock.writable (os d') = filelock.writable (os d) /\
  filelock.mkdir_ok (os d') = filelock.mkdir_ok (os d) /\
  filelock.clock (os d) <= filelock.clock (os d')
  <= filelock.clock (os d) + 30 * Second /\
  match filelock.Lock lock (os d) with
  | (Some _, _, w1) =>
      st = state.mkState None None None None /\ os d' = w1
  | (None, _, w1) =>
      filelock.files (os d') !! filelock.lockFile lock = None /\
      filelock.clock (os d') = filelock.clock w1 /\
      st = match readSnapshot json_Unmarshal path d with
           | Some fileState => fileState
           | None => state.mkState None None None None
           end
  end.
Proof.
  cbv zeta. unfold readStateFromFile.
  pose proof (Lock_keeps (filelock.New (PersistentStateFile (config bc)))
                (os d)) as Hkeep.
  destruct (filelock.Lock (filelock.New (PersistentStateFile (config bc))) (os d))
    as [[[err|] lock1] w1] eqn:HL;
    destruct Hkeep as (Hc & Hf & Hd & Hw).
  - cbn [contents os]. split_and!; try done; lia.
  - rewrite (Unlock_after_Lock _ _ _ _ HL).
    cbn [contents os filelock.with_files filelock.files filelock.clock
           filelock.writable filelock.mkdir_ok].
    split_and!; try done; try lia.
    + intros p Hp. rewrite lookup_delete_ne by done. by apply Hf.
    + apply lookup_delete_eq.
    + unfold readSnapshot. cbn [os contents]. rewrite Hf; [done|].
      cbn. intros H. by apply (lock_path_differs (PersistentStateFile (config bc))).
Qed.

(** X23: [readStateFromFile] never changes the content of a file and never
    leaves a marker of its own: when it could take the lock, no marker is
    left and the snapshot is what the state file holds (the zero state for
    a file that is absent, empty or not a snapshot); when it could not, the
    snapshot is the zero state. *)
Theorem readStateFromFile_releases bc d :
  let path := PersistentStateFile (config bc) in
  let lock := filelock.New path in
  let '(st, d') := readStateFromFile json_Unmarshal bc d in
  contents d' = contents d /\
  (forall p, p <> filelock.lockFile lock ->
     filelock.files (os d') !! p = filelock.files (os d) !! p) /\
  match filelock.Lock lock (os d) with
  | (Some _, _, w1) => st = state.mkState None None None None
  | (None, _, w1) =>
      filelock.files (os d') !! filelock.lockFile lock = None /\
      st = match readSnapshot json_Unmarshal path d with
           | Some fileState => fileState
           | None => state.mkState None None None None
           end
  end.
Proof.
  cbv zeta. pose proof (readStateFromFile_spec bc d) as H. cbv zeta in H.
  destruct (readStateFromFile json_Unmarshal bc d) as [st d'].
  destruct H as (H1 & H2 & _ & _ & _ & H3). split_and!; try done.
  destruct (filelock.Lock _ _) as [[[err|] lock1] w1].
  - by destruct H3.
  - by destruct H3 as (? & _ & ?).
Qed.

(** Reading when the lock is free leaves the disk as it was. *)
Lemma readStateFromFile_free bc d :
  let path := PersistentStateFile (config bc) in
  filelock.files (os d) !! (path +:+ ".lock") = None ->
  filelock.mkdir_ok (os d) (path +:+ ".lock") = true ->
  filelock.writable (os d) (path +:+ ".lock") = true ->
  readStateFromFile json_Unmarshal bc d
  = (match readSnapshot json_Unmarshal path d with
     | Some fileState => fileState
     | None => state.mkState None None None None
     end, d).
Proof.
  cbv zeta. intros Hm Hd Hw. unfold readStateFromFile.
  destruct (Lock_Unlock_free (filelock.New (PersistentStateFile (config bc)))
              (os d)) as [HL HU]; try done.
  rewrite HL, HU. destruct d as [w c]. cbn [os contents]. f_equal.
  unfold readSnapshot. cbn [os contents filelock.with_files filelock.files].
  cbn [filelock.New filelock.lockFile].
  rewrite lookup_insert_ne; [done|]. apply lock_path_differs.
Qed.

(** Writing when the lock is free. *)
Lemma writeStateToFile_free bc st d jsonData :
  let path := PersistentStateFile (config bc) in
  filelock.files (os d) !! (path +:+ ".lock") = None ->
  filelock.mkdir_ok (os d) (path +:+ ".lock") = true ->
  filelock.writable (os d) (path +:+ ".lock") = true ->
  filelock.writable (os d) path = true ->
  json_Marshal st = Some jsonData ->
  writeStateToFile json_Marshal bc st d
  = (None,
     mkDisk
       (filelock.with_files (os d)
          (<[path := filelock.clock (os d)]> (filelock.files (os d))))
       (<[path := jsonData]> (contents d))).
Proof.
  cbv zeta. intros Hm Hd Hw Hwp Hjs. unfold writeStateToFile.
  destruct (Lock_Unlock_free (filelock.New (PersistentStateFile (config bc)))
              (os d)) as [HL _]; try done.
  rewrite HL, Hjs. cbn [filelock.with_files filelock.writable filelock.files
                          filelock.clock filelock.mkdir_ok].
  rewrite Hwp. cbn [negb].
  unfold filelock.Unlock, filelock.os_Remove.
  cbn [filelock.set_acquired filelock.acquired filelock.lockFile filelock.New negb
         filelock.with_files filelock.files filelock.writable filelock.clock
         filelock.mkdir_ok].
  rewrite lookup_insert_ne by (apply not_eq_sym, lock_path_differs).
  rewrite lookup_insert_eq, Hw.
  cbn [filelock.with_files filelock.files filelock.writable filelock.clock
         filelock.mkdir_ok filelock.IsNotExist].
  do 3 f_equal.
  rewrite delete_insert_ne by apply lock_path_differs.
  by rewrite delete_insert_id.
Qed.

(** X24: [saveStateWithLock] on a disk where the lock is free and the state
    file can be written hands to [json.Marshal] the reconciliation of the
    snapshot read from the disk with the snapshot of the caches and writes
    the bytes it returns to the state file, under the lock and leaving no
    marker; no rate counter of that reconciliation is below the one read
    from the disk. When [json.Unmarshal] makes of these bytes the snapshot
    they were made from, the next [readStateFromFile] returns it. *)
Theorem saveStateWithLock_stores bc d jsonData :
  let path := PersistentStateFile (config bc) in
  let current :=
    match readSnapshot json_Unmarshal path d with
    | Some fileState => fileState
    | None => state.mkState None None None None
    end in
  let stored :=
    reconcileStates current
      (memorySnapshot state_GetState bc (filelock.clock (os d))) in
  filelock.files (os d) !! (path +:+ ".lock") = None ->
  filelock.mkdir_ok (os d) (path +:+ ".lock") = true ->
  filelock.writable (os d) (path +:+ ".lock") = true ->
  filelock.writable (os d) path = true ->
  json_Marshal stored = Some jsonData ->
  let d' := saveStateWithLock state_GetState json_Marshal json_Unmarshal bc d in
  contents d' = <[path := jsonData]> (contents d) /\
  filelock.files (os d') !! (path +:+ ".lock") = None /\
  filelock.files (os d') !! path = Some (filelock.clock (os d)) /\
  filelock.clock (os d') = filelock.clock (os d) /\
  (forall k fileRate,
     state.entries (state.Rate current) !! k = Some fileRate ->
     exists rate,
       state.entries (state.Rate stored) !! k = Some rate /\ fileRate <= rate) /\
  (jsonData <> "" -> json_Unmarshal jsonData = Some stored ->
   fst (readStateFromFile json_Unmarshal bc d') = stored).
Proof.
  cbv zeta. intros Hm Hd Hw Hwp Hjs. unfold saveStateWithLock.
  rewrite readStateFromFile_free by done.
  rewrite (writeStateToFile_free _ _ _ jsonData) by done. cbn [snd contents os].
  cbn [filelock.with_files filelock.files filelock.clock].
  split_and!; try done.
  - rewrite lookup_insert_ne; [done|]. apply not_eq_sym, lock_path_differs.
  - apply lookup_insert_eq.
  - intros k f Hf. unfold reconcileStates. cbn [state.Rate state.entries].
    rewrite range_reconcileRate_lookup, Hf.
    destruct (state.entries (state.Rate (memorySnapshot _ _ _)) !! k) as [m|];
      [|exists f; split; [done|lia]].
    destruct (Z.ltb_spec m f); [exists f|exists m]; (split; [done|lia]).
  - intros Hne Hun.
    rewrite readStateFromFile_free; cbn [os filelock.with_files filelock.files
      filelock.mkdir_ok filelock.writable]; try done.
    + cbn [fst]. unfold readSnapshot at 1.
      cbn [os contents filelock.with_files filelock.files].
      rewrite !lookup_insert_eq. cbn [default from_option id].
      destruct jsonData as [|c rest]; [done|]. cbn [String.length Nat.eqb].
      by rewrite Hun.
    + rewrite lookup_insert_ne; [done|]. apply not_eq_sym, lock_path_differs.
Qed.

Lemma lastStateReload_loadState bc loaded now :
  lastStateReload (loadState bc loaded now) = lastStateReload bc.
Proof. by destruct loaded. Qed.

(** X25: [reloadStateIfNeeded] reloads at most once in five seconds: less
    than five seconds after the last reload it does nothing; otherwise it
    records the current time as the last reload, whatever the reload finds,
    so that for the next five seconds it does nothing again. *)
Theorem reloadStateIfNeeded_throttle bc d :
  (filelock.clock (os d) - lastStateReload bc < 5 * Second ->
   reloadStateIfNeeded state_GetState json_Unmarshal bc d = (bc, d)) /\
  (5 * Second <= filelock.clock (os d) - lastStateReload bc ->
   let '(bc1, d1) := reloadStateIfNeeded state_GetState json_Unmarshal bc d in
   lastStateReload bc1 = filelock.clock (os d) /\
   forall d2,
     filelock.clock (os d2) - filelock.clock (os d) < 5 * Second ->
     reloadStateIfNeeded state_GetState json_Unmarshal bc1 d2 = (bc1, d2)).
Proof.
  unfold reloadStateIfNeeded. split.
  - intros H. by rewrite (proj2 (Z.ltb_lt _ _) H).
  - intros H. rewrite (proj2 (Z.ltb_ge _ _) H).
    assert (lastStateReload
              (fst (reloadStateFromFile state_GetState json_Unmarshal
                      (set_lastStateReload bc (filelock.clock (os d))) d))
            = filelock.clock (os d)) as Hl.
    { unfold reloadStateFromFile.
      destruct (readStateFromFile _ _ d) as [fileState d1].
      destruct (_ && _); [done|]. cbn [fst].
      by rewrite lastStateReload_loadState. }
    destruct (reloadStateFromFile _ _ _ d) as [bc1 d1]. cbn [fst] in Hl.
    split; [done|]. intros d2 H2. rewrite Hl.
    by rewrite (proj2 (Z.ltb_lt _ _) H2).
Qed.

(** X26: [reloadStateFromFile] leaves the disk as [readStateFromFile] left
    it and never changes the configuration; when the file holds no entry
    the caches are untouched; otherwise each cache holds exactly the
    reconciliation of the file with the live entries of the caches, every
    entry with a full window from now, so a counter is never below the one
    in the file. *)
Theorem reloadStateFromFile_installs bc d k :
  let '(fileState, d1) := readStateFromFile json_Unmarshal bc d in
  let now := filelock.clock (os d1) in
  let reconciled :=
    reconcileStates fileState (memorySnapshot state_GetState bc now) in
  let '(bc', d') := reloadStateFromFile state_GetState json_Unmarshal bc d in
  d' = d1 /\ config bc' = config bc /\
  (state.entries (state.Rate fileState) = ∅ ->
   state.entries (state.Bots fileState) = ∅ ->
   state.entries (state.Verified fileState) = ∅ -> bc' = bc) /\
  (state.entries (state.Rate fileState) <> ∅
   \/ state.entries (state.Bots fileState) <> ∅
   \/ state.entries (state.Verified fileState) <> ∅ ->
   lru.items (rateCache bc') !! k
   = (fun v => lru.mkItem v (first_expiration (rateCache bc) now))
       <$> state.entries (state.Rate reconciled) !! k /\
   lru.items (botCache bc') !! k
   = (fun v => lru.mkItem v (first_expiration (botCache bc) now))
       <$> state.entries (state.Bots reconciled) !! k /\
   lru.items (verifiedCache bc') !! k
   = (fun v => lru.mkItem v (first_expiration (verifiedCache bc) now))
       <$> state.entries (state.Verified reconciled) !! k /\
   forall fileRate,
     state.entries (state.Rate fileState) !! k = Some fileRate ->
     exists rate,
       lru.Get (rateCache bc') k now = Some rate /\ fileRate <= rate).
Proof.
  unfold reloadStateFromFile. destruct (readStateFromFile json_Unmarshal bc d) as [fileState d1].
  cbv zeta. unfold len.
  destruct (size (state.entries (state.Rate fileState)) =? 0)%nat eqn:Hr;
    [destruct (size (state.entries (state.Bots fileState)) =? 0)%nat eqn:Hb;
     [destruct (size (state.entries (state.Verified fileState)) =? 0)%nat eqn:Hv|]|];
    cbn [andb].
  1:{ split_and!; try done. intros [H|[H|H]]; exfalso; apply H;
        apply map_size_empty_iff; by apply Nat.eqb_eq. }
  all: rewrite config_loadState;
    cbn [set_verifiedCache set_botCache set_rateCache config];
    split_and!; try done.
  all: try (intros H1 H2 H3; exfalso;
            rewrite ?H1, ?H2, ?H3, map_size_empty in *; done).
  all: intros _.
  all: set (reconciled :=
         reconcileStates fileState
           (memorySnapshot state_GetState bc (filelock.clock (os d1)))).
  all: pose proof (loadState_items
         (set_verifiedCache
            (set_botCache (set_rateCache bc (lru.Flush (rateCache bc)))
               (lru.Flush (botCache bc))) (lru.Flush (verifiedCache bc)))
         reconciled (filelock.clock (os d1)) k) as (Hrate & Hbots & Hver).
  all: cbn [set_verifiedCache set_botCache set_rateCache rateCache botCache
              verifiedCache lru.Flush lru.items] in Hrate, Hbots, Hver.
  all: rewrite lookup_empty in Hrate; rewrite lookup_empty in Hbots;
    rewrite lookup_empty in Hver.
  all: rewrite Hrate, Hbots, Hver.
  all: split_and!;
         [by destruct (state.entries (state.Rate reconciled) !! k)
         |by destruct (state.entries (state.Bots reconciled) !! k)
         |by destruct (state.entries (state.Verified reconciled) !! k)|].
  all: intros f Hf; unfold lru.Get; rewrite Hrate;
         subst reconciled; unfold reconcileStates; cbn [state.Rate state.entries];
         rewrite range_reconcileRate_lookup, Hf.
  all: destruct (state.entries (state.Rate (memorySnapshot _ _ _)) !! k) as [m|];
         [destruct (Z.ltb_spec m f)|];
         cbv beta iota;
         (rewrite within_not_expired;
          [cbn [lru.Object]; eexists; split; [reflexivity|lia]|]);
         unfold within_window; cbn [lru.Flush lru.defaultExpiration]; lia.
Qed.

End Persistence.


Section Construction.

Context {IPNet Template Regexp : Type}.
Implicit Types bc : CaptchaProtect IPNet Template Regexp.
Variable regexp_Compile : string -> option Regexp.
Variable os_Stat : string -> StatOutcome.
Variable helper_GetDefaultTmpl : string.
Variable template_Parse template_ParseFiles : string -> result Template.
Variable helper_ParseCIDR : string -> result IPNet.

Lemma convert_all_length {A B} (f : A -> result B) l bs :
  convert_all f l = Ok bs -> length bs = length l.
Proof.
  revert bs. induction l as [|a l IH]; intros bs; cbn [convert_all].
  - by intros [= <-].
  - destruct (f a); [|done]. destruct (convert_all f l) as [bs'|]; [|done].
    intros [= <-]. cbn [length]. by rewrite (IH bs').
Qed.

Lemma projections_loadState bc loaded now :
  exemptIps (loadState bc loaded now) = exemptIps bc /\
  ipv4Mask (loadState bc loaded now) = ipv4Mask bc /\
  ipv6Mask (loadState bc loaded now) = ipv6Mask bc /\
  captchaConfig (loadState bc loaded now) = captchaConfig bc /\
  protectRoutesRegex (loadState bc loaded now) = protectRoutesRegex bc /\
  excludeRoutesRegex (loadState bc loaded now) = excludeRoutesRegex bc.
Proof. by destruct loaded. Qed.

(** What a successful construction went through. *)
Lemma NewCaptchaProtect_Ok config loaded now bc :
  NewCaptchaProtect regexp_Compile os_Stat helper_GetDefaultTmpl template_Parse
    template_ParseFiles helper_ParseCIDR config loaded now = Ok bc ->
  (ProtectRoutes config <> [] \/ Mode config = "suffix") /\
  (Mode config = "prefix" \/ Mode config = "suffix" \/ Mode config = "regex") /\
  ChallengeURL config <> "/" /\
  (8 <= IPv4SubnetMask config <= 32) /\
  (8 <= IPv6SubnetMask config <= 128) /\
  providerConfig (CaptchaProvider config) = Ok (captchaConfig bc) /\
  ExemptUserAgents (captcha_protect.config bc)
  = map strings.ToLower (ExemptUserAgents config) /\
  In "html" (ProtectFileExtensions (captcha_protect.config bc)) /\
  ProtectHttpMethods (captcha_protect.config bc)
  = (if (length (ProtectHttpMethods config) =? 0)%nat then ["GET"; "HEAD"]
     else ProtectHttpMethods config) /\
  ChallengeURL (captcha_protect.config bc)
  = (if String.eqb (ChallengeURL config) "" then "?challenge=true"
     else ChallengeURL config) /\
  ChallengeStatusCode (captcha_protect.config bc)
  = (if ChallengeStatusCode config =? 0
     then if ChallengeOnPage bc then StatusTooManyRequests else StatusOK
     else ChallengeStatusCode config) /\
  ipv4Mask bc = Some (mkIPMask (IPv4SubnetMask config) 32) /\
  ipv6Mask bc = Some (mkIPMask (IPv6SubnetMask config) 128) /\
  length (exemptIps bc) = (5 + length (ExemptIPs config))%nat /\
  RateLimit (captcha_protect.config bc) = RateLimit config /\
  Mode (captcha_protect.config bc) = Mode config /\
  ProtectRoutes (captcha_protect.config bc) = ProtectRoutes config /\
  ExcludeRoutes (captcha_protect.config bc) = ExcludeRoutes config /\
  ProtectParameters (captcha_protect.config bc) = ProtectParameters config.
Proof.
  unfold NewCaptchaProtect. intros H.
  destruct ((length (ProtectRoutes config) =? 0)%nat
            && negb (String.eqb (Mode config) "suffix")) eqn:Hroutes; [done|].
  destruct (compileRoutes _ _ _) as [[pr er]|] eqn:Hcomp in H; [|done].
  cbn [set_ExemptUserAgents ChallengeURL] in H.
  destruct (String.eqb_spec (ChallengeURL config) "/") as [|Hurl]; [done|].
  assert (ProtectRoutes config <> [] \/ Mode config = "suffix") as Hr.
  { destruct (ProtectRoutes config); [|by left]. right.
    cbn in Hroutes. by destruct (String.eqb_spec (Mode config) "suffix"). }
  assert (Mode config = "prefix" \/ Mode config = "suffix" \/ Mode config = "regex")
    as Hmode.
  { unfold compileRoutes in Hcomp.
    destruct (String.eqb_spec (Mode config) "regex"); [by auto|].
    destruct (String.eqb_spec (Mode config) "prefix"); [by auto|].
    destruct (String.eqb_spec (Mode config) "suffix"); [by auto|done]. }
  assert (8 <= IPv4SubnetMask config <= 32 /\ 8 <= IPv6SubnetMask config <= 128
          /\ exists cc, providerConfig (CaptchaProvider config) = Ok cc
          /\ exists t ips,
               length ips = (5 + length (ExemptIPs config))%nat /\
               bc = (fun bc0 =>
                       if negb (String.eqb (PersistentStateFile config) "")
                       then loadState (set_stateChanged bc0 (Some false)) loaded now
                       else bc0)
                      (mkCaptchaProtect
                         (let c1 :=
                            set_ExemptUserAgents config
                              (map strings.ToLower (ExemptUserAgents config)) in
                          let c2 :=
                            if String.eqb (ChallengeURL config) ""
                            then set_ChallengeURL c1 "?challenge=true" else c1 in
                          let c3 :=
                            if (length (ProtectHttpMethods config) =? 0)%nat
                            then set_ProtectHttpMethods c2 ["GET"; "HEAD"]
                            else c2 in
                          let c4 :=
                            if existsb (String.eqb "html")
                                 (ProtectFileExtensions config)
                            then c3
                            else set_ProtectFileExtensions c3
                                   (ProtectFileExtensions config ++ ["html"]) in
                          if ChallengeStatusCode config =? 0
                          then if String.eqb (ChallengeURL c4) "?challenge=true"
                               then set_ChallengeStatusCode c4 StatusTooManyRequests
                               else set_ChallengeStatusCode c4 StatusOK
                          else c4)
                         (lru.New (int64_wrap (Window config * Second)))
                         (lru.New (int64_wrap (Window config * Second)))
                         (lru.New (int64_wrap (Window config * Second)))
                         cc ips t
                         (Some (mkIPMask (IPv4SubnetMask config) 32))
                         (Some (mkIPMask (IPv6SubnetMask config) 128))
                         pr er None 0)) as Hshape.
  { destruct (String.eqb (ChallengeURL config) "") eqn:Hblank;
      cbn [set_ChallengeURL set_ExemptUserAgents ProtectHttpMethods] in H;
      destruct ((length (ProtectHttpMethods config) =? 0)%nat) eqn:Hmeth;
      cbn [set_ProtectHttpMethods set_ChallengeURL set_ExemptUserAgents
             ProtectFileExtensions] in H;
      (destruct (loadTemplate _ _ _ _ _) as [t|] in H; [|done]);
      destruct (existsb (String.eqb "html") (ProtectFileExtensions config)) eqn:Hhtml;
      cbn [set_ProtectFileExtensions set_ProtectHttpMethods set_ChallengeURL
             set_ExemptUserAgents ExemptIPs ChallengeStatusCode] in H;
      (destruct (convert_all _ _) as [ips|] eqn:Hips in H; [|done]);
      apply convert_all_length in Hips; rewrite length_app in Hips;
      change (length builtinExemptIps) with 5%nat in Hips;
      destruct (ChallengeStatusCode config =? 0) eqn:Hcode;
      unfold ChallengeOnPage, SetIpv4Mask, SetIpv6Mask in H;
      cbn [captcha_protect.config set_config set_ChallengeStatusCode
             set_ProtectFileExtensions set_ProtectHttpMethods set_ChallengeURL
             set_ExemptUserAgents ChallengeURL IPv4SubnetMask IPv6SubnetMask
             CaptchaProvider PersistentStateFile] in H;
      cbv zeta;
      cbn [captcha_protect.config set_config set_ChallengeStatusCode
             set_ProtectFileExtensions set_ProtectHttpMethods set_ChallengeURL
             set_ExemptUserAgents ChallengeURL IPv4SubnetMask IPv6SubnetMask
             CaptchaProvider PersistentStateFile].
    all: try (destruct (String.eqb _ "?challenge=true") eqn:Hpage in H |- *).
    all: destruct ((IPv4SubnetMask config <? 8) || (32 <? IPv4SubnetMask config))
           eqn:H4 in H; [done|].
    all: destruct ((IPv6SubnetMask config <? 8) || (128 <? IPv6SubnetMask config))
           eqn:H6 in H; [done|].
    all: destruct (providerConfig (CaptchaProvider config)) as [cc|] eqn:Hprov in H;
           [|done].
    all: apply orb_false_iff in H4 as [?%Z.ltb_ge ?%Z.ltb_ge].
    all: apply orb_false_iff in H6 as [?%Z.ltb_ge ?%Z.ltb_ge].
    all: split; [lia|]; split; [lia|]; exists cc; split; [done|]; exists t, ips;
           split; [done|].
    all: destruct (negb (String.eqb (PersistentStateFile config) "")) in H |- *.
    all: by injection H as <-. }
  clear H. destruct Hshape as (H4 & H6 & cc & Hprov & t & ips & Hips & ->).
  cbv beta zeta.
  assert (forall bc0 : CaptchaProtect IPNet Template Regexp,
            let bc1 := if negb (String.eqb (PersistentStateFile config) "")
                       then loadState (set_stateChanged bc0 (Some false)) loaded now
                       else bc0 in
            captcha_protect.config bc1 = captcha_protect.config bc0 /\
            captchaConfig bc1 = captchaConfig bc0 /\
            ipv4Mask bc1 = ipv4Mask bc0 /\ ipv6Mask bc1 = ipv6Mask bc0 /\
            exemptIps bc1 = exemptIps bc0) as Hload.
  { intros bc0. cbv zeta.
    destruct (negb (String.eqb (PersistentStateFile config) "")); [|by split_and!].
    rewrite config_loadState.
    destruct (projections_loadState (set_stateChanged bc0 (Some false)) loaded now)
      as (-> & -> & -> & -> & _). by split_and!. }
  match goal with |- context [if negb _ then loadState _ _ _ else ?b] =>
    destruct (Hload b) as (Hc & Hcc & Hm4 & Hm6 & He) end.
  cbv zeta in Hc, Hcc, Hm4, Hm6, He. unfold ChallengeOnPage.
  rewrite Hc, Hcc, Hm4, Hm6, He.
  cbn [captcha_protect.config captchaConfig ipv4Mask ipv6Mask exemptIps].
  split_and!; try done; try lia.
  all: destruct (String.eqb (ChallengeURL config) "") eqn:Hblank;
       destruct ((length (ProtectHttpMethods config) =? 0)%nat) eqn:Hmeth;
       destruct (existsb (String.eqb "html") (ProtectFileExtensions config)) eqn:Hhtml;
       destruct (ChallengeStatusCode config =? 0) eqn:Hcode;
       cbn [set_ChallengeStatusCode set_ProtectFileExtensions
              set_ProtectHttpMethods set_ChallengeURL set_ExemptUserAgents
              ChallengeURL ExemptUserAgents ProtectFileExtensions
              ProtectHttpMethods ChallengeStatusCode RateLimit Mode
              ProtectRoutes ExcludeRoutes ProtectParameters];
       try (destruct (String.eqb (ChallengeURL config) "?challenge=true") eqn:Hpage);
       cbn [set_ChallengeStatusCode set_ProtectFileExtensions
              set_ProtectHttpMethods set_ChallengeURL set_ExemptUserAgents
              ChallengeURL ExemptUserAgents ProtectFileExtensions
              ProtectHttpMethods ChallengeStatusCode RateLimit Mode
              ProtectRoutes ExcludeRoutes ProtectParameters];
       rewrite ?Hpage; try done.
  all: try (apply existsb_exists in Hhtml as (x & Hin & ->%String.eqb_eq); done).
  all: try (apply in_or_app; right; by left).
Qed.

(** X27: the constructor refuses a configuration unless it protects a route
    (or is in suffix mode), names one of the three modes, keeps the
    challenge off [/], has subnet masks within 8..32 and 8..128, and names a
    known captcha provider, whose settings the middleware then carries. *)
Theorem NewCaptchaProtect_validates config loaded now bc :
  NewCaptchaProtect regexp_Compile os_Stat helper_GetDefaultTmpl template_Parse
    template_ParseFiles helper_ParseCIDR config loaded now = Ok bc ->
  (ProtectRoutes config <> [] \/ Mode config = "suffix") /\
  (Mode config = "prefix" \/ Mode config = "suffix" \/ Mode config = "regex") /\
  ChallengeURL config <> "/" /\
  (8 <= IPv4SubnetMask config <= 32) /\
  (8 <= IPv6SubnetMask config <= 128) /\
  providerConfig (CaptchaProvider config) = Ok (captchaConfig bc) /\
  ipv4Mask bc = Some (mkIPMask (IPv4SubnetMask config) 32) /\
  ipv6Mask bc = Some (mkIPMask (IPv6SubnetMask config) 128).
Proof.
  intros H. apply NewCaptchaProtect_Ok in H.
  destruct H as (H1 & H2 & H3 & H4 & H5 & H6 & _ & _ & _ & _ & _ & H7 & H8 & _).
  split_and!; try done; lia.
Qed.

(** X28: the configuration of a constructed middleware is the given one
    normalised: the exempt user agents in lower case, [html] among the
    protected extensions, GET and HEAD when no method was given, the
    marker [?challenge=true] for a blank challenge URL, a status code of
    429 for a challenge served in place and 200 otherwise when none was
    given, and as many exempt networks as the five built-in ranges and the
    configured ones together; the limit, the mode and the routes are
    kept. *)
Theorem NewCaptchaProtect_normalises config loaded now bc :
  NewCaptchaProtect regexp_Compile os_Stat helper_GetDefaultTmpl template_Parse
    template_ParseFiles helper_ParseCIDR config loaded now = Ok bc ->
  ExemptUserAgents (captcha_protect.config bc)
  = map strings.ToLower (ExemptUserAgents config) /\
  In "html" (ProtectFileExtensions (captcha_protect.config bc)) /\
  ProtectHttpMethods (captcha_protect.config bc)
  = (if (length (ProtectHttpMethods config) =? 0)%nat then ["GET"; "HEAD"]
     else ProtectHttpMethods config) /\
  ChallengeURL (captcha_protect.config bc)
  = (if String.eqb (ChallengeURL config) "" then "?challenge=true"
     else ChallengeURL config) /\
  ChallengeStatusCode (captcha_protect.config bc)
  = (if ChallengeStatusCode config =? 0
     then if ChallengeOnPage bc then StatusTooManyRequests else StatusOK
     else ChallengeStatusCode config) /\
  length (exemptIps bc) = (5 + length (ExemptIPs config))%nat /\
  RateLimit (captcha_protect.config bc) = RateLimit config /\
  Mode (captcha_protect.config bc) = Mode config /\
  ProtectRoutes (captcha_protect.config bc) = ProtectRoutes config /\
  ExcludeRoutes (captcha_protect.config bc) = ExcludeRoutes config /\
  ProtectParameters (captcha_protect.config bc) = ProtectParameters config.
Proof.
  intros H. apply NewCaptchaProtect_Ok in H.
  destruct H as (_ & _ & _ & _ & _ & _ & H1 & H2 & H3 & H4 & H5 & _ & _ & H6
                 & H7 & H8 & H9 & H10 & H11).
  by split_and!.
Qed.

End Construction.

Lemma NewCaptchaProtect_validates_witness :
  providerConfig (CaptchaProvider scenario.site)
  = Ok (captchaConfig scenario.site_bc).
Proof.
  refine (proj1 (proj2 (proj2 (proj2 (proj2 (proj2
            (NewCaptchaProtect_validates scenario.regexp_Compile scenario.os_Stat
               scenario.helper_GetDefaultTmpl scenario.template_Parse
               scenario.template_ParseFiles scenario.helper_ParseCIDR
               scenario.site None 0 scenario.site_bc _))))))).
  reflexivity.
Defined.

Lemma NewCaptchaProtect_normalises_witness :
  In "html" (ProtectFileExtensions (config scenario.site_bc)).
Proof.
  refine (proj1 (proj2
            (NewCaptchaProtect_normalises scenario.regexp_Compile scenario.os_Stat
               scenario.helper_GetDefaultTmpl scenario.template_Parse
               scenario.template_ParseFiles scenario.helper_ParseCIDR
               scenario.site None 0 scenario.site_bc _))).
  reflexivity.
Defined.

(** ** The properties above at concrete sites *)

Lemma shouldApply_exemptions_witness :
  shouldApply scenario.no_match scenario.nobody_exempt scenario.nobody_bot
    scenario.site_bc (scenario.challenge_post "token" "%2F") "203.0.113.7" 0
  = (false, scenario.site_bc).
Proof.
  apply (shouldApply_exemptions scenario.no_match scenario.nobody_exempt
           scenario.nobody_bot scenario.site_bc
           (scenario.challenge_post "token" "%2F") "203.0.113.7" 0).
  left. reflexivity.
Defined.

Lemma getClientIP_fallback_witness :
  getClientIP scenario.nobody_exempt string scenario.net_ParseIP scenario.IP_To4
    scenario.IP_To16 scenario.IP_Mask scenario.IP_String
    scenario.net_SplitHostPort scenario.site_bc scenario.direct
  = ("203.0.113.7", "203.0.113.7").
Proof.
  apply (getClientIP_fallback scenario.nobody_exempt string scenario.net_ParseIP
           scenario.IP_To4 scenario.IP_To16 scenario.IP_Mask scenario.IP_String
           scenario.net_SplitHostPort scenario.site_bc scenario.direct).
  left. reflexivity.
Defined.

Lemma ServeHTTP_verified_client_witness :
  let bc1 :=
    after (verifyChallengePage scenario.provider_accepts scenario.site_bc
             (scenario.challenge_post "token" "%2F") "203.0.113.7"
             (999 * Second)) in
  ServeHTTP scenario.no_match scenario.nobody_exempt scenario.nobody_bot string
    scenario.v4_ParseIP scenario.v4_To4 scenario.IP_To16 scenario.v4_Mask
    scenario.IP_String scenario.net_SplitHostPort scenario.template_runs
    scenario.GetState scenario.Marshal scenario.Unmarshal
    scenario.provider_accepts bc1 scenario.search_request scenario.direct
    scenario.disk_with_state
  = (Next, bc1, scenario.disk_with_state).
Proof.
  refine (proj2
            (ServeHTTP_verified_client scenario.no_match scenario.nobody_exempt
               scenario.nobody_bot string scenario.v4_ParseIP scenario.v4_To4
               scenario.IP_To16 scenario.v4_Mask scenario.IP_String
               scenario.net_SplitHostPort scenario.template_runs
               scenario.GetState scenario.Marshal scenario.Unmarshal
               scenario.provider_accepts
               scenario.site_bc (scenario.challenge_post "token" "%2F")
               "203.0.113.7" (999 * Second) scenario.search_request
               scenario.direct scenario.disk_with_state _ _ _ _ _) _).
  - vm_compute. discriminate.
  - reflexivity.
  - right. vm_compute. discriminate.
  - reflexivity.
  - left. reflexivity.
  - right. split_and!; [reflexivity|vm_compute; discriminate|reflexivity].
Defined.

Lemma ServeHTTP_challenges_only_witness :
  let r :=
    ServeHTTP scenario.no_match scenario.nobody_exempt scenario.nobody_bot
      string scenario.v4_ParseIP scenario.v4_To4 scenario.IP_To16
      scenario.v4_Mask scenario.IP_String scenario.net_SplitHostPort
      scenario.template_runs scenario.GetState scenario.Marshal
      scenario.Unmarshal scenario.provider_accepts scenario.strict_bc
      scenario.search_request scenario.direct scenario.disk_with_state in
  (exists count,
     lru.Get (rateCache (snd (fst r))) "203.0.0.0" (1000 * Second) = Some count /\
     RateLimit (config scenario.strict_bc) < count) /\
  fst (fst r)
  = Wrote (http_Redirect "/challenge?destination=%2Fsearch%3Fpage%3D2"
             StatusFound).
Proof.
  cbv zeta.
  refine (proj2 (proj2 (proj2 (proj2 (proj2 (proj2 (proj2
            (ServeHTTP_challenges_only scenario.no_match
               scenario.nobody_exempt scenario.nobody_bot string
               scenario.v4_ParseIP scenario.v4_To4 scenario.IP_To16
               scenario.v4_Mask scenario.IP_String scenario.net_SplitHostPort
               scenario.template_runs scenario.GetState scenario.Marshal
               scenario.Unmarshal scenario.provider_accepts scenario.strict_bc
               scenario.search_request scenario.direct scenario.disk_with_state
               (fst (fst (ServeHTTP scenario.no_match scenario.nobody_exempt
                       scenario.nobody_bot string scenario.v4_ParseIP
                       scenario.v4_To4 scenario.IP_To16 scenario.v4_Mask
                       scenario.IP_String scenario.net_SplitHostPort
                       scenario.template_runs scenario.GetState scenario.Marshal
                       scenario.Unmarshal scenario.provider_accepts
                       scenario.strict_bc scenario.search_request
                       scenario.direct scenario.disk_with_state)))
               (snd (fst (ServeHTTP scenario.no_match scenario.nobody_exempt
                       scenario.nobody_bot string scenario.v4_ParseIP
                       scenario.v4_To4 scenario.IP_To16 scenario.v4_Mask
                       scenario.IP_String scenario.net_SplitHostPort
                       scenario.template_runs scenario.GetState scenario.Marshal
                       scenario.Unmarshal scenario.provider_accepts
                       scenario.strict_bc scenario.search_request
                       scenario.direct scenario.disk_with_state)))
               scenario.disk_with_state
               _ _ _ _)))))))).
  - reflexivity.
  - left. reflexivity.
  - right. split_and!; [reflexivity|vm_compute; discriminate|reflexivity].
  - vm_compute. discriminate.
Defined.

Lemma verifyChallengePage_returns_to_destination_witness :
  written
    (verifyChallengePage scenario.provider_accepts scenario.site_bc
       (scenario.challenge_post "token" (url.QueryEscape "/search?page=2"))
       "203.0.113.7" 0)
  = http_Redirect "/search?page=2" StatusFound.
Proof.
  apply (verifyChallengePage_returns_to_destination scenario.provider_accepts
           scenario.site_bc
           (scenario.challenge_post "token" (url.QueryEscape "/search?page=2"))
           "203.0.113.7" 0 "/search?page=2").
  - vm_compute. discriminate.
  - reflexivity.
  - reflexivity.
Defined.

Lemma serve_challenge_never_forwarded_witness :
  let '(served, bc') :=
    serve scenario.no_match scenario.nobody_exempt scenario.nobody_bot string
      scenario.net_ParseIP scenario.IP_To4 scenario.IP_To16 scenario.IP_Mask
      scenario.IP_String scenario.net_SplitHostPort scenario.template_runs
      scenario.GetState scenario.Marshal scenario.provider_accepts
      scenario.site_bc (scenario.challenge_post "token" "%2F") scenario.direct 0 in
  served <> Next /\ rateCache bc' = rateCache scenario.site_bc.
Proof.
  apply (serve_challenge_never_forwarded scenario.no_match scenario.nobody_exempt
           scenario.nobody_bot string scenario.net_ParseIP scenario.IP_To4
           scenario.IP_To16 scenario.IP_Mask scenario.IP_String
           scenario.net_SplitHostPort scenario.template_runs scenario.GetState
           scenario.Marshal scenario.provider_accepts scenario.site_bc
           (scenario.challenge_post "token" "%2F") scenario.direct 0).
  right. split; reflexivity.
Defined.

Lemma saveStateWithLock_stores_witness :
  contents
    (saveStateWithLock scenario.GetState scenario.Marshal scenario.Unmarshal
       scenario.persistent_bc scenario.disk_with_state)
  = {["state.json" := "saved"]} /\
  fst (readStateFromFile scenario.Unmarshal scenario.persistent_bc
         (saveStateWithLock scenario.GetState scenario.Marshal
            scenario.Unmarshal scenario.persistent_bc scenario.disk_with_state))
  = scenario.saved_3.
Proof.
  pose proof (saveStateWithLock_stores scenario.GetState scenario.Marshal
                scenario.Unmarshal scenario.persistent_bc
                scenario.disk_with_state "saved" eq_refl eq_refl eq_refl
                eq_refl eq_refl) as H.
  split.
  - exact (proj1 H).
  - refine (proj2 (proj2 (proj2 (proj2 (proj2 H)))) _ _).
    + discriminate.
    + reflexivity.
Defined.
